(** * Resume personalisation pipeline: a shallow embedding of the
      enhancement orchestration core

    The development follows the Python sources of the application:

    - [schemas/*.py]                       the data model;
    - [utils/validation.py]                the post-enhancement validators;
    - [graph/nodes/format.py]              the merge stage;
    - [graph/gate.py]                      the routing gate;
    - [graph/nodes/mapping.py]             the mapping stage;
    - [graph/nodes/feedback.py]            the feedback stage;
    - [graph/nodes/report.py]              the report stage;
    - [graph/nodes/enhance_sectional.py]   the sequential orchestrator;
    - [graph/nodes/enhance_streaming.py]   the streaming orchestrator.

    Python objects that the code mutates in place (the entries of the
    experiences, educations and projects lists) live in a store and are
    handled through references, so that aliasing is visible.  Everything
    the code does to the outside world (model gateway calls, the clock,
    sleeping between retries) goes through one state-and-exception monad. *)

From Stdlib Require Import Ascii String.
From stdpp Require Import base tactics option list strings gmap pretty sorting.

Open Scope string_scope.
Open Scope list_scope.
Open Scope Z_scope.

(** ** Python values shared by all modules *)

(** A [str] is a Rocq string, one character per code point (code points
    below 256). *)

(** The exceptions the modelled code can raise. [str(e)] is the message. *)
Inductive exn : Type :=
  | ValueError (msg : string)
  | TypeError (msg : string)
  | IndexError (msg : string)
  | ValidationError (msg : string)
  | GatewayError (msg : string).

Definition exn_str (e : exn) : string :=
  match e with
  | ValueError m | TypeError m | IndexError m
  | ValidationError m | GatewayError m => m
  end.

Inductive outcome (A : Type) : Type :=
  | Returns (a : A)
  | Raises (e : exn).
Arguments Returns {A} a.
Arguments Raises {A} e.

Definition raised {A} (o : outcome A) : Prop :=
  match o with Raises _ => True | Returns _ => False end.

(** [datetime.datetime]: compared field by field by [==] and [!=]. *)
Record datetime : Type := mkDatetime {
  year : Z; month : Z; day : Z;
  hour : Z; minute : Z; second : Z; microsecond : Z
}.

#[global] Instance datetime_eq_dec : EqDecision datetime.
Proof. solve_decision. Defined.

(** References to objects in the store. *)
Definition loc : Type := nat.

(** ** schemas *)

Module PersonalInfo.
Record t : Type := mk {
  full_name : string;
  phone_number : string;
  email_address : string;
  linkedin : option string;
  personal_website : option string
}.
End PersonalInfo.

Module Experience.
Record t : Type := mk {
  role_title : string;
  company_name : string;
  start_date : datetime;
  end_date : option datetime;
  description : list string;
  is_volunteer : bool
}.
Definition set_role_title (v : string) (e : t) : t :=
  mk v (company_name e) (start_date e) (end_date e) (description e) (is_volunteer e).
Definition set_company_name (v : string) (e : t) : t :=
  mk (role_title e) v (start_date e) (end_date e) (description e) (is_volunteer e).
Definition set_start_date (v : datetime) (e : t) : t :=
  mk (role_title e) (company_name e) v (end_date e) (description e) (is_volunteer e).
Definition set_end_date (v : option datetime) (e : t) : t :=
  mk (role_title e) (company_name e) (start_date e) v (description e) (is_volunteer e).
#[global] Instance inhabited : Inhabited t :=
  populate (mk "" "" (mkDatetime 1 1 1 0 0 0 0) None [] false).
End Experience.

Module Education.
Record t : Type := mk {
  degree : string;
  major : string;
  university_name : string;
  city : string;
  country : string;
  start_date : datetime;
  end_date : option datetime
}.
Definition set_degree (v : string) (e : t) : t :=
  mk v (major e) (university_name e) (city e) (country e) (start_date e) (end_date e).
Definition set_university_name (v : string) (e : t) : t :=
  mk (degree e) (major e) v (city e) (country e) (start_date e) (end_date e).
Definition set_start_date (v : datetime) (e : t) : t :=
  mk (degree e) (major e) (university_name e) (city e) (country e) v (end_date e).
Definition set_end_date (v : option datetime) (e : t) : t :=
  mk (degree e) (major e) (university_name e) (city e) (country e) (start_date e) v.
#[global] Instance inhabited : Inhabited t :=
  populate (mk "" "" "" "" "" (mkDatetime 1 1 1 0 0 0 0) None).
End Education.

Module Project.
Record t : Type := mk {
  project_name : string;
  description : list string;
  project_link : option string
}.
Definition set_project_name (v : string) (p : t) : t :=
  mk v (description p) (project_link p).
Definition set_project_link (v : option string) (p : t) : t :=
  mk (project_name p) (description p) v.
#[global] Instance inhabited : Inhabited t := populate (mk "" [] None).
End Project.

Inductive SkillType : Type := SOFT | TECHNICAL.

Inductive LanguageProficiencyLevel : Type :=
  | A1 | A2 | B1 | B2 | C1 | C2 | NATIVE.

Module Skill.
Record t : Type := mk { skill_name : string; skill_type : SkillType }.
End Skill.

Module Certification.
Record t : Type := mk {
  certification_name : string;
  issuing_organization : string;
  issue_date : option datetime
}.
End Certification.

Module Language.
Record t : Type := mk {
  language : string;
  proficiency_level : LanguageProficiencyLevel
}.
End Language.

(** [Resume]: the three sections whose entries the validators assign to
    hold references; [experiences], [certifications] and [projects] are
    [Optional[List[...]]] in the schema. *)
Module Resume.
Record t : Type := mk {
  personal_info : PersonalInfo.t;
  summary : string;
  educations : list loc;
  experiences : option (list loc);
  skills : list Skill.t;
  certifications : option (list Certification.t);
  languages : list Language.t;
  projects : option (list loc)
}.
End Resume.

Module ChangeReason.
Record t : Type := mk { field_or_location : string; reason : string }.
End ChangeReason.

(** [XEnhancementOutput]: the same two fields for every section; only
    the type of [enhanced] differs. *)
Module Enh.
Record t (T : Type) : Type := mk {
  enhanced : T;
  reasons : list ChangeReason.t
}.
Arguments mk {T} _ _.
Arguments enhanced {T} _.
Arguments reasons {T} _.
End Enh.

Definition SummaryEnhancementOutput : Type := Enh.t string.
Definition ExperiencesEnhancementOutput : Type := Enh.t (list loc).
Definition EducationsEnhancementOutput : Type := Enh.t (list loc).
Definition SkillsEnhancementOutput : Type := Enh.t (list Skill.t).
Definition CertificationsEnhancementOutput : Type := Enh.t (list Certification.t).
Definition LanguagesEnhancementOutput : Type := Enh.t (list Language.t).
Definition ProjectsEnhancementOutput : Type := Enh.t (list loc).

Module FullEnhancementOutput.
Record t : Type := mk {
  summary : option SummaryEnhancementOutput;
  experiences : option ExperiencesEnhancementOutput;
  educations : option EducationsEnhancementOutput;
  skills : option SkillsEnhancementOutput;
  certifications : option CertificationsEnhancementOutput;
  languages : option LanguagesEnhancementOutput;
  projects : option ProjectsEnhancementOutput
}.
(** [FullEnhancementOutput()]: every field defaults to [None]. *)
Definition new : t := mk None None None None None None None.
End FullEnhancementOutput.

(** [MappingResult]: the list fields are tested against [None] by the
    mapping stage, so they are optional here; [match_score] is whatever
    integer the object carries. *)
Module MappingResult.
Record t : Type := mk {
  matched_skills : option (list string);
  matched_requirements : option (list string);
  gaps : option (list string);
  match_score : Z
}.
End MappingResult.

Module JobDescription.
Inductive seniority : Type := junior | mid | senior | lead.
Record t : Type := mk {
  job_title : string;
  company_name : option string;
  responsibilities : list string;
  requirements : list string;
  required_skills : list string;
  preferred_skills : list string;
  seniority_level : seniority;
  soft_skills : option (list string)
}.
End JobDescription.

(** ** The world: object store, clock, sleeps and gateway calls *)

Record World : Type := mkWorld {
  experience_objs : gmap loc Experience.t;
  education_objs : gmap loc Education.t;
  project_objs : gmap loc Project.t;
  now : nat → Z;            (* the n-th reading of the clock, in ms *)
  clock_reads : nat;        (* how many times [time.time()] was read *)
  slept : list Z;           (* arguments of [sleep], most recent first *)
  llm_calls : nat           (* gateway calls made so far *)
}.

Definition Py (A : Type) : Type := World → World * outcome A.

#[global] Instance Py_ret : MRet Py := λ A a w, (w, Returns a).
#[global] Instance Py_bind : MBind Py := λ A B f m w,
  match m w with
  | (w', Returns a) => f a w'
  | (w', Raises e) => (w', Raises e)
  end.

Definition raise {A} (e : exn) : Py A := λ w, (w, Raises e).

(** [try: body except Exception as e: handler(e)] *)
Definition try_except {A} (body : Py A) (handler : exn → Py A) : Py A :=
  λ w, match body w with
       | (w', Returns a) => (w', Returns a)
       | (w', Raises e) => handler e w'
       end.

(** [time.time()], in milliseconds. *)
Definition time_time : Py Z :=
  λ w, (mkWorld (experience_objs w) (education_objs w) (project_objs w)
                (now w) (S (clock_reads w)) (slept w) (llm_calls w),
        Returns (now w (clock_reads w))).

(** [time.sleep(d)] and [await asyncio.sleep(d)], [d] in seconds. *)
Definition sleep (d : Z) : Py unit :=
  λ w, (mkWorld (experience_objs w) (education_objs w) (project_objs w)
                (now w) (clock_reads w) (d :: slept w) (llm_calls w),
        Returns tt).

(** One more call to the model gateway. *)
Definition count_llm_call : Py unit :=
  λ w, (mkWorld (experience_objs w) (education_objs w) (project_objs w)
                (now w) (clock_reads w) (slept w) (S (llm_calls w)),
        Returns tt).

(** *** Store access *)

Definition read_experience (l : loc) : Py Experience.t :=
  λ w, (w, Returns (experience_objs w !!! l)).
Definition read_education (l : loc) : Py Education.t :=
  λ w, (w, Returns (education_objs w !!! l)).
Definition read_project (l : loc) : Py Project.t :=
  λ w, (w, Returns (project_objs w !!! l)).

(** Attribute assignment [obj.attr = v] on the object at [l]. *)
Definition assign_experience (l : loc) (f : Experience.t → Experience.t) : Py unit :=
  λ w, (mkWorld (<[l := f (experience_objs w !!! l)]> (experience_objs w))
                (education_objs w) (project_objs w)
                (now w) (clock_reads w) (slept w) (llm_calls w), Returns tt).
Definition assign_education (l : loc) (f : Education.t → Education.t) : Py unit :=
  λ w, (mkWorld (experience_objs w)
                (<[l := f (education_objs w !!! l)]> (education_objs w))
                (project_objs w)
                (now w) (clock_reads w) (slept w) (llm_calls w), Returns tt).
Definition assign_project (l : loc) (f : Project.t → Project.t) : Py unit :=
  λ w, (mkWorld (experience_objs w) (education_objs w)
                (<[l := f (project_objs w !!! l)]> (project_objs w))
                (now w) (clock_reads w) (slept w) (llm_calls w), Returns tt).

(** [len(x)] and [x[i]] where [x] is a list or [None]. *)
Definition py_len {A} (x : option (list A)) : Py nat :=
  match x with
  | Some xs => mret (length xs)
  | None => raise (TypeError "object of type 'NoneType' has no len()")
  end.

Definition py_getitem {A} (x : option (list A)) (i : nat) : Py A :=
  match x with
  | Some xs =>
      match xs !! i with
      | Some a => mret a
      | None => raise (IndexError "list index out of range")
      end
  | None => raise (TypeError "'NoneType' object is not subscriptable")
  end.

(** ** utils/validation.py *)

(** [s.startswith(("http://", "https://"))] *)
Definition is_url (s : string) : bool :=
  String.prefix "http://" s || String.prefix "https://" s.

(** Python truthiness of an [Optional[str]]. *)
Definition truthy (s : option string) : bool :=
  match s with
  | Some s => negb (String.eqb s "")
  | None => false
  end.

(** One block [if exp.f != original[i].f: exp.f = original[i].f]. *)
Definition revert_experience_field {V} `{EqDecision V}
    (get : Experience.t → V) (set : V → Experience.t → Experience.t)
    (exp : loc) (original : option (list loc)) (i : nat) : Py unit :=
  e ← read_experience exp;
  oi ← py_getitem original i;
  o ← read_experience oi;
  if decide (get e ≠ get o) then assign_experience exp (set (get o))
  else mret tt.

Definition revert_education_field {V} `{EqDecision V}
    (get : Education.t → V) (set : V → Education.t → Education.t)
    (edu : loc) (original : option (list loc)) (i : nat) : Py unit :=
  e ← read_education edu;
  oi ← py_getitem original i;
  o ← read_education oi;
  if decide (get e ≠ get o) then assign_education edu (set (get o))
  else mret tt.

(** The body of [for i, exp in enumerate(enhanced)], from index [i]. *)
Fixpoint validate_experiences_from (i : nat) (enhanced : list loc)
    (original : option (list loc)) : Py unit :=
  match enhanced with
  | [] => mret tt
  | exp :: rest =>
      n ← py_len original;
      if decide (n ≤ i)%nat then mret tt (* break *)
      else
        revert_experience_field Experience.start_date Experience.set_start_date exp original i;;
        revert_experience_field Experience.end_date Experience.set_end_date exp original i;;
        revert_experience_field Experience.company_name Experience.set_company_name exp original i;;
        revert_experience_field Experience.role_title Experience.set_role_title exp original i;;
        validate_experiences_from (S i) rest original
  end.

Definition validate_experiences (enhanced : list loc)
    (original : option (list loc)) : Py (list loc) :=
  validate_experiences_from 0 enhanced original;;
  mret enhanced.

Fixpoint validate_educations_from (i : nat) (enhanced : list loc)
    (original : option (list loc)) : Py unit :=
  match enhanced with
  | [] => mret tt
  | edu :: rest =>
      n ← py_len original;
      if decide (n ≤ i)%nat then mret tt (* break *)
      else
        revert_education_field Education.start_date Education.set_start_date edu original i;;
        revert_education_field Education.end_date Education.set_end_date edu original i;;
        revert_education_field Education.university_name Education.set_university_name edu original i;;
        revert_education_field Education.degree Education.set_degree edu original i;;
        validate_educations_from (S i) rest original
  end.

Definition validate_educations (enhanced : list loc)
    (original : option (list loc)) : Py (list loc) :=
  validate_educations_from 0 enhanced original;;
  mret enhanced.

Fixpoint validate_projects_from (i : nat) (enhanced : list loc)
    (original : option (list loc)) : Py unit :=
  match enhanced with
  | [] => mret tt
  | proj :: rest =>
      n ← py_len original;
      if decide (n ≤ i)%nat then mret tt (* break *)
      else
        p ← read_project proj;
        (if is_url (Project.project_name p) then
           oi ← py_getitem original i;
           o ← read_project oi;
           assign_project proj (Project.set_project_name (Project.project_name o))
         else mret tt);;
        p ← read_project proj;
        (if truthy (Project.project_link p)
            && negb (is_url (default "" (Project.project_link p))) then
           oi ← py_getitem original i;
           o ← read_project oi;
           assign_project proj (Project.set_project_link (Project.project_link o))
         else mret tt);;
        validate_projects_from (S i) rest original
  end.

Definition validate_projects (enhanced : list loc)
    (original : option (list loc)) : Py (list loc) :=
  validate_projects_from 0 enhanced original;;
  mret enhanced.

(** ** graph/nodes/format.py *)

Definition _build_enhanced_resume (resume : Resume.t)
    (full_output : FullEnhancementOutput.t) : Py Resume.t :=
  let summary :=
    match FullEnhancementOutput.summary full_output with
    | Some s => Enh.enhanced s
    | None => Resume.summary resume
    end in
  experiences ←
    match FullEnhancementOutput.experiences full_output with
    | Some e =>
        v ← validate_experiences (Enh.enhanced e) (Resume.experiences resume);
        mret (Some v)
    | None => mret (Resume.experiences resume)
    end;
  educations ←
    match FullEnhancementOutput.educations full_output with
    | Some e => validate_educations (Enh.enhanced e) (Some (Resume.educations resume))
    | None => mret (Resume.educations resume)
    end;
  let skills :=
    match FullEnhancementOutput.skills full_output with
    | Some s => Enh.enhanced s
    | None => Resume.skills resume
    end in
  let certifications :=
    match FullEnhancementOutput.certifications full_output with
    | Some c => Some (Enh.enhanced c)
    | None => Resume.certifications resume
    end in
  let languages :=
    match FullEnhancementOutput.languages full_output with
    | Some l => Enh.enhanced l
    | None => Resume.languages resume
    end in
  projects ←
    match FullEnhancementOutput.projects full_output with
    | Some p =>
        v ← validate_projects (Enh.enhanced p) (Resume.projects resume);
        mret (Some v)
    | None => mret (Resume.projects resume)
    end;
  mret (Resume.mk (Resume.personal_info resume) summary educations
                  experiences skills certifications languages projects).

(** ** The model gateway *)

(** The classes a structured call can be asked for. *)
Inductive OutputClass : Type :=
  | MappingResultCls
  | FullEnhancementOutputCls
  | SummaryEnhancementOutputCls
  | ExperiencesEnhancementOutputCls
  | EducationsEnhancementOutputCls
  | SkillsEnhancementOutputCls
  | CertificationsEnhancementOutputCls
  | LanguagesEnhancementOutputCls
  | ProjectsEnhancementOutputCls.

#[global] Instance OutputClass_eq_dec : EqDecision OutputClass.
Proof. solve_decision. Defined.

Definition class_name (c : OutputClass) : string :=
  match c with
  | MappingResultCls => "MappingResult"
  | FullEnhancementOutputCls => "FullEnhancementOutput"
  | SummaryEnhancementOutputCls => "SummaryEnhancementOutput"
  | ExperiencesEnhancementOutputCls => "ExperiencesEnhancementOutput"
  | EducationsEnhancementOutputCls => "EducationsEnhancementOutput"
  | SkillsEnhancementOutputCls => "SkillsEnhancementOutput"
  | CertificationsEnhancementOutputCls => "CertificationsEnhancementOutput"
  | LanguagesEnhancementOutputCls => "LanguagesEnhancementOutput"
  | ProjectsEnhancementOutputCls => "ProjectsEnhancementOutput"
  end.

(** What a structured call can hand back: an instance of one of the
    schema classes, or something else ([None], a plain [dict]). *)
Inductive PyObj : Type :=
  | PyNone
  | PyDict
  | PyMappingResult (m : MappingResult.t)
  | PyFullEnhancementOutput (f : FullEnhancementOutput.t)
  | PySummaryOut (o : SummaryEnhancementOutput)
  | PyExperiencesOut (o : ExperiencesEnhancementOutput)
  | PyEducationsOut (o : EducationsEnhancementOutput)
  | PySkillsOut (o : SkillsEnhancementOutput)
  | PyCertificationsOut (o : CertificationsEnhancementOutput)
  | PyLanguagesOut (o : LanguagesEnhancementOutput)
  | PyProjectsOut (o : ProjectsEnhancementOutput).

(** [type(obj)], when it is one of the schema classes. *)
Definition class_of (obj : PyObj) : option OutputClass :=
  match obj with
  | PyNone | PyDict => None
  | PyMappingResult _ => Some MappingResultCls
  | PyFullEnhancementOutput _ => Some FullEnhancementOutputCls
  | PySummaryOut _ => Some SummaryEnhancementOutputCls
  | PyExperiencesOut _ => Some ExperiencesEnhancementOutputCls
  | PyEducationsOut _ => Some EducationsEnhancementOutputCls
  | PySkillsOut _ => Some SkillsEnhancementOutputCls
  | PyCertificationsOut _ => Some CertificationsEnhancementOutputCls
  | PyLanguagesOut _ => Some LanguagesEnhancementOutputCls
  | PyProjectsOut _ => Some ProjectsEnhancementOutputCls
  end.

(** [type(obj).__name__] *)
Definition type_name (obj : PyObj) : string :=
  match obj with
  | PyNone => "NoneType"
  | PyDict => "dict"
  | _ => from_option class_name "object" (class_of obj)
  end.

Definition isinstance (obj : PyObj) (c : OutputClass) : bool :=
  bool_decide (class_of obj = Some c).

(** The [content] attribute of a chat message, read with
    [getattr(result, "content", None)]. *)
Inductive Content : Type :=
  | StrContent (s : string)
  | ListContent (parts : list string)
  | NoContent.

(** One item of a token stream.  A chunk whose [content] is not text
    makes [accumulated_text += chunk_text] raise inside the attempt; such
    a stream is represented as one that fails at that point. *)
Inductive Chunk : Type :=
  | ChunkMessage (content : option string)       (* has a [content] attribute *)
  | ChunkStr (s : string)
  | ChunkDict (content text : option string)
  | ChunkOther.

(** A token stream is finite and ends normally or by raising. *)
Record Stream : Type := mkStream {
  chunks : list Chunk;
  failure : option exn
}.

(** The gateway is given by its replies.  Calls that a stage repeats with
    the same prompt are told apart by the attempt number, so the reply to
    a structured or streamed call is a function of what is asked for and
    of the attempt; a stage that calls once reads attempt 0. *)
Record LLM : Type := mkLLM {
  with_structured_output : OutputClass → nat → outcome PyObj;
  ainvoke : nat → outcome Content;
  astream : string → nat → Stream
}.

Definition invoke_structured (llm : LLM) (c : OutputClass) (attempt : nat) : Py PyObj :=
  count_llm_call;;
  match with_structured_output llm c attempt with
  | Returns obj => mret obj
  | Raises e => raise e
  end.

Definition invoke_text (llm : LLM) (attempt : nat) : Py Content :=
  count_llm_call;;
  match ainvoke llm attempt with
  | Returns c => mret c
  | Raises e => raise e
  end.

(** ** graph/state.py *)

(** The fields the modelled stages read or write.  The remaining
    diagnostic fields of the class ([progress_events], [token_usage],
    [sectional_metadata]) are written by the enhancement nodes and read
    by no stage. *)

Module ResumeEnhancerState.
Record t : Type := mk {
  resume : option Resume.t;
  job_description : option JobDescription.t;
  mapping_result : option MappingResult.t;
  full_enhancement_output : option FullEnhancementOutput.t;
  enhanced_resume : option Resume.t;
  report_summary : option string;
  feedback_message : option string;
  mode : option string;
  section_timings : gmap string Z;
  section_errors : gmap string string
}.
End ResumeEnhancerState.

(** A state dict with a key missing and a state object whose field is
    [None] are the same record here, so normalising changes nothing. *)
Definition normalize_state (state : ResumeEnhancerState.t) : ResumeEnhancerState.t :=
  state.

(** ** core/config.py *)

(** Of the settings only the score threshold concerns the workflow. *)

Record Settings : Type := mkSettings { SCORE_THRESHOLD : Z }.

(** ** graph/gate.py *)

Definition route_after_mapping (settings : Settings)
    (state : ResumeEnhancerState.t) : Py string :=
  let state := normalize_state state in
  match ResumeEnhancerState.mapping_result state with
  | None => raise (ValueError "route_after_mapping requires state.mapping_result")
  | Some mapping_result =>
      let score := MappingResult.match_score mapping_result in
      let threshold := SCORE_THRESHOLD settings in
      if decide (score < threshold) then mret "feedback"
      else mret "enhance"
  end.

(** ** graph/nodes/mapping.py *)

(** The [MappingResult(...)] constructor checks [ge=1, le=10]. *)
Definition MappingResult_new (matched_skills matched_requirements gaps : list string)
    (match_score : Z) : Py MappingResult.t :=
  if decide (1 ≤ match_score ∧ match_score ≤ 10) then
    mret (MappingResult.mk (Some matched_skills) (Some matched_requirements)
                           (Some gaps) match_score)
  else raise (ValidationError "match_score: input should be between 1 and 10").

Definition _validate_and_normalize_mapping_result (result : MappingResult.t)
    : Py MappingResult.t :=
  if negb (bool_decide (1 ≤ MappingResult.match_score result
                        ∧ MappingResult.match_score result ≤ 10)) then
    raise (ValueError ("mapping_node: match_score must be between 1 and 10, got "
                       +:+ pretty (MappingResult.match_score result)))
  else
    let matched_skills := default [] (MappingResult.matched_skills result) in
    let matched_requirements := default [] (MappingResult.matched_requirements result) in
    let gaps := default [] (MappingResult.gaps result) in
    MappingResult_new matched_skills matched_requirements gaps
                      (MappingResult.match_score result).

Definition _get_resume_and_jd (state : ResumeEnhancerState.t)
    : Py (Resume.t * JobDescription.t) :=
  match ResumeEnhancerState.resume state with
  | None => raise (ValueError "mapping_node requires state.resume")
  | Some resume =>
      match ResumeEnhancerState.job_description state with
      | None => raise (ValueError "mapping_node requires state.job_description")
      | Some job_description => mret (resume, job_description)
      end
  end.

Definition mapping_node (state : ResumeEnhancerState.t) (llm : option LLM)
    : Py MappingResult.t :=
  let state := normalize_state state in
  _ ← _get_resume_and_jd state;
  match llm with
  | None => raise (ValueError "mapping_node requires a non-None llm instance")
  | Some llm =>
      result ← try_except (invoke_structured llm MappingResultCls 0) raise;
      match result with
      | PyMappingResult result => _validate_and_normalize_mapping_result result
      | _ => raise (ValueError "mapping_node: LLM must return MappingResult")
      end
  end.

(** ** graph/nodes/feedback.py *)

(** [str.isspace] on one character. *)
Definition py_isspace (c : ascii) : bool :=
  let n := N_of_ascii c in
  ((9 <=? n) && (n <=? 13) || (28 <=? n) && (n <=? 32)
   || (n =? 133) || (n =? 160))%N.

Fixpoint lstrip (s : string) : string :=
  match s with
  | EmptyString => EmptyString
  | String c rest => if py_isspace c then lstrip rest else s
  end.

Fixpoint rstrip (s : string) : string :=
  match s with
  | EmptyString => EmptyString
  | String c rest =>
      match rstrip rest with
      | EmptyString => if py_isspace c then EmptyString else String c EmptyString
      | rest' => String c rest'
      end
  end.

(** [s.strip()] *)
Definition strip (s : string) : string := rstrip (lstrip s).

(** Empty, or made of whitespace characters only. *)
Fixpoint whitespace_only (s : string) : bool :=
  match s with
  | EmptyString => true
  | String c rest => py_isspace c && whitespace_only rest
  end.

Definition _get_mapping_result (state : ResumeEnhancerState.t) : Py MappingResult.t :=
  match ResumeEnhancerState.mapping_result state with
  | None => raise (ValueError "feedback_node requires state.mapping_result")
  | Some mapping_result => mret mapping_result
  end.

Definition feedback_node (settings : Settings) (state : ResumeEnhancerState.t)
    (llm : option LLM) : Py string :=
  let state := normalize_state state in
  try_except
    (mapping_result ← _get_mapping_result state;
     match llm with
     | None => raise (ValueError "feedback_node requires a non-None llm instance")
     | Some llm =>
         result ← invoke_text llm 0;
         match result with
         | StrContent message_text =>
             if String.eqb (strip message_text) "" then
               raise (ValueError "feedback_node: LLM must return non-empty text content")
             else mret message_text
         | _ => raise (ValueError "feedback_node: LLM must return non-empty text content")
         end
     end)
    raise.

(** ** graph/nodes/report.py *)

Definition _get_full_output (state : ResumeEnhancerState.t) : Py FullEnhancementOutput.t :=
  match ResumeEnhancerState.full_enhancement_output state with
  | None => raise (ValueError "report_node requires state.full_enhancement_output")
  | Some full_output => mret full_output
  end.

Definition _collect_reasons (full_output : FullEnhancementOutput.t) : list ChangeReason.t :=
  from_option Enh.reasons [] (FullEnhancementOutput.summary full_output)
  ++ from_option Enh.reasons [] (FullEnhancementOutput.experiences full_output)
  ++ from_option Enh.reasons [] (FullEnhancementOutput.educations full_output)
  ++ from_option Enh.reasons [] (FullEnhancementOutput.skills full_output)
  ++ from_option Enh.reasons [] (FullEnhancementOutput.certifications full_output)
  ++ from_option Enh.reasons [] (FullEnhancementOutput.languages full_output)
  ++ from_option Enh.reasons [] (FullEnhancementOutput.projects full_output).

(** Python truthiness of a list. *)
Definition nonempty {A} (l : list A) : bool :=
  match l with [] => false | _ => true end.

Definition report_node (state : ResumeEnhancerState.t) (llm : option LLM)
    : Py (option string) :=
  let state := normalize_state state in
  reasons ← try_except
              (full_output ← _get_full_output state;
               mret (_collect_reasons full_output))
              raise;
  let report_summary : option string := None in
  match llm with
  | Some llm =>
      if nonempty reasons then
        try_except
          (result ← invoke_text llm 0;
           match result with
           | StrContent message_text =>
               if negb (String.eqb (strip message_text) "") then
                 mret (Some (strip message_text))
               else mret report_summary
           | _ => mret report_summary
           end)
          (λ e, mret report_summary)
      else mret report_summary
  | None => mret report_summary
  end.

(** [graph/nodes/format.py], the node around the merge. *)

Definition _get_format_inputs (state : ResumeEnhancerState.t)
    : Py (Resume.t * FullEnhancementOutput.t) :=
  match ResumeEnhancerState.resume state with
  | None => raise (ValueError "format_node requires state.resume")
  | Some resume =>
      match ResumeEnhancerState.full_enhancement_output state with
      | None => raise (ValueError "format_node requires state.full_enhancement_output")
      | Some full_output => mret (resume, full_output)
      end
  end.

Definition format_node (state : ResumeEnhancerState.t) : Py Resume.t :=
  let state := normalize_state state in
  try_except
    ('(resume, full_output) ← _get_format_inputs state;
     _build_enhanced_resume resume full_output)
    raise.

(** ** graph/nodes/enhance_sectional.py *)

Definition SECTIONAL_SECTIONS : list (string * OutputClass) :=
  [ ("summary", SummaryEnhancementOutputCls);
    ("experiences", ExperiencesEnhancementOutputCls);
    ("educations", EducationsEnhancementOutputCls);
    ("skills", SkillsEnhancementOutputCls);
    ("certifications", CertificationsEnhancementOutputCls);
    ("languages", LanguagesEnhancementOutputCls);
    ("projects", ProjectsEnhancementOutputCls) ].

Definition SECTIONAL_MAX_RETRIES : nat := 2.
Definition SECTIONAL_RETRY_DELAYS : list Z := [1; 3].

(** [setattr(full_output, section_name, result)].  The callers store a
    result only after [isinstance(result, output_class)] held for the
    class listed with [section_name]; for any other pair of arguments
    the record is left as it is. *)
Definition setattr_section (full_output : FullEnhancementOutput.t)
    (section_name : string) (result : PyObj) : FullEnhancementOutput.t :=
  let '(FullEnhancementOutput.mk su ex ed sk ce la pr) := full_output in
  if decide (section_name = "summary") then
    match result with
    | PySummaryOut o => FullEnhancementOutput.mk (Some o) ex ed sk ce la pr
    | _ => full_output
    end
  else if decide (section_name = "experiences") then
    match result with
    | PyExperiencesOut o => FullEnhancementOutput.mk su (Some o) ed sk ce la pr
    | _ => full_output
    end
  else if decide (section_name = "educations") then
    match result with
    | PyEducationsOut o => FullEnhancementOutput.mk su ex (Some o) sk ce la pr
    | _ => full_output
    end
  else if decide (section_name = "skills") then
    match result with
    | PySkillsOut o => FullEnhancementOutput.mk su ex ed (Some o) ce la pr
    | _ => full_output
    end
  else if decide (section_name = "certifications") then
    match result with
    | PyCertificationsOut o => FullEnhancementOutput.mk su ex ed sk (Some o) la pr
    | _ => full_output
    end
  else if decide (section_name = "languages") then
    match result with
    | PyLanguagesOut o => FullEnhancementOutput.mk su ex ed sk ce (Some o) pr
    | _ => full_output
    end
  else if decide (section_name = "projects") then
    match result with
    | PyProjectsOut o => FullEnhancementOutput.mk su ex ed sk ce la (Some o)
    | _ => full_output
    end
  else full_output.

(** [getattr(full_output, section_name)], as an object. *)
Definition getattr_section (full_output : FullEnhancementOutput.t)
    (section_name : string) : option PyObj :=
  if decide (section_name = "summary") then
    PySummaryOut <$> FullEnhancementOutput.summary full_output
  else if decide (section_name = "experiences") then
    PyExperiencesOut <$> FullEnhancementOutput.experiences full_output
  else if decide (section_name = "educations") then
    PyEducationsOut <$> FullEnhancementOutput.educations full_output
  else if decide (section_name = "skills") then
    PySkillsOut <$> FullEnhancementOutput.skills full_output
  else if decide (section_name = "certifications") then
    PyCertificationsOut <$> FullEnhancementOutput.certifications full_output
  else if decide (section_name = "languages") then
    PyLanguagesOut <$> FullEnhancementOutput.languages full_output
  else if decide (section_name = "projects") then
    PyProjectsOut <$> FullEnhancementOutput.projects full_output
  else None.

Definition _extract_inputs_sectional (state : ResumeEnhancerState.t)
    : Py (Resume.t * MappingResult.t) :=
  match ResumeEnhancerState.resume state with
  | None => raise (ValueError "enhance_sectional_node requires state.resume")
  | Some resume =>
      match ResumeEnhancerState.mapping_result state with
      | None => raise (ValueError "enhance_sectional_node requires state.mapping_result")
      | Some mapping_result => mret (resume, mapping_result)
      end
  end.

(** The retry loop [for attempt in range(SECTIONAL_MAX_RETRIES)], over
    the attempts still to make. *)
Fixpoint _enhance_single_section_from (attempts : list nat)
    (last_error : option string) (section_name : string)
    (output_class : OutputClass) (llm : LLM)
    : Py (option PyObj * option string) :=
  match attempts with
  | [] => mret (None, last_error)   (* all retries exhausted *)
  | attempt :: rest =>
      r ← try_except
            (result ← invoke_structured llm output_class attempt;
             if negb (isinstance result output_class) then
               raise (ValueError ("LLM returned " +:+ type_name result
                                  +:+ " instead of " +:+ class_name output_class))
             else mret (inl result))
            (λ e,
               let last_error := exn_str e in
               (if decide (attempt < SECTIONAL_MAX_RETRIES - 1)%nat then
                  d ← py_getitem (Some SECTIONAL_RETRY_DELAYS) attempt;
                  sleep d
                else mret tt);;
               mret (inr last_error));
      match r with
      | inl result => mret (Some result, None)
      | inr last_error =>
          _enhance_single_section_from rest (Some last_error)
                                       section_name output_class llm
      end
  end.

Definition _enhance_single_section (section_name : string)
    (output_class : OutputClass) (llm : LLM)
    : Py (option PyObj * option string) :=
  _enhance_single_section_from (seq 0 SECTIONAL_MAX_RETRIES) None
                               section_name output_class llm.

(** [x or d] for an optional string. *)
Definition or_default (x : option string) (d : string) : string :=
  match x with
  | Some s => if String.eqb s "" then d else s
  | None => d
  end.

Record SectionalMetadata : Type := mkSectionalMetadata {
  meta_mode : string;
  total_sections : nat;
  sections_succeeded : nat;
  sections_failed : nat;
  succeeded_list : list string;
  failed_list : list string;
  total_time_ms : Z
}.

(** The dict returned by [enhance_sectional_node]. *)
Record SectionalResult : Type := mkSectionalResult {
  full_enhancement_output : FullEnhancementOutput.t;
  section_errors : gmap string string;
  section_timings : gmap string Z;
  sectional_metadata : SectionalMetadata
}.

(** The accumulators of the section loop. *)
Record SectionalAcc : Type := mkSectionalAcc {
  acc_full_output : FullEnhancementOutput.t;
  acc_section_errors : gmap string string;
  acc_section_timings : gmap string Z;
  acc_sections_succeeded : list string;
  acc_sections_failed : list string
}.

(** [for section_index, (section_name, output_class) in enumerate(...)] *)
Fixpoint sectional_loop (sections : list (string * OutputClass)) (llm : LLM)
    (acc : SectionalAcc) : Py SectionalAcc :=
  match sections with
  | [] => mret acc
  | (section_name, output_class) :: rest =>
      section_start ← time_time;
      '(result, error) ← _enhance_single_section section_name output_class llm;
      t ← time_time;
      let section_elapsed := t - section_start in
      let section_timings := <[section_name := section_elapsed]> (acc_section_timings acc) in
      match result with
      | Some result =>
          sectional_loop rest llm
            (mkSectionalAcc
               (setattr_section (acc_full_output acc) section_name result)
               (acc_section_errors acc)
               section_timings
               (acc_sections_succeeded acc ++ [section_name])
               (acc_sections_failed acc))
      | None =>
          sectional_loop rest llm
            (mkSectionalAcc
               (acc_full_output acc)
               (<[section_name := or_default error "Unknown error"]> (acc_section_errors acc))
               section_timings
               (acc_sections_succeeded acc)
               (acc_sections_failed acc ++ [section_name]))
      end
  end.

Definition enhance_sectional_node (state : ResumeEnhancerState.t)
    (llm : option LLM) : Py SectionalResult :=
  start_time ← time_time;
  _ ← try_except (_extract_inputs_sectional state) raise;
  match llm with
  | None => raise (ValueError "enhance_sectional_node requires a non-None llm instance")
  | Some llm =>
      let total_sections := length SECTIONAL_SECTIONS in
      acc ← sectional_loop SECTIONAL_SECTIONS llm
              (mkSectionalAcc FullEnhancementOutput.new ∅ ∅ [] []);
      t ← time_time;
      let total_elapsed := t - start_time in
      mret (mkSectionalResult
              (acc_full_output acc)
              (acc_section_errors acc)
              (acc_section_timings acc)
              (mkSectionalMetadata "sectional" total_sections
                 (length (acc_sections_succeeded acc))
                 (length (acc_sections_failed acc))
                 (acc_sections_succeeded acc)
                 (acc_sections_failed acc)
                 total_elapsed))
  end.

(** LangGraph merges the dict a node returns into the state. *)
Definition merge_sectional_result (state : ResumeEnhancerState.t)
    (out : SectionalResult) : ResumeEnhancerState.t :=
  ResumeEnhancerState.mk
    (ResumeEnhancerState.resume state)
    (ResumeEnhancerState.job_description state)
    (ResumeEnhancerState.mapping_result state)
    (Some (full_enhancement_output out))
    (ResumeEnhancerState.enhanced_resume state)
    (ResumeEnhancerState.report_summary state)
    (ResumeEnhancerState.feedback_message state)
    (ResumeEnhancerState.mode state)
    (section_timings out)
    (section_errors out).

(** ** graph/nodes/enhance_streaming.py *)

Definition STREAMING_SECTIONS : list (string * OutputClass) :=
  [ ("summary", SummaryEnhancementOutputCls);
    ("experiences", ExperiencesEnhancementOutputCls);
    ("educations", EducationsEnhancementOutputCls);
    ("skills", SkillsEnhancementOutputCls);
    ("certifications", CertificationsEnhancementOutputCls);
    ("languages", LanguagesEnhancementOutputCls);
    ("projects", ProjectsEnhancementOutputCls) ].

Definition DELTA_INTERVAL_MS : Z := 250.
Definition MIN_CHUNK_SIZE : Z := 10.
Definition MAX_RETRIES : nat := 2.
Definition RETRY_DELAY : Z := 1.

(** A streaming event dict.  The keys [timestamp] and
    [progress_percent], which only carry wall-clock text and a rounded
    floating-point ratio, are not represented. *)
Record Event : Type := mkEvent {
  event_type : string;
  elapsed_ms : Z;
  section : option string;
  section_index : option nat;
  status : option string;
  delta_text : option string;
  accumulated_text : option string;
  partial_payload : option (string * PyObj);   (* a one-key dict *)
  error_message : option string
}.

(** What [stream_all_sections] yields: events, then one internal dict. *)
Inductive Yielded : Type :=
  | YEvent (e : Event)
  | YInternalResults (full_output : FullEnhancementOutput.t)
                     (section_timings : gmap string Z).

Definition _create_streaming_event (event_type : string)
    (section : option string) (section_index : option nat)
    (status : option string) (delta_text accumulated_text : option string)
    (partial_payload : option (string * PyObj)) (elapsed_ms : Z)
    (error_message : option string) : Event :=
  mkEvent event_type elapsed_ms section section_index status
          delta_text accumulated_text partial_payload error_message.

(** [s[n:]], [s[:n]] and [s.endswith(suffix)] *)
Fixpoint string_drop (n : nat) (s : string) : string :=
  match n, s with
  | O, _ => s
  | S n', String _ rest => string_drop n' rest
  | S _, EmptyString => EmptyString
  end.

Fixpoint string_take (n : nat) (s : string) : string :=
  match n, s with
  | O, _ => EmptyString
  | S n', String c rest => String c (string_take n' rest)
  | S _, EmptyString => EmptyString
  end.

Definition endswith (s suffix : string) : bool :=
  (String.length suffix <=? String.length s)%nat
  && String.eqb (string_drop (String.length s - String.length suffix) s) suffix.

(** The text a chunk contributes. *)
Definition chunk_text_of (chunk : Chunk) : string :=
  match chunk with
  | ChunkMessage content => default "" content
  | ChunkStr s => s
  | ChunkDict content text =>
      if truthy content then default "" content else default "" text
  | ChunkOther => ""
  end.

Section Streaming.

(** [json.loads(text)] followed by [output_class( **data )]: an instance
    of the class, or nothing when either step raises. *)
Variable json_loads_as : OutputClass → string → option PyObj.

(** [output_class( **result.model_dump(mode="json") )], used when the
    result is read back from a [section_complete] event. *)
Variable reconstruct : OutputClass → PyObj → option PyObj.

Definition _parse_section_json (raw_text : string) (section_name : string)
    (output_class : OutputClass) : option PyObj :=
  let text := strip raw_text in
  let text := if String.prefix "```json" text then string_drop 7 text else text in
  let text := if String.prefix "```" text then string_drop 3 text else text in
  let text := if endswith text "```"
              then string_take (String.length text - 3) text else text in
  let text := strip text in
  json_loads_as output_class text.

(** [async for chunk in llm.astream(messages)], over the chunks still
    to come; returns the accumulated text and the deltas yielded. *)
Fixpoint consume_chunks (cs : list Chunk) (section_name : string)
    (section_index : nat) (start_time : Z) (accumulated_text : string)
    (last_delta_time : Z) (last_sent_length : nat)
    : Py (string * list Event) :=
  match cs with
  | [] => mret (accumulated_text, [])
  | chunk :: rest =>
      let chunk_text := chunk_text_of chunk in
      let accumulated_text :=
        if negb (String.eqb chunk_text "") then accumulated_text +:+ chunk_text
        else accumulated_text in
      now ← time_time;
      let time_since_last := now - last_delta_time in
      let new_chars := Z.of_nat (String.length accumulated_text)
                       - Z.of_nat last_sent_length in
      if decide (DELTA_INTERVAL_MS ≤ time_since_last ∧ MIN_CHUNK_SIZE ≤ new_chars) then
        let delta_text := string_drop last_sent_length accumulated_text in
        let elapsed_ms := now - start_time in
        let ev := _create_streaming_event "section_delta" (Some section_name)
                    (Some section_index) (Some "streaming") (Some delta_text)
                    (Some accumulated_text) None elapsed_ms None in
        '(text, evs) ← consume_chunks rest section_name section_index start_time
                         accumulated_text now (String.length accumulated_text);
        mret (text, ev :: evs)
      else
        consume_chunks rest section_name section_index start_time
                       accumulated_text last_delta_time last_sent_length
  end.

(** [for attempt in range(MAX_RETRIES)], over the attempts still to
    make; returns the deltas yielded, the result and the last error. *)
Fixpoint stream_attempts (attempts : list nat) (last_error : option string)
    (section_name : string) (section_index : nat) (output_class : OutputClass)
    (llm : LLM) (start_time : Z)
    : Py (list Event * option PyObj * option string) :=
  match attempts with
  | [] => mret ([], None, last_error)
  | attempt :: rest =>
      last_delta_time ← time_time;
      count_llm_call;;
      let stream := astream llm section_name attempt in
      '(accumulated_text, deltas) ←
        consume_chunks (chunks stream) section_name section_index start_time
                       "" last_delta_time 0;
      match failure stream
            return Py (list Event * option PyObj * option string) with
      | Some e =>
          (* except Exception as e *)
          let last_error := exn_str e in
          (if decide (attempt < MAX_RETRIES - 1)%nat then sleep RETRY_DELAY
           else mret tt);;
          '(evs, result, last_error) ←
            stream_attempts rest (Some last_error) section_name section_index
                            output_class llm start_time;
          mret (deltas ++ evs, result, last_error)
      | None =>
          match _parse_section_json accumulated_text section_name output_class
                return Py (list Event * option PyObj * option string) with
          | Some result => mret (deltas, Some result, last_error)   (* break *)
          | None =>
              let last_error :=
                "Failed to parse LLM response as valid JSON for " +:+ section_name in
              (if decide (attempt < MAX_RETRIES - 1)%nat then sleep RETRY_DELAY
               else mret tt);;
              '(evs, result, last_error) ←
                stream_attempts rest (Some last_error) section_name section_index
                                output_class llm start_time;
              mret (deltas ++ evs, result, last_error)
          end
      end
  end.

(** The events one section yields, in order. *)
Definition stream_section_enhancement (section_name : string)
    (section_index : nat) (output_class : OutputClass) (llm : LLM)
    (start_time : Z) (total_sections : nat) : Py (list Event) :=
  section_start_time ← time_time;
  let elapsed_so_far := section_start_time - start_time in
  let start_event :=
    _create_streaming_event "section_start" (Some section_name)
      (Some section_index) (Some "streaming") None None None elapsed_so_far None in
  _ ← time_time;   (* last_delta_time, set again by every attempt *)
  '(deltas, result, last_error) ←
    stream_attempts (seq 0 MAX_RETRIES) None section_name section_index
                    output_class llm start_time;
  _ ← time_time;   (* section_elapsed *)
  t ← time_time;
  let total_elapsed := t - start_time in
  let final_event :=
    match result with
    | Some result =>
        _create_streaming_event "section_complete" (Some section_name)
          (Some section_index) (Some "complete") None None
          (Some (section_name, result)) total_elapsed None
    | None =>
        _create_streaming_event "error" (Some section_name)
          (Some section_index) (Some "error") None None None total_elapsed
          (Some (or_default last_error "Unknown error"))
    end in
  mret (start_event :: deltas ++ [final_event]).

(** The result [stream_all_sections] captures while passing the events
    of one section on. *)
Fixpoint capture_section_result (events : list Event) (section_name : string)
    (output_class : OutputClass) (section_result : option PyObj) : option PyObj :=
  match events with
  | [] => section_result
  | event :: rest =>
      let section_result :=
        if String.eqb (event_type event) "section_complete" then
          match partial_payload event with
          | Some (key, dumped) =>
              if String.eqb key section_name then
                match reconstruct output_class dumped with
                | Some obj => Some obj
                | None => section_result   (* the constructor raised *)
                end
              else section_result
          | None => section_result
          end
        else section_result in
      capture_section_result rest section_name output_class section_result
  end.

(** [for section_index, (section_name, output_class) in enumerate(...)],
    from index [section_index]. *)
Fixpoint stream_sections_from (section_index : nat)
    (sections : list (string * OutputClass)) (llm : LLM) (start_time : Z)
    (total_sections : nat) (full_output : FullEnhancementOutput.t)
    (section_timings : gmap string Z)
    : Py (list Event * FullEnhancementOutput.t * gmap string Z) :=
  match sections with
  | [] => mret ([], full_output, section_timings)
  | (section_name, output_class) :: rest =>
      section_start ← time_time;
      events ← stream_section_enhancement section_name section_index
                 output_class llm start_time total_sections;
      let section_result :=
        capture_section_result events section_name output_class None in
      '(full_output, section_timings) ←
        match section_result with
        | Some section_result =>
            t ← time_time;
            mret (setattr_section full_output section_name section_result,
                  <[section_name := t - section_start]> section_timings)
        | None => mret (full_output, section_timings)
        end;
      '(later, full_output, section_timings) ←
        stream_sections_from (S section_index) rest llm start_time
                             total_sections full_output section_timings;
      mret (events ++ later, full_output, section_timings)
  end.

Definition stream_all_sections (resume : Resume.t)
    (mapping_result : MappingResult.t) (llm : LLM) : Py (list Yielded) :=
  start_time ← time_time;
  let total_sections := length STREAMING_SECTIONS in
  '(events, full_output, section_timings) ←
    stream_sections_from 0 STREAMING_SECTIONS llm start_time total_sections
                         FullEnhancementOutput.new ∅;
  _ ← time_time;   (* total_elapsed *)
  mret ((YEvent <$> events) ++ [YInternalResults full_output section_timings]).

End Streaming.

(** ** Vocabulary of the statements *)

(** The seven section names, in processing order. *)
Definition SECTION_NAMES : list string :=
  ["summary"; "experiences"; "educations"; "skills"; "certifications";
   "languages"; "projects"].

(** What the model hands back is unusable as feedback: not a string, or
    a string that is empty or whitespace only. *)
Definition degenerate (c : Content) : Prop :=
  match c with
  | StrContent s => whitespace_only s = true
  | ListContent _ | NoContent => True
  end.

(** The protected fields of an experience and of an education agree. *)
Definition same_protected_experience (e o : Experience.t) : Prop :=
  Experience.start_date e = Experience.start_date o
  ∧ Experience.end_date e = Experience.end_date o
  ∧ Experience.company_name e = Experience.company_name o
  ∧ Experience.role_title e = Experience.role_title o.

Definition same_protected_education (e o : Education.t) : Prop :=
  Education.start_date e = Education.start_date o
  ∧ Education.end_date e = Education.end_date o
  ∧ Education.university_name e = Education.university_name o
  ∧ Education.degree e = Education.degree o.

(** Between two worlds, nothing but experience (education, project)
    objects at the listed references may differ. *)
Definition only_experiences_differ (at_refs : list loc) (w w' : World) : Prop :=
  (∀ l, l ∉ at_refs → experience_objs w' !! l = experience_objs w !! l)
  ∧ education_objs w' = education_objs w
  ∧ project_objs w' = project_objs w
  ∧ now w' = now w ∧ clock_reads w' = clock_reads w
  ∧ slept w' = slept w ∧ llm_calls w' = llm_calls w.

Definition only_educations_differ (at_refs : list loc) (w w' : World) : Prop :=
  (∀ l, l ∉ at_refs → education_objs w' !! l = education_objs w !! l)
  ∧ experience_objs w' = experience_objs w
  ∧ project_objs w' = project_objs w
  ∧ now w' = now w ∧ clock_reads w' = clock_reads w
  ∧ slept w' = slept w ∧ llm_calls w' = llm_calls w.

Definition only_projects_differ (at_refs : list loc) (w w' : World) : Prop :=
  (∀ l, l ∉ at_refs → project_objs w' !! l = project_objs w !! l)
  ∧ experience_objs w' = experience_objs w
  ∧ education_objs w' = education_objs w
  ∧ now w' = now w ∧ clock_reads w' = clock_reads w
  ∧ slept w' = slept w ∧ llm_calls w' = llm_calls w.

(** The reply to attempt [k] for class [c], when the sequential
    orchestrator can use it: the call returned an instance of [c]. *)
Definition usable_reply (llm : LLM) (c : OutputClass) (k : nat) : option PyObj :=
  match with_structured_output llm c k with
  | Returns obj => if isinstance obj c then Some obj else None
  | Raises _ => None
  end.

(** The first usable reply among the given attempts. *)
Fixpoint first_usable (llm : LLM) (c : OutputClass) (attempts : list nat)
    : option PyObj :=
  match attempts with
  | [] => None
  | k :: rest =>
      match usable_reply llm c k with
      | Some obj => Some obj
      | None => first_usable llm c rest
      end
  end.

(** The record the merge stage builds: a section comes from the
    FullEnhancementOutput when it is there and from the resume when it
    is not. *)
Definition merged_resume (resume : Resume.t) (full_output : FullEnhancementOutput.t)
    : Resume.t :=
  Resume.mk
    (Resume.personal_info resume)
    (from_option Enh.enhanced (Resume.summary resume)
                 (FullEnhancementOutput.summary full_output))
    (from_option Enh.enhanced (Resume.educations resume)
                 (FullEnhancementOutput.educations full_output))
    (from_option (λ e, Some (Enh.enhanced e)) (Resume.experiences resume)
                 (FullEnhancementOutput.experiences full_output))
    (from_option Enh.enhanced (Resume.skills resume)
                 (FullEnhancementOutput.skills full_output))
    (from_option (λ e, Some (Enh.enhanced e)) (Resume.certifications resume)
                 (FullEnhancementOutput.certifications full_output))
    (from_option Enh.enhanced (Resume.languages resume)
                 (FullEnhancementOutput.languages full_output))
    (from_option (λ e, Some (Enh.enhanced e)) (Resume.projects resume)
                 (FullEnhancementOutput.projects full_output)).

(** The enhanced entries a FullEnhancementOutput carries for the
    sections the validators assign to. *)
Definition enhanced_experiences (full_output : FullEnhancementOutput.t) : list loc :=
  from_option Enh.enhanced [] (FullEnhancementOutput.experiences full_output).
Definition enhanced_educations (full_output : FullEnhancementOutput.t) : list loc :=
  from_option Enh.enhanced [] (FullEnhancementOutput.educations full_output).
Definition enhanced_projects (full_output : FullEnhancementOutput.t) : list loc :=
  from_option Enh.enhanced [] (FullEnhancementOutput.projects full_output).

(** The content of one section, of a resume or of a section output. *)
Inductive SectionContent : Type :=
  | ContentText (s : string)
  | ContentRefs (l : option (list loc))
  | ContentSkills (l : list Skill.t)
  | ContentCertifications (l : option (list Certification.t))
  | ContentLanguages (l : list Language.t).

Definition resume_section (r : Resume.t) (section_name : string)
    : option SectionContent :=
  if decide (section_name = "summary") then
    Some (ContentText (Resume.summary r))
  else if decide (section_name = "experiences") then
    Some (ContentRefs (Resume.experiences r))
  else if decide (section_name = "educations") then
    Some (ContentRefs (Some (Resume.educations r)))
  else if decide (section_name = "skills") then
    Some (ContentSkills (Resume.skills r))
  else if decide (section_name = "certifications") then
    Some (ContentCertifications (Resume.certifications r))
  else if decide (section_name = "languages") then
    Some (ContentLanguages (Resume.languages r))
  else if decide (section_name = "projects") then
    Some (ContentRefs (Resume.projects r))
  else None.

(** [obj.enhanced] for a section output. *)
Definition enhanced_content (obj : PyObj) : option SectionContent :=
  match obj with
  | PySummaryOut o => Some (ContentText (Enh.enhanced o))
  | PyExperiencesOut o | PyEducationsOut o | PyProjectsOut o =>
      Some (ContentRefs (Some (Enh.enhanced o)))
  | PySkillsOut o => Some (ContentSkills (Enh.enhanced o))
  | PyCertificationsOut o => Some (ContentCertifications (Some (Enh.enhanced o)))
  | PyLanguagesOut o => Some (ContentLanguages (Enh.enhanced o))
  | PyNone | PyDict | PyMappingResult _ | PyFullEnhancementOutput _ => None
  end.

(** *** Streaming events *)

Definition is_start_of (name : string) (i : nat) (ev : Event) : Prop :=
  event_type ev = "section_start"
  ∧ section ev = Some name ∧ section_index ev = Some i.

Definition is_delta_of (name : string) (i : nat) (ev : Event) : Prop :=
  event_type ev = "section_delta"
  ∧ section ev = Some name ∧ section_index ev = Some i.

Definition is_final_of (name : string) (i : nat) (ev : Event) : Prop :=
  (event_type ev = "section_complete" ∨ event_type ev = "error")
  ∧ section ev = Some name ∧ section_index ev = Some i.

(** Deltas that follow one another within one attempt, the text sent so
    far being [prev]: each carries an accumulated text that extends the
    previous one by at least MIN_CHUNK_SIZE characters, and the added
    characters as its delta text. *)
Fixpoint growing_from (prev : string) (deltas : list Event) : Prop :=
  match deltas with
  | [] => True
  | d :: rest =>
      ∃ text,
        accumulated_text d = Some text
        ∧ delta_text d = Some (string_drop (String.length prev) text)
        ∧ String.prefix prev text = true
        ∧ Z.of_nat (String.length prev) + MIN_CHUNK_SIZE
          ≤ Z.of_nat (String.length text)
        ∧ growing_from text rest
  end.

(** The events of one section: a start event, the deltas of at most
    MAX_RETRIES attempts, each attempt's deltas growing from the empty
    text, and one closing event. *)
Definition section_block (name : string) (i : nat) (events : list Event) : Prop :=
  ∃ start attempts final,
    events = start :: concat attempts ++ [final]
    ∧ is_start_of name i start
    ∧ (length attempts ≤ MAX_RETRIES)%nat
    ∧ Forall (λ deltas, Forall (is_delta_of name i) deltas
                        ∧ growing_from "" deltas) attempts
    ∧ is_final_of name i final.

(** Blocks for the sections [names], numbered from [i] on. *)
Fixpoint blocks_from (i : nat) (names : list string) (blocks : list (list Event))
    : Prop :=
  match names, blocks with
  | [], [] => True
  | name :: names, block :: blocks =>
      section_block name i block ∧ blocks_from (S i) names blocks
  | _, _ => False
  end.

(** One pass: the blocks of the seven sections in order, indices 0 to 6,
    then the internal results. *)
Definition pass_ordered (yielded : list Yielded) : Prop :=
  ∃ blocks full_output timings,
    yielded = (YEvent <$> concat blocks) ++ [YInternalResults full_output timings]
    ∧ blocks_from 0 SECTION_NAMES blocks.

(** The events among what a pass yields, and those of one section. *)
Definition events_of (yielded : list Yielded) : list Event :=
  omap (λ y, match y with YEvent ev => Some ev | YInternalResults _ _ => None end)
       yielded.

Definition section_events (name : string) (events : list Event) : list Event :=
  filter (λ ev, section ev = Some name) events.

(** The lengths of the accumulated texts of the delta events, in the
    order of the events. *)
Definition delta_lengths (events : list Event) : list nat :=
  omap (λ ev, if String.eqb (event_type ev) "section_delta"
              then String.length <$> accumulated_text ev else None) events.

(** The attempts the sequential orchestrator's retry budget allows. *)
Definition sectional_budget : list nat := seq 0 SECTIONAL_MAX_RETRIES.

(** Two worlds that hold the same objects. *)
Definition same_objects (w w' : World) : Prop :=
  experience_objs w' = experience_objs w
  ∧ education_objs w' = education_objs w
  ∧ project_objs w' = project_objs w.

(** ** Concrete inputs for the examples *)

Module Sample.

(** A world with no objects, whose clock advances one second per
    reading. *)
Definition world : World :=
  mkWorld ∅ ∅ ∅ (λ n, 1000 * Z.of_nat n) 0 [] 0.

Definition date (y m d : Z) : datetime := mkDatetime y m d 0 0 0 0.

(** The candidate's own entries, and the entries a model reply
    carries for them with protected fields changed. *)
Definition experience_orig : Experience.t :=
  Experience.mk "Engineer" "Initech" (date 2019 3 1) (Some (date 2022 6 30))
                ["Built reports"] false.
Definition experience_enh : Experience.t :=
  Experience.mk "Senior Engineer" "Initech Inc." (date 2018 1 1) None
                ["Delivered reporting pipelines"] false.
Definition education_orig : Education.t :=
  Education.mk "BSc" "Mathematics" "University of London" "London" "UK"
               (date 2012 9 1) (Some (date 2015 6 30)).
Definition education_enh : Education.t :=
  Education.mk "MSc" "Mathematics" "London University" "London" "UK"
               (date 2012 9 1) None.
Definition project_enh : Project.t :=
  Project.mk "Scheduler" ["A job scheduler"] (Some "https://example.org/s").

(** A world holding those objects: originals at 1 and 2, the model's
    entries at 10, 20 and 30. *)
Definition world_objs : World :=
  mkWorld {[ 1%nat := experience_orig; 10%nat := experience_enh ]}
          {[ 2%nat := education_orig; 20%nat := education_enh ]}
          {[ 30%nat := project_enh ]}
          (λ n, 1000 * Z.of_nat n) 0 [] 0.

Definition personal_info : PersonalInfo.t :=
  PersonalInfo.mk "Ada Lovelace" "+44 20 0000" "ada@example.org" None None.

Definition mapping (score : Z) : MappingResult.t :=
  MappingResult.mk (Some ["python"]) None (Some ["kubernetes"]) score.

Definition job : JobDescription.t :=
  JobDescription.mk "Engineer" None [] [] ["python"] [] JobDescription.mid
                    (Some []).

Definition reason : ChangeReason.t :=
  ChangeReason.mk "summary" "Aligned wording with the job description".

Definition summary_out : SummaryEnhancementOutput :=
  Enh.mk "Engineer with a focus on data pipelines." [reason].

Definition full_output_summary : FullEnhancementOutput.t :=
  FullEnhancementOutput.mk (Some summary_out) None None None None None None.

(** A gateway whose every call times out. *)
Definition llm_down : LLM :=
  mkLLM (λ _ _, Raises (GatewayError "Request timed out."))
        (λ _, Raises (GatewayError "Request timed out."))
        (λ _ _, mkStream [] (Some (GatewayError "Request timed out."))).

(** A gateway that answers text calls with [content]. *)
Definition llm_says (content : Content) : LLM :=
  mkLLM (with_structured_output llm_down) (λ _, Returns content) (astream llm_down).

(** A gateway that answers the mapping call with [result]. *)
Definition llm_maps (result : MappingResult.t) : LLM :=
  mkLLM (λ _ _, Returns (PyMappingResult result)) (ainvoke llm_down) (astream llm_down).

(** A resume whose experiences and projects are null, as the schema
    allows, and a FullEnhancementOutput in which the model returned
    one experience for it. *)
Definition resume_null_lists : Resume.t :=
  Resume.mk personal_info "Engineer." [2%nat] None [] None [] None.

Definition full_output_experience : FullEnhancementOutput.t :=
  FullEnhancementOutput.mk None (Some (Enh.mk [10%nat] [])) None None None None None.

(** A resume whose projects are null, and a gateway that is rate
    limited on every skills call and answers every other section;
    for projects it returns one entry. *)
Definition resume_null_projects : Resume.t :=
  Resume.mk personal_info "Engineer." [2%nat] (Some [1%nat]) [] None [] None.

Definition resume_with_projects : Resume.t :=
  Resume.mk personal_info "Engineer." [2%nat] (Some [1%nat]) [] None [] (Some []).

Definition llm_skills_fail : LLM :=
  mkLLM (λ c _,
           match c with
           | SummaryEnhancementOutputCls => Returns (PySummaryOut summary_out)
           | ExperiencesEnhancementOutputCls =>
               Returns (PyExperiencesOut (Enh.mk [10%nat] []))
           | EducationsEnhancementOutputCls =>
               Returns (PyEducationsOut (Enh.mk [20%nat] []))
           | CertificationsEnhancementOutputCls =>
               Returns (PyCertificationsOut (Enh.mk [] []))
           | LanguagesEnhancementOutputCls =>
               Returns (PyLanguagesOut (Enh.mk [] []))
           | ProjectsEnhancementOutputCls =>
               Returns (PyProjectsOut (Enh.mk [30%nat] []))
           | _ => Raises (GatewayError "429 Too Many Requests")
           end)
        (ainvoke llm_down) (astream llm_down).

Definition state_of (resume : Resume.t) : ResumeEnhancerState.t :=
  ResumeEnhancerState.mk (Some resume) (Some job) (Some (mapping 8))
                         None None None None (Some "sectional") ∅ ∅.

(** A gateway whose token stream breaks on every attempt, after some
    text (more on the first attempt than on the second). *)
Definition llm_stream_breaks : LLM :=
  mkLLM (with_structured_output llm_down) (ainvoke llm_down)
        (λ _ attempt,
           match attempt with
           | O => mkStream [ChunkStr "Seasoned engineer with ten years"]
                           (Some (GatewayError "Connection reset by peer"))
           | S _ => mkStream [ChunkStr "Engineer with"]
                             (Some (GatewayError "Connection reset by peer"))
           end).

(** A decoder that accepts nothing. *)
Definition rejects_all : OutputClass → string → option PyObj := λ _ _, None.
Definition reconstructs_none : OutputClass → PyObj → option PyObj := λ _ _, None.

Definition resume_plain : Resume.t :=
  Resume.mk personal_info "Engineer." [] (Some []) [] None [] (Some []).

(** A state as it is after the mapping stage, with the given score. *)
Definition state_mapped (score : Z) : ResumeEnhancerState.t :=
  ResumeEnhancerState.mk (Some resume_plain) (Some job) (Some (mapping score))
                         None None None None None ∅ ∅.

(** A state as it is before the mapping stage. *)
Definition state_initial : ResumeEnhancerState.t :=
  ResumeEnhancerState.mk (Some resume_plain) (Some job) None
                         None None None None None ∅ ∅.

(** A state as it is before the report stage. *)
Definition state_enhanced : ResumeEnhancerState.t :=
  ResumeEnhancerState.mk (Some resume_plain) (Some job) (Some (mapping 8))
                         (Some full_output_summary) (Some resume_plain)
                         None None None ∅ ∅.

End Sample.

(** The world and the dict the sequential node ends with on the sample
    state and gateway. *)
Definition enhance_sectional_node_world_sample : World :=
  (enhance_sectional_node (Sample.state_of Sample.resume_with_projects)
     (Some Sample.llm_skills_fail) Sample.world_objs).1.

Definition enhance_sectional_node_result_sample : SectionalResult :=
  match (enhance_sectional_node (Sample.state_of Sample.resume_with_projects)
           (Some Sample.llm_skills_fail) Sample.world_objs).2 with
  | Returns out => out
  | Raises _ =>
      mkSectionalResult FullEnhancementOutput.new ∅ ∅
        (mkSectionalMetadata "sectional" 0 0 0 [] [] 0)
  end.

(** ** routers/enhance.py: the incremental endpoint *)

Module EnhanceRequest.
Record t : Type := mk {
  resume : Resume.t;
  job_description : JobDescription.t;
  mode : option string
}.
End EnhanceRequest.

(** The dicts the endpoint sends, one per [data:] line.  A [complete]
    event carries the final state; its keys differ between the feedback
    path and the enhancement path, so each has its constructor.  The
    resume in it is the request's, dumped when the event is built. *)
Inductive Sse : Type :=
  | SseError (status : option string) (error_message : string)
  | SseMappingStart
  | SseMappingComplete (match_score : Z)
  | SseSection (event : Event)
  | SseFeedback (resume : Resume.t) (job_description : JobDescription.t)
                (mapping_result : MappingResult.t) (feedback_message : string)
  | SseComplete (resume : Resume.t) (job_description : JobDescription.t)
                (mapping_result : MappingResult.t)
                (full_enhancement_output : FullEnhancementOutput.t)
                (enhanced_resume : Resume.t) (report_summary : option string)
                (section_timings : gmap string Z).

(** An asynchronous generator: a computation that also yields events.
    What was yielded before an exception stays yielded. *)
Definition Gen (A : Type) : Type := World → World * list Sse * outcome A.

#[global] Instance Gen_ret : MRet Gen := λ A a w, (w, [], Returns a).
#[global] Instance Gen_bind : MBind Gen := λ A B f m w,
  match m w with
  | (w', out, Returns a) =>
      match f a w' with
      | (w'', out', r) => (w'', out ++ out', r)
      end
  | (w', out, Raises e) => (w', out, Raises e)
  end.

Definition yield (ev : Sse) : Gen unit := λ w, (w, [ev], Returns tt).

(** [await m], and a plain call, inside a generator. *)
Definition await {A} (m : Py A) : Gen A :=
  λ w, match m w with (w', r) => (w', [], r) end.

(** [try: body except Exception as e: handler(e)] in a generator. *)
Definition gen_try (body : Gen unit) (handler : exn → Gen unit) : Gen unit :=
  λ w, match body w with
       | (w', out, Returns a) => (w', out, Returns a)
       | (w', out, Raises e) =>
           match handler e w' with
           | (w'', out', r) => (w'', out ++ out', r)
           end
       end.

(** [async for event in stream_all_sections(...)]: the internal result
    is kept, every other event is sent on. *)
Fixpoint relay_events (yielded : list Yielded)
    (full_enhancement_output : option FullEnhancementOutput.t)
    (section_timings : gmap string Z)
    : Gen (option FullEnhancementOutput.t * gmap string Z) :=
  match yielded with
  | [] => mret (full_enhancement_output, section_timings)
  | YInternalResults full_output timings :: rest =>
      relay_events rest (Some full_output) timings
  | YEvent event :: rest =>
      yield (SseSection event);;
      relay_events rest full_enhancement_output section_timings
  end.

Section Endpoint.

Variable json_loads_as : OutputClass → string → option PyObj.
Variable reconstruct : OutputClass → PyObj → option PyObj.

(** [app_llm] is [request.app.state.llm].  The mapping stage returns a
    MappingResult or raises, so the branch for a missing mapping result
    is never taken and is left out.  The events of the streaming pass
    are sent on in the order they were yielded. *)
Definition enhance_incremental_stream (settings : Settings)
    (app_llm : option LLM) (body : EnhanceRequest.t) : Gen unit :=
  match app_llm with
  | None => yield (SseError None "LLM not initialized")
  | Some llm =>
      gen_try
        (yield SseMappingStart;;
         let mapping_state :=
           ResumeEnhancerState.mk
             (Some (EnhanceRequest.resume body))
             (Some (EnhanceRequest.job_description body))
             None None None None None None ∅ ∅ in
         mapping_result ← await (mapping_node mapping_state (Some llm));
         yield (SseMappingComplete (MappingResult.match_score mapping_result));;
         if decide (MappingResult.match_score mapping_result
                    < SCORE_THRESHOLD settings) then
           let feedback_state :=
             ResumeEnhancerState.mk
               (Some (EnhanceRequest.resume body))
               (Some (EnhanceRequest.job_description body))
               (Some mapping_result) None None None None None ∅ ∅ in
           feedback_message ← await (feedback_node settings feedback_state (Some llm));
           yield (SseFeedback (EnhanceRequest.resume body)
                              (EnhanceRequest.job_description body)
                              mapping_result feedback_message)
         else
           yielded ← await (stream_all_sections json_loads_as reconstruct
                              (EnhanceRequest.resume body) mapping_result llm);
           '(full_enhancement_output, section_timings) ←
             relay_events yielded None ∅;
           let full_enhancement_output :=
             default FullEnhancementOutput.new full_enhancement_output in
           let format_state :=
             ResumeEnhancerState.mk
               (Some (EnhanceRequest.resume body)) None None
               (Some full_enhancement_output) None None None None ∅ ∅ in
           enhanced_resume ← await (format_node format_state);
           let report_state :=
             ResumeEnhancerState.mk
               (Some (EnhanceRequest.resume body)) None None
               (Some full_enhancement_output) (Some enhanced_resume)
               None None None ∅ ∅ in
           report_summary ← await (report_node report_state (Some llm));
           yield (SseComplete (EnhanceRequest.resume body)
                              (EnhanceRequest.job_description body)
                              mapping_result full_enhancement_output
                              enhanced_resume report_summary section_timings))
        (λ e, yield (SseError (Some "error") (exn_str e)))
  end.

End Endpoint.

(** ** graph/nodes/enhance.py: the single-call enhancement stage *)

Definition _get_enhancement_inputs (state : ResumeEnhancerState.t)
    : Py (Resume.t * MappingResult.t) :=
  match ResumeEnhancerState.resume state with
  | None => raise (ValueError "enhance_node requires state.resume")
  | Some resume =>
      match ResumeEnhancerState.mapping_result state with
      | None => raise (ValueError "enhance_node requires state.mapping_result")
      | Some mapping_result => mret (resume, mapping_result)
      end
  end.

Definition enhance_node (state : ResumeEnhancerState.t) (llm : option LLM)
    : Py FullEnhancementOutput.t :=
  let state := normalize_state state in
  _ ← _get_enhancement_inputs state;
  match llm with
  | None => raise (ValueError "enhance_node requires a non-None llm instance")
  | Some llm =>
      result ← try_except (invoke_structured llm FullEnhancementOutputCls 0) raise;
      match result with
      | PyFullEnhancementOutput result => mret result
      | _ => raise (ValueError "enhance_node: LLM must return FullEnhancementOutput")
      end
  end.

(** ** graph/graph.py: the workflow *)

(** The dict a node returns is merged into the state: these are the
    state with one key replaced. *)
Definition with_mapping_result (state : ResumeEnhancerState.t)
    (mapping_result : MappingResult.t) : ResumeEnhancerState.t :=
  ResumeEnhancerState.mk
    (ResumeEnhancerState.resume state)
    (ResumeEnhancerState.job_description state)
    (Some mapping_result)
    (ResumeEnhancerState.full_enhancement_output state)
    (ResumeEnhancerState.enhanced_resume state)
    (ResumeEnhancerState.report_summary state)
    (ResumeEnhancerState.feedback_message state)
    (ResumeEnhancerState.mode state)
    (ResumeEnhancerState.section_timings state)
    (ResumeEnhancerState.section_errors state).

Definition with_full_enhancement_output (state : ResumeEnhancerState.t)
    (full_output : FullEnhancementOutput.t) (timings : gmap string Z)
    : ResumeEnhancerState.t :=
  ResumeEnhancerState.mk
    (ResumeEnhancerState.resume state)
    (ResumeEnhancerState.job_description state)
    (ResumeEnhancerState.mapping_result state)
    (Some full_output)
    (ResumeEnhancerState.enhanced_resume state)
    (ResumeEnhancerState.report_summary state)
    (ResumeEnhancerState.feedback_message state)
    (ResumeEnhancerState.mode state)
    timings
    (ResumeEnhancerState.section_errors state).

Definition with_enhanced_resume (state : ResumeEnhancerState.t)
    (enhanced_resume : Resume.t) : ResumeEnhancerState.t :=
  ResumeEnhancerState.mk
    (ResumeEnhancerState.resume state)
    (ResumeEnhancerState.job_description state)
    (ResumeEnhancerState.mapping_result state)
    (ResumeEnhancerState.full_enhancement_output state)
    (Some enhanced_resume)
    (ResumeEnhancerState.report_summary state)
    (ResumeEnhancerState.feedback_message state)
    (ResumeEnhancerState.mode state)
    (ResumeEnhancerState.section_timings state)
    (ResumeEnhancerState.section_errors state).

Definition with_report_summary (state : ResumeEnhancerState.t)
    (report_summary : option string) : ResumeEnhancerState.t :=
  ResumeEnhancerState.mk
    (ResumeEnhancerState.resume state)
    (ResumeEnhancerState.job_description state)
    (ResumeEnhancerState.mapping_result state)
    (ResumeEnhancerState.full_enhancement_output state)
    (ResumeEnhancerState.enhanced_resume state)
    report_summary
    (ResumeEnhancerState.feedback_message state)
    (ResumeEnhancerState.mode state)
    (ResumeEnhancerState.section_timings state)
    (ResumeEnhancerState.section_errors state).

Definition with_feedback_message (state : ResumeEnhancerState.t)
    (feedback_message : string) : ResumeEnhancerState.t :=
  ResumeEnhancerState.mk
    (ResumeEnhancerState.resume state)
    (ResumeEnhancerState.job_description state)
    (ResumeEnhancerState.mapping_result state)
    (ResumeEnhancerState.full_enhancement_output state)
    (ResumeEnhancerState.enhanced_resume state)
    (ResumeEnhancerState.report_summary state)
    (Some feedback_message)
    (ResumeEnhancerState.mode state)
    (ResumeEnhancerState.section_timings state)
    (ResumeEnhancerState.section_errors state).

Section Graph.

(** The node of graph/nodes/enhance_incremental.py, by what it returns
    for the state: a FullEnhancementOutput and the section timings.
    What the workflow does in the other two modes does not depend on
    it. *)
Variable enhance_incremental_node :
  ResumeEnhancerState.t → option LLM → Py (FullEnhancementOutput.t * gmap string Z).

(** [enhance_router], with the merge of what the chosen node returns.
    A state without a mode is in legacy mode. *)
Definition enhance_router (llm : option LLM) (state : ResumeEnhancerState.t)
    : Py ResumeEnhancerState.t :=
  let mode := default "legacy" (ResumeEnhancerState.mode state) in
  if decide (mode = "incremental") then
    '(full_output, timings) ← enhance_incremental_node state llm;
    mret (with_full_enhancement_output state full_output timings)
  else if decide (mode = "sectional") then
    out ← enhance_sectional_node state llm;
    mret (merge_sectional_result state out)
  else
    full_output ← enhance_node state llm;
    mret (with_full_enhancement_output state full_output
            (ResumeEnhancerState.section_timings state)).

(** The compiled graph, run from [initial_state]: mapping, then the
    conditional edge, then feedback, or enhance, format and report.  A
    node that raises ends the run with its exception. *)
Definition run_graph (settings : Settings) (llm : option LLM)
    (initial_state : ResumeEnhancerState.t) : Py ResumeEnhancerState.t :=
  mapping_result ← mapping_node initial_state llm;
  let state := with_mapping_result initial_state mapping_result in
  next ← route_after_mapping settings state;
  if decide (next = "feedback") then
    feedback_message ← feedback_node settings state llm;
    mret (with_feedback_message state feedback_message)
  else
    state ← enhance_router llm state;
    enhanced_resume ← format_node state;
    let state := with_enhanced_resume state enhanced_resume in
    report_summary ← report_node state llm;
    mret (with_report_summary state report_summary).

(** [run_resume_enhancer_async]: the run from a resume and a job
    description. *)
Definition run_resume_enhancer_async (settings : Settings) (llm : option LLM)
    (resume : Resume.t) (job_description : JobDescription.t)
    : Py ResumeEnhancerState.t :=
  run_graph settings llm
    (ResumeEnhancerState.mk (Some resume) (Some job_description)
                            None None None None None None ∅ ∅).

End Graph.

(** ** core/normalization.py *)

(** [.value] of the two enums (enums/resume_enums.py). *)
Definition SkillType_value (t : SkillType) : string :=
  match t with
  | SOFT => "soft"
  | TECHNICAL => "technical"
  end.

Definition LanguageProficiencyLevel_value (l : LanguageProficiencyLevel)
    : string :=
  match l with
  | A1 => "A1" | A2 => "A2" | B1 => "B1" | B2 => "B2"
  | C1 => "C1" | C2 => "C2" | NATIVE => "Native"
  end.

(** The dicts the template gets, one record per shape. *)
Module ExperienceItem.
Record t : Type := mk {
  role_title : string;
  company_name : string;
  start_date : string;
  end_date : string;
  description : list string
}.
End ExperienceItem.

Module EducationItem.
Record t : Type := mk {
  degree : string;
  major : string;
  university_name : string;
  city : string;
  country : string;
  start_date : string;
  end_date : string
}.
End EducationItem.

Module ProjectItem.
Record t : Type := mk {
  project_name : string;
  description : list string;
  project_link : option string
}.
End ProjectItem.

Module CertificationItem.
Record t : Type := mk {
  certification_name : string;
  issuing_organization : string;
  issue_date : string
}.
End CertificationItem.

Module LanguageItem.
Record t : Type := mk { language : string; proficiency_level : string }.
End LanguageItem.

Module SkillsGrouped.
Record t : Type := mk { technical : list string; soft : list string }.
End SkillsGrouped.

Module Normalized.
Record t : Type := mk {
  personal_info : PersonalInfo.t;
  summary : string;
  educations : list EducationItem.t;
  professional_experiences : list ExperienceItem.t;
  volunteer_experiences : list ExperienceItem.t;
  projects : list ProjectItem.t;
  certifications : list CertificationItem.t;
  skills_grouped : SkillsGrouped.t;
  languages : list LanguageItem.t
}.
End Normalized.

Section Normalization.

(** [dt.strftime("%Y-%m")] *)
Variable strftime_Ym : datetime → string.

Definition _format_date (dt : option datetime) : string :=
  match dt with
  | None => ""
  | Some dt => strftime_Ym dt
  end.

Definition _format_period (start : datetime) (end_ : option datetime)
    : string * string :=
  let start_str := _format_date (Some start) in
  let end_str := match end_ with
                 | Some _ => _format_date end_
                 | None => "Present"
                 end in
  (start_str, end_str).

(** [for exp in experiences], with the two lists built so far. *)
Fixpoint _split_experiences_from (experiences : list loc)
    (professional volunteer : list loc) : Py (list loc * list loc) :=
  match experiences with
  | [] => mret (professional, volunteer)
  | exp :: rest =>
      e ← read_experience exp;
      if Experience.is_volunteer e then
        _split_experiences_from rest professional (volunteer ++ [exp])
      else
        _split_experiences_from rest (professional ++ [exp]) volunteer
  end.

Definition _split_experiences (experiences : list loc)
    : Py (list loc * list loc) :=
  _split_experiences_from experiences [] [].

(** [for skill in skills], with the two lists built so far. *)
Fixpoint _group_skills_from (skills : list Skill.t)
    (technical soft : list string) : SkillsGrouped.t :=
  match skills with
  | [] => SkillsGrouped.mk technical soft
  | skill :: rest =>
      let kind := SkillType_value (Skill.skill_type skill) in
      if String.eqb kind "technical" then
        _group_skills_from rest (technical ++ [Skill.skill_name skill]) soft
      else if String.eqb kind "soft" then
        _group_skills_from rest technical (soft ++ [Skill.skill_name skill])
      else
        _group_skills_from rest technical soft
  end.

Definition _group_skills (skills : list Skill.t) : SkillsGrouped.t :=
  _group_skills_from skills [] [].

Fixpoint _normalize_languages_from (languages : list Language.t)
    (out : list LanguageItem.t) : list LanguageItem.t :=
  match languages with
  | [] => out
  | lang :: rest =>
      _normalize_languages_from rest
        (out ++ [LanguageItem.mk (Language.language lang)
                   (LanguageProficiencyLevel_value
                      (Language.proficiency_level lang))])
  end.

Definition _normalize_languages (languages : list Language.t)
    : list LanguageItem.t :=
  _normalize_languages_from languages [].

Fixpoint _normalize_experience_list_from (src : list loc)
    (items : list ExperienceItem.t) : Py (list ExperienceItem.t) :=
  match src with
  | [] => mret items
  | exp :: rest =>
      e ← read_experience exp;
      let '(start_str, end_str) :=
        _format_period (Experience.start_date e) (Experience.end_date e) in
      _normalize_experience_list_from rest
        (items ++ [ExperienceItem.mk (Experience.role_title e)
                     (Experience.company_name e) start_str end_str
                     (Experience.description e)])
  end.

Definition _normalize_experience_list (src : list loc)
    : Py (list ExperienceItem.t) :=
  _normalize_experience_list_from src [].

(** The three loops written out in [normalize_resume_for_template]. *)
Fixpoint educations_list_from (educations : list loc)
    (educations_list : list EducationItem.t) : Py (list EducationItem.t) :=
  match educations with
  | [] => mret educations_list
  | edu :: rest =>
      e ← read_education edu;
      let '(start_str, end_str) :=
        _format_period (Education.start_date e) (Education.end_date e) in
      educations_list_from rest
        (educations_list
         ++ [EducationItem.mk (Education.degree e) (Education.major e)
               (Education.university_name e) (Education.city e)
               (Education.country e) start_str end_str])
  end.

Fixpoint projects_list_from (projects : list loc)
    (projects_list : list ProjectItem.t) : Py (list ProjectItem.t) :=
  match projects with
  | [] => mret projects_list
  | proj :: rest =>
      p ← read_project proj;
      projects_list_from rest
        (projects_list
         ++ [ProjectItem.mk (Project.project_name p) (Project.description p)
               (Project.project_link p)])
  end.

Fixpoint certifications_list_from (certifications : list Certification.t)
    (certifications_list : list CertificationItem.t)
    : list CertificationItem.t :=
  match certifications with
  | [] => certifications_list
  | cert :: rest =>
      let issue_str :=
        match Certification.issue_date cert with
        | Some _ => _format_date (Certification.issue_date cert)
        | None => ""
        end in
      certifications_list_from rest
        (certifications_list
         ++ [CertificationItem.mk (Certification.certification_name cert)
               (Certification.issuing_organization cert) issue_str])
  end.

(** [x or []] for the optional lists is [default [] x]. *)
Definition normalize_resume_for_template (resume : Resume.t)
    : Py Normalized.t :=
  let personal := Resume.personal_info resume in
  let personal_info_dict :=
    PersonalInfo.mk (PersonalInfo.full_name personal)
                    (PersonalInfo.phone_number personal)
                    (PersonalInfo.email_address personal)
                    (PersonalInfo.linkedin personal)
                    (PersonalInfo.personal_website personal) in
  educations_list ← educations_list_from (Resume.educations resume) [];
  '(professional_exps_raw, volunteer_exps_raw) ←
    _split_experiences (default [] (Resume.experiences resume));
  professional_experiences ← _normalize_experience_list professional_exps_raw;
  volunteer_experiences ← _normalize_experience_list volunteer_exps_raw;
  projects_list ← projects_list_from (default [] (Resume.projects resume)) [];
  let certifications_list :=
    certifications_list_from (default [] (Resume.certifications resume)) [] in
  let skills_grouped := _group_skills (Resume.skills resume) in
  let languages_list := _normalize_languages (Resume.languages resume) in
  mret (Normalized.mk personal_info_dict (Resume.summary resume)
          educations_list professional_experiences volunteer_experiences
          projects_list certifications_list skills_grouped languages_list).

End Normalization.

(** The experiences of a list that are volunteer work in [w], and those
    that are not. *)
Definition volunteer_in (w : World) (experiences : list loc) : list loc :=
  filter (λ l, Experience.is_volunteer (experience_objs w !!! l) = true)
         experiences.

Definition professional_in (w : World) (experiences : list loc) : list loc :=
  filter (λ l, Experience.is_volunteer (experience_objs w !!! l) = false)
         experiences.

(** What the template gets for the experience, education and project
    at a reference, as the objects are in [w]. *)
Definition experience_item (strftime_Ym : datetime → string) (w : World)
    (l : loc) : ExperienceItem.t :=
  let e := experience_objs w !!! l in
  ExperienceItem.mk (Experience.role_title e) (Experience.company_name e)
    (strftime_Ym (Experience.start_date e))
    (from_option strftime_Ym "Present" (Experience.end_date e))
    (Experience.description e).

Definition education_item (strftime_Ym : datetime → string) (w : World)
    (l : loc) : EducationItem.t :=
  let e := education_objs w !!! l in
  EducationItem.mk (Education.degree e) (Education.major e)
    (Education.university_name e) (Education.city e) (Education.country e)
    (strftime_Ym (Education.start_date e))
    (from_option strftime_Ym "Present" (Education.end_date e)).

Definition project_item (w : World) (l : loc) : ProjectItem.t :=
  let p := project_objs w !!! l in
  ProjectItem.mk (Project.project_name p) (Project.description p)
                 (Project.project_link p).

Definition certification_item (strftime_Ym : datetime → string)
    (cert : Certification.t) : CertificationItem.t :=
  CertificationItem.mk (Certification.certification_name cert)
    (Certification.issuing_organization cert)
    (from_option strftime_Ym "" (Certification.issue_date cert)).

Definition language_item (lang : Language.t) : LanguageItem.t :=
  LanguageItem.mk (Language.language lang)
    (LanguageProficiencyLevel_value (Language.proficiency_level lang)).

(** The experience at a reference has no end date in [w]. *)
Definition experiences_end_open (w : World) (l : loc) : Prop :=
  Experience.end_date (experience_objs w !!! l) = None.

#[global] Instance SkillType_eq_dec : EqDecision SkillType.
Proof. solve_decision. Defined.

(** The names of the skills of one type, in order. *)
Definition skill_names (t : SkillType) (skills : list Skill.t) : list string :=
  Skill.skill_name <$> filter (λ s, Skill.skill_type s = t) skills.

(** ** routers/export.py: the name of the exported file *)

(** [c.lower()] for one character (code points below 256). *)
Definition py_lower_char (c : ascii) : ascii :=
  let n := N_of_ascii c in
  if ((65 <=? n) && (n <=? 90)
      || (192 <=? n) && (n <=? 222) && negb (n =? 215))%N
  then ascii_of_N (n + 32) else c.

Fixpoint py_lower (s : string) : string :=
  match s with
  | EmptyString => EmptyString
  | String c rest => String (py_lower_char c) (py_lower rest)
  end.

(** The class [a-zA-Z0-9]. *)
Definition is_alnum (c : ascii) : bool :=
  let n := N_of_ascii c in
  ((48 <=? n) && (n <=? 57) || (65 <=? n) && (n <=? 90)
   || (97 <=? n) && (n <=? 122))%N.

(** [re.sub(r"[^a-zA-Z0-9]+", "_", s)]: every maximal run of other
    characters becomes one underscore; [in_run] says that the
    underscore for the current run has been written. *)
Fixpoint re_sub_non_alnum (in_run : bool) (s : string) : string :=
  match s with
  | EmptyString => EmptyString
  | String c rest =>
      if is_alnum c then String c (re_sub_non_alnum false rest)
      else if in_run then re_sub_non_alnum true rest
      else String "_" (re_sub_non_alnum true rest)
  end.

(** [s.strip(ch)] for one character [ch]. *)
Fixpoint lstrip_char (ch : ascii) (s : string) : string :=
  match s with
  | EmptyString => EmptyString
  | String c rest => if Ascii.eqb c ch then lstrip_char ch rest else s
  end.

Fixpoint rstrip_char (ch : ascii) (s : string) : string :=
  match s with
  | EmptyString => EmptyString
  | String c rest =>
      match rstrip_char ch rest with
      | EmptyString => if Ascii.eqb c ch then EmptyString else String c EmptyString
      | rest' => String c rest'
      end
  end.

Definition strip_char (ch : ascii) (s : string) : string :=
  rstrip_char ch (lstrip_char ch s).

Definition _build_filename_from_name (full_name : option string)
    (extension : string) : string :=
  if negb (truthy full_name) then "resume." +:+ extension
  else
    let slug :=
      strip_char "_"
        (re_sub_non_alnum false (py_lower (strip (default "" full_name)))) in
    let slug := if String.eqb slug "" then "resume" else slug in
    slug +:+ "_resume." +:+ extension.

(** Every character of a string passes a test. *)
Fixpoint string_forall (p : ascii → bool) (s : string) : bool :=
  match s with
  | EmptyString => true
  | String c rest => p c && string_forall p rest
  end.

(** A lower-case letter, a digit or an underscore. *)
Definition slug_char (c : ascii) : bool :=
  let n := N_of_ascii c in
  ((48 <=? n) && (n <=? 57) || (97 <=? n) && (n <=? 122) || (n =? 95))%N.

(** The events that end a response: a [complete] event or an error of
    the endpoint itself (an error event of a section is an [SseSection]). *)
Definition terminal (ev : Sse) : Prop :=
  match ev with
  | SseError _ _ | SseFeedback _ _ _ _ | SseComplete _ _ _ _ _ _ _ => True
  | SseMappingStart | SseMappingComplete _ | SseSection _ => False
  end.

(** The model's MappingResult as the mapping stage hands it on. *)
Definition normalized (m : MappingResult.t) : MappingResult.t :=
  MappingResult.mk (Some (default [] (MappingResult.matched_skills m)))
                   (Some (default [] (MappingResult.matched_requirements m)))
                   (Some (default [] (MappingResult.gaps m)))
                   (MappingResult.match_score m).

(** The merge stage can cope with the resume: no null list of the
    resume meets a non-empty enhanced list. *)
Definition mergeable (resume : Resume.t) (full_output : FullEnhancementOutput.t)
    : Prop :=
  (Resume.experiences resume = None → enhanced_experiences full_output = [])
  ∧ (Resume.projects resume = None → enhanced_projects full_output = []).

(** ** Further vocabulary: the validators *)

(** What [validate_projects] leaves in an enhanced project [p] whose
    original is [o]: the name goes back to the original's when it is a
    URL, the link when it is given and is not a URL. *)
Definition validated_project (p o : Project.t) : Project.t :=
  let name := if is_url (Project.project_name p)
              then Project.project_name o else Project.project_name p in
  let link := if truthy (Project.project_link p)
                 && negb (is_url (default "" (Project.project_link p)))
              then Project.project_link o else Project.project_link p in
  Project.mk name (Project.description p) link.

(** ** Further vocabulary: clock, sleeps and gateway calls *)

(** The world after [reads] more readings of the clock, [calls] more
    gateway calls and the sleeps [sleeps] (most recent first); the
    objects are as before. *)
Definition advance (reads calls : nat) (sleeps : list Z) (w : World) : World :=
  mkWorld (experience_objs w) (education_objs w) (project_objs w) (now w)
          (reads + clock_reads w) (sleeps ++ slept w) (calls + llm_calls w).

(** What the sequential orchestrator keeps of attempt [k] when it cannot
    use the reply: the text of the exception, its own when the reply
    has the wrong type. *)
Definition attempt_error (llm : LLM) (c : OutputClass) (k : nat) : string :=
  match with_structured_output llm c k with
  | Returns obj =>
      "LLM returned " +:+ type_name obj +:+ " instead of " +:+ class_name c
  | Raises e => exn_str e
  end.

(** The sections whose first attempt gives nothing usable, and so are
    tried a second time. *)
Definition retried (llm : LLM) (sections : list (string * OutputClass))
    : list (string * OutputClass) :=
  filter (λ nc, usable_reply llm nc.2 0 = None) sections.

(** The sections that end with a usable reply, and those that do not. *)
Definition succeeding (llm : LLM) (sections : list (string * OutputClass))
    : list (string * OutputClass) :=
  filter (λ nc, is_Some (first_usable llm nc.2 sectional_budget)) sections.

Definition failing (llm : LLM) (sections : list (string * OutputClass))
    : list (string * OutputClass) :=
  filter (λ nc, first_usable llm nc.2 sectional_budget = None) sections.

(** ** Further vocabulary: the streaming pass *)

(** The texts of the chunks of a stream, put end to end. *)
Definition stream_text (cs : list Chunk) : string :=
  foldr (λ chunk text, chunk_text_of chunk +:+ text) "" cs.

(** The delta texts of a run of events, put end to end. *)
Definition delta_texts (deltas : list Event) : string :=
  foldr (λ d text, default "" (delta_text d) +:+ text) "" deltas.

(** What attempt [k] at streaming a section gives when it can be used:
    the stream ended normally and its whole text parsed. *)
Definition stream_reply (json_loads_as : OutputClass → string → option PyObj)
    (llm : LLM) (section_name : string) (c : OutputClass) (k : nat)
    : option PyObj :=
  match failure (astream llm section_name k) with
  | Some _ => None
  | None =>
      _parse_section_json json_loads_as
        (stream_text (chunks (astream llm section_name k))) section_name c
  end.

Definition first_stream_reply
    (json_loads_as : OutputClass → string → option PyObj)
    (llm : LLM) (section_name : string) (c : OutputClass) : option PyObj :=
  match stream_reply json_loads_as llm section_name c 0 with
  | Some obj => Some obj
  | None => stream_reply json_loads_as llm section_name c 1
  end.

(** The error the streaming orchestrator keeps of attempt [k]. *)
Definition stream_error (llm : LLM) (section_name : string) (k : nat) : string :=
  match failure (astream llm section_name k) with
  | Some e => exn_str e
  | None => "Failed to parse LLM response as valid JSON for " +:+ section_name
  end.

(** The sections whose first streaming attempt gives nothing usable. *)
Definition stream_retried (json_loads_as : OutputClass → string → option PyObj)
    (llm : LLM) (sections : list (string * OutputClass))
    : list (string * OutputClass) :=
  filter (λ nc, stream_reply json_loads_as llm nc.1 nc.2 0 = None) sections.

(** A line break, and a reply wrapped in a Markdown code fence opened
    by [fence]. *)
Definition NL : string := String "010"%char "".

Definition fenced (fence body : string) : string :=
  fence +:+ NL +:+ body +:+ NL +:+ "```".

(** What [stream_all_sections] stores for a section: the reply of the
    streaming attempts, read back from the section_complete event. *)
Definition captured (json_loads_as : OutputClass → string → option PyObj)
    (reconstruct : OutputClass → PyObj → option PyObj)
    (llm : LLM) (section_name : string) (c : OutputClass) : option PyObj :=
  obj ← first_stream_reply json_loads_as llm section_name c;
  reconstruct c obj.

Module Sample2.

(** A model reply for a project whose name came back as a URL and whose
    link came back as plain words; the candidate's own entry is at 3. *)
Definition project_orig : Project.t :=
  Project.mk "Scheduler" ["A job scheduler"] (Some "https://example.org/s").
Definition project_bad : Project.t :=
  Project.mk "https://example.org/s" ["A distributed job scheduler"]
             (Some "see my website").

Definition world_projects : World :=
  mkWorld ∅ ∅ {[ 3%nat := project_orig; 31%nat := project_bad ]}
          (λ n, 1000 * Z.of_nat n) 0 [] 0.

(** Reading a dumped section output back gives the same object. *)
Definition reconstructs_same : OutputClass → PyObj → option PyObj :=
  λ c obj, if isinstance obj c then Some obj else None.

(** A parser that takes any text as the enhanced summary and rejects
    everything asked for another class. *)
Definition parses_summary : OutputClass → string → option PyObj :=
  λ c text,
    match c with
    | SummaryEnhancementOutputCls => Some (PySummaryOut (Enh.mk text []))
    | _ => None
    end.

(** A gateway that streams the same two chunks for every section and
    never breaks. *)
Definition llm_streams : LLM :=
  mkLLM (with_structured_output Sample.llm_down) (ainvoke Sample.llm_down)
        (λ _ _, mkStream [ChunkStr "Engineer ";
                          ChunkMessage (Some "with ten years")] None).

(** A request for the incremental endpoint. *)
Definition request : EnhanceRequest.t :=
  EnhanceRequest.mk Sample.resume_plain Sample.job (Some "incremental").

(** A gateway that maps with the given score and answers text calls
    with one sentence. *)
Definition llm_scores (score : Z) : LLM :=
  mkLLM (λ _ _, Returns (PyMappingResult (Sample.mapping score)))
        (λ _, Returns (StrContent "Keep going."))
        (astream llm_streams).

(** An incremental node that is never run in the examples. *)
Definition no_incremental_node
    : ResumeEnhancerState.t → option LLM → Py (FullEnhancementOutput.t * gmap string Z) :=
  λ _ _, raise (ValueError "not used").

(** The state a sectional request starts from. *)
Definition state_sectional : ResumeEnhancerState.t :=
  ResumeEnhancerState.mk (Some Sample.resume_plain) (Some Sample.job) None
                         None None None None (Some "sectional") ∅ ∅.

(** A gateway that maps with the given score and fails every other
    call. *)
Definition llm_maps_then_down (score : Z) : LLM :=
  mkLLM (λ c _, match c with
                | MappingResultCls => Returns (PyMappingResult (Sample.mapping score))
                | _ => Raises (GatewayError "Request timed out.")
                end)
        (ainvoke Sample.llm_down) (astream Sample.llm_down).


End Sample2.


(** * Properties *)

(** ** Running the monad *)

Lemma run_ret {A} (a : A) (w : World) : (mret a : Py A) w = (w, Returns a).
Proof. reflexivity. Qed.

Lemma run_bind {A B} (m : Py A) (k : A → Py B) (w w' : World) (a : A) :
  m w = (w', Returns a) → (m ≫= k) w = k a w'.
Proof. intros H. unfold mbind, Py_bind. by rewrite H. Qed.

Lemma run_bind_raise {A B} (m : Py A) (k : A → Py B) (w w' : World) (e : exn) :
  m w = (w', Raises e) → (m ≫= k) w = (w', Raises e).
Proof. intros H. unfold mbind, Py_bind. by rewrite H. Qed.

Lemma run_try_returns {A} (m : Py A) (h : exn → Py A) (w w' : World) (a : A) :
  m w = (w', Returns a) → try_except m h w = (w', Returns a).
Proof. intros H. unfold try_except. by rewrite H. Qed.

Lemma run_try_raises {A} (m : Py A) (h : exn → Py A) (w w' : World) (e : exn) :
  m w = (w', Raises e) → try_except m h w = h e w'.
Proof. intros H. unfold try_except. by rewrite H. Qed.

Lemma bind_assoc_run {A B C} (m : Py A) (f : A → Py B) (g : B → Py C) (w : World) :
  ((m ≫= f) ≫= g) w = (m ≫= (λ a, f a ≫= g)) w.
Proof. unfold mbind, Py_bind. by destruct (m w) as [w' [a|e]]. Qed.

Lemma try_reraise {A} (m : Py A) (w : World) : try_except m raise w = m w.
Proof. unfold try_except, raise. by destruct (m w) as [w' [a|e]]. Qed.

(** Unfold the primitive operations of the monad. *)
Ltac py_unfold :=
  unfold mbind, mret, Py_bind, Py_ret, try_except, raise, count_llm_call,
         sleep, time_time in *.

(** ** The routing gate *)

(** C3. For all integer scores S and thresholds T the gate answers
    "feedback" exactly when S < T and "enhance" exactly when T <= S; at
    the boundary S = T it answers "enhance".  The gate touches nothing
    in the world. *)
Theorem route_after_mapping_threshold
    (settings : Settings) (state : ResumeEnhancerState.t)
    (m : MappingResult.t) (w : World) :
  ResumeEnhancerState.mapping_result state = Some m →
  let S := MappingResult.match_score m in
  let T := SCORE_THRESHOLD settings in
  (route_after_mapping settings state w = (w, Returns "feedback") ↔ S < T)
  ∧ (route_after_mapping settings state w = (w, Returns "enhance") ↔ T ≤ S)
  ∧ (S = T → route_after_mapping settings state w = (w, Returns "enhance")).
Proof.
  intros Hm S T. unfold route_after_mapping, normalize_state. rewrite Hm.
  fold S T. destruct (decide (S < T)) as [Hlt|Hge]; rewrite run_ret.
  - split_and!; [split; [done|reflexivity] | split; [discriminate|lia] | lia].
  - split_and!; [split; [discriminate|lia] | split; [lia|reflexivity] | reflexivity].
Qed.

(** ** The mapping stage *)

(** C4. Whatever MappingResult the model returns, the mapping stage
    raises when match_score lies outside [1,10] (no clamping, no
    default), and otherwise returns a MappingResult with the same score
    whose list fields are the model's lists, an empty list standing in
    for every null one. *)
Theorem mapping_stage_validates_score
    (state : ResumeEnhancerState.t) (llm : LLM) (result : MappingResult.t)
    (w : World) :
  is_Some (ResumeEnhancerState.resume state) →
  is_Some (ResumeEnhancerState.job_description state) →
  with_structured_output llm MappingResultCls 0 = Returns (PyMappingResult result) →
  let s := MappingResult.match_score result in
  (¬ (1 ≤ s ∧ s ≤ 10) → raised (mapping_node state (Some llm) w).2)
  ∧ (1 ≤ s ∧ s ≤ 10 →
     (mapping_node state (Some llm) w).2 =
       Returns (MappingResult.mk
                  (Some (default [] (MappingResult.matched_skills result)))
                  (Some (default [] (MappingResult.matched_requirements result)))
                  (Some (default [] (MappingResult.gaps result)))
                  s)).
Proof.
  intros [resume Hr] [jd Hj] Hllm s.
  unfold mapping_node, normalize_state, _get_resume_and_jd. rewrite Hr, Hj.
  unfold invoke_structured. rewrite Hllm.
  unfold _validate_and_normalize_mapping_result, MappingResult_new. fold s.
  py_unfold. cbn -[pretty].
  split; intros Hs.
  - by rewrite bool_decide_eq_false_2.
  - rewrite bool_decide_eq_true_2 by done. cbn.
    by rewrite decide_True.
Qed.

(** The validation step on its own: the score survives unchanged or the
    step raises; it is never replaced by another value. *)
Lemma validate_and_normalize_score (result r : MappingResult.t) (w w' : World) :
  _validate_and_normalize_mapping_result result w = (w', Returns r) →
  MappingResult.match_score r = MappingResult.match_score result
  ∧ 1 ≤ MappingResult.match_score r ≤ 10
  ∧ MappingResult.matched_skills r ≠ None
  ∧ MappingResult.matched_requirements r ≠ None
  ∧ MappingResult.gaps r ≠ None.
Proof.
  unfold _validate_and_normalize_mapping_result, MappingResult_new.
  py_unfold. case_bool_decide as Hs; cbn -[pretty]; [|discriminate].
  rewrite decide_True by done. intros [= <- <-]. by cbn.
Qed.

(** ** The merge stage *)

(** C6. Merging a resume with the empty FullEnhancementOutput returns
    that very resume and leaves every object as it was. *)
Theorem merge_empty_output_identity (resume : Resume.t) (w : World) :
  _build_enhanced_resume resume FullEnhancementOutput.new w = (w, Returns resume).
Proof. by destruct resume. Qed.

Lemma route_after_mapping_threshold_witness :
  route_after_mapping (mkSettings 7) (Sample.state_mapped 7) Sample.world
  = (Sample.world, Returns "enhance").
Proof.
  refine (proj2 (proj2 (route_after_mapping_threshold
            (mkSettings 7) (Sample.state_mapped 7) (Sample.mapping 7)
            Sample.world _)) _); reflexivity.
Defined.

Lemma mapping_stage_validates_score_witness :
  raised (mapping_node Sample.state_initial
            (Some (Sample.llm_maps (Sample.mapping 11))) Sample.world).2
  ∧ (mapping_node Sample.state_initial
       (Some (Sample.llm_maps (Sample.mapping 10))) Sample.world).2
    = Returns (MappingResult.mk (Some ["python"]) (Some []) (Some ["kubernetes"]) 10).
Proof.
  split.
  - refine (proj1 (mapping_stage_validates_score Sample.state_initial
              (Sample.llm_maps (Sample.mapping 11)) (Sample.mapping 11)
              Sample.world _ _ _) _);
      [eexists; reflexivity | eexists; reflexivity | reflexivity | cbn; lia].
  - refine (proj2 (mapping_stage_validates_score Sample.state_initial
              (Sample.llm_maps (Sample.mapping 10)) (Sample.mapping 10)
              Sample.world _ _ _) _);
      [eexists; reflexivity | eexists; reflexivity | reflexivity | cbn; lia].
Defined.

(** ** The feedback stage *)

Lemma lstrip_empty (s : string) : lstrip s = "" ↔ whitespace_only s = true.
Proof.
  induction s as [|c s IH]; cbn; [done|].
  destruct (py_isspace c); cbn; [done|]. split; discriminate.
Qed.

Lemma rstrip_empty (s : string) : rstrip s = "" ↔ whitespace_only s = true.
Proof.
  induction s as [|c s IH]; cbn; [done|].
  destruct (rstrip s) eqn:Hr.
  - destruct (py_isspace c); cbn; [tauto|]. split; discriminate.
  - split; [discriminate|]. intros [_ Hs]%andb_prop.
    apply IH in Hs. discriminate.
Qed.

Lemma lstrip_whitespace_only (s : string) :
  whitespace_only (lstrip s) = true → whitespace_only s = true.
Proof.
  induction s as [|c s IH]; cbn; [done|].
  destruct (py_isspace c) eqn:Hc; cbn; [done|]. by rewrite Hc.
Qed.

(** [s.strip()] is falsy exactly for the empty and the whitespace-only
    strings. *)
Lemma strip_empty (s : string) : strip s = "" ↔ whitespace_only s = true.
Proof.
  unfold strip. rewrite rstrip_empty. split.
  - apply lstrip_whitespace_only.
  - intros Hs. apply lstrip_empty in Hs. by rewrite Hs.
Qed.

(** C9. The feedback stage returns non-empty text or fails: whatever it
    returns has a non-whitespace character; a model response whose
    content is not a string, is empty or is whitespace only makes it
    raise; and a response with usable text is returned as it is. *)
Theorem feedback_nonempty_or_fails
    (settings : Settings) (state : ResumeEnhancerState.t) (llm : option LLM)
    (w : World) :
  (∀ text, (feedback_node settings state llm w).2 = Returns text →
           text ≠ "" ∧ whitespace_only text = false)
  ∧ (∀ gateway content,
       llm = Some gateway → ainvoke gateway 0 = Returns content →
       degenerate content →
       raised (feedback_node settings state llm w).2)
  ∧ (∀ gateway text,
       is_Some (ResumeEnhancerState.mapping_result state) →
       llm = Some gateway → ainvoke gateway 0 = Returns (StrContent text) →
       whitespace_only text = false →
       (feedback_node settings state llm w).2 = Returns text).
Proof.
  unfold feedback_node, normalize_state, _get_mapping_result, invoke_text.
  rewrite try_reraise.
  destruct (ResumeEnhancerState.mapping_result state) as [m|];
    [|py_unfold; cbn; split_and!; [done | done | by intros ?? []]].
  destruct llm as [gateway|]; [|py_unfold; cbn; split_and!; done].
  py_unfold; cbn.
  destruct (ainvoke gateway 0) as [[s|parts|]|e] eqn:Hreply; cbn;
    try (split_and!;
         [done | done
          | intros g t _ [= <-] Hc; rewrite Hreply in Hc; discriminate]).
  destruct (String.eqb (strip s) "") eqn:Hstrip; cbn.
  - apply String.eqb_eq, strip_empty in Hstrip. split_and!; [done| done|].
    intros g t _ [= <-] Hc Ht. rewrite Hreply in Hc.
    injection Hc as <-. congruence.
  - apply String.eqb_neq in Hstrip.
    assert (whitespace_only s = false) as Hws.
    { destruct (whitespace_only s) eqn:E; [|done].
      by apply strip_empty in E. }
    split_and!.
    + intros text [= <-]. split; [|done]. by intros ->.
    + intros g c [= <-] Hc Hd. rewrite Hreply in Hc.
      injection Hc as <-. cbn in Hd. congruence.
    + intros g t _ [= <-] Hc _. rewrite Hreply in Hc. by injection Hc as <-.
Qed.

Lemma feedback_nonempty_or_fails_witness :
  raised (feedback_node (mkSettings 7) (Sample.state_mapped 4)
            (Some (Sample.llm_says (StrContent "   "))) Sample.world).2
  ∧ (feedback_node (mkSettings 7) (Sample.state_mapped 4)
       (Some (Sample.llm_says (StrContent "Keep going."))) Sample.world).2
    = Returns "Keep going.".
Proof.
  split.
  - refine (proj1 (proj2 (feedback_nonempty_or_fails (mkSettings 7)
              (Sample.state_mapped 4) _ Sample.world))
              (Sample.llm_says (StrContent "   ")) (StrContent "   ") _ _ _);
      reflexivity.
  - refine (proj2 (proj2 (feedback_nonempty_or_fails (mkSettings 7)
              (Sample.state_mapped 4) _ Sample.world))
              (Sample.llm_says (StrContent "Keep going.")) "Keep going." _ _ _ _);
      [eexists; reflexivity | reflexivity | reflexivity | reflexivity].
Defined.

(** ** The report stage *)

(** C8, as the claim states it, fails: with change reasons to summarise
    and a gateway whose call times out, the report stage does not raise;
    it returns an absent report. *)
Lemma report_gateway_failure_not_propagated :
  ainvoke Sample.llm_down 0 = Raises (GatewayError "Request timed out.")
  ∧ _collect_reasons Sample.full_output_summary = [Sample.reason]
  ∧ ¬ raised (report_node Sample.state_enhanced (Some Sample.llm_down)
                Sample.world).2
  ∧ (report_node Sample.state_enhanced (Some Sample.llm_down) Sample.world).2
    = Returns None.
Proof. split_and!; [reflexivity | reflexivity | intros [] | reflexivity]. Qed.

(** C8, amended. When the gateway call made by the report stage fails,
    the call is not repeated (one call is counted) and the failure stays
    inside the stage: the stage returns, and the report is absent. *)
Theorem report_gateway_failure_absorbed
    (state : ResumeEnhancerState.t) (llm : LLM)
    (full_output : FullEnhancementOutput.t) (e : exn) (w : World) :
  ResumeEnhancerState.full_enhancement_output state = Some full_output →
  _collect_reasons full_output ≠ [] →
  ainvoke llm 0 = Raises e →
  ∃ w', report_node state (Some llm) w = (w', Returns None)
        ∧ llm_calls w' = S (llm_calls w)
        ∧ w' = (count_llm_call w).1.
Proof.
  intros Hfo Hreasons Hfail.
  unfold report_node, normalize_state, _get_full_output, invoke_text.
  rewrite Hfo. py_unfold. cbn.
  destruct (_collect_reasons full_output) as [|r rs]; [done|]. cbn.
  rewrite Hfail. cbn. eauto.
Qed.

Lemma report_gateway_failure_absorbed_witness :
  ∃ w', report_node Sample.state_enhanced (Some Sample.llm_down) Sample.world
        = (w', Returns None)
        ∧ llm_calls w' = S (llm_calls Sample.world)
        ∧ w' = (count_llm_call Sample.world).1.
Proof.
  apply (report_gateway_failure_absorbed Sample.state_enhanced Sample.llm_down
           Sample.full_output_summary (GatewayError "Request timed out."));
    [reflexivity | discriminate | reflexivity].
Defined.

(** ** The validators *)

Lemma only_experiences_differ_refl (L : list loc) (w : World) :
  only_experiences_differ L w w.
Proof. by repeat split. Qed.

Lemma only_experiences_differ_trans (L : list loc) (w1 w2 w3 : World) :
  only_experiences_differ L w1 w2 → only_experiences_differ L w2 w3 →
  only_experiences_differ L w1 w3.
Proof.
  intros (Ha & ? & ? & ? & ? & ? & ?) (Hb & ? & ? & ? & ? & ? & ?).
  split_and!; try congruence. intros l Hl. rewrite Hb, Ha; done.
Qed.

Lemma only_experiences_differ_mono (L L' : list loc) (w w' : World) :
  L ⊆ L' → only_experiences_differ L w w' → only_experiences_differ L' w w'.
Proof.
  intros Hsub (Ha & ?). split; [|done]. intros l Hl. apply Ha.
  intros Hin. apply Hl. by apply Hsub.
Qed.

Lemma only_experiences_differ_read (L : list loc) (w w' : World) (l : loc) :
  only_experiences_differ L w w' → l ∉ L →
  experience_objs w' !!! l = experience_objs w !!! l.
Proof. intros (H & _) Hl. by rewrite !lookup_total_alt, H. Qed.

(** One protected field of [exp] is brought back to the value of
    [original[i]]; the object is otherwise as before or has had just
    that field assigned. *)
Lemma revert_experience_field_run {V} `{EqDecision V}
    (get : Experience.t → V) (set : V → Experience.t → Experience.t)
    (exp : loc) (orig : list loc) (i : nat) (o : loc) (w : World) :
  orig !! i = Some o →
  (∀ v e, get (set v e) = v) →
  ∃ w', revert_experience_field get set exp (Some orig) i w = (w', Returns tt)
        ∧ only_experiences_differ [exp] w w'
        ∧ get (experience_objs w' !!! exp) = get (experience_objs w !!! o)
        ∧ (experience_objs w' !!! exp = experience_objs w !!! exp
           ∨ experience_objs w' !!! exp
             = set (get (experience_objs w !!! o)) (experience_objs w !!! exp)).
Proof.
  intros Hi Hgs. unfold revert_experience_field, read_experience,
    assign_experience, py_getitem. rewrite Hi. py_unfold. cbn.
  case_decide as Hne; cbn.
  - eexists. split; [reflexivity|]. cbn. split_and!.
    + split_and!; try done. cbn. intros l Hl.
      apply lookup_insert_ne. set_solver.
    + by rewrite lookup_total_insert_eq, Hgs.
    + right. by rewrite lookup_total_insert_eq.
  - eexists. split; [reflexivity|]. split_and!.
    + apply only_experiences_differ_refl.
    + done.
    + by left.
Qed.

(** The loop of [validate_experiences] on a list [orig], when the
    enhanced entries are distinct objects and none of them is an entry
    of the original list: it ends normally, touches only the enhanced
    entries, and leaves every enhanced entry that has an original at its
    index with that original's protected fields. *)
Lemma validate_experiences_from_run (orig : list loc) :
  ∀ (enhanced : list loc) (i : nat) (w : World),
    NoDup enhanced → (∀ l, l ∈ enhanced → l ∉ orig) →
    ∃ w', validate_experiences_from i enhanced (Some orig) w = (w', Returns tt)
          ∧ only_experiences_differ enhanced w w'
          ∧ ∀ j e o, enhanced !! j = Some e → orig !! (i + j)%nat = Some o →
              same_protected_experience (experience_objs w' !!! e)
                                        (experience_objs w !!! o).
Proof.
  induction enhanced as [|exp rest IH]; intros i w Hnd Hdisj.
  { exists w. split_and!; [done | apply only_experiences_differ_refl | done]. }
  apply NoDup_cons in Hnd as [Hexp Hnd].
  cbn [validate_experiences_from]. unfold py_len.
  rewrite (run_bind _ _ w w (length orig)) by reflexivity.
  destruct (decide (length orig ≤ i)%nat) as [Hbreak|Hin].
  { exists w. split_and!; [done | apply only_experiences_differ_refl |].
    intros j e o _ Ho. apply lookup_lt_Some in Ho. lia. }
  destruct (lookup_lt_is_Some_2 orig i) as [o0 Hi]; [lia|].
  assert (o0 ∉ [exp]) as Ho0.
  { intros ->%list_elem_of_singleton.
    apply (Hdisj exp); [left | by eapply list_elem_of_lookup_2]. }
  destruct (revert_experience_field_run Experience.start_date
              Experience.set_start_date exp orig i o0 w Hi)
    as (w1 & E1 & F1 & G1 & D1); [done|].
  destruct (revert_experience_field_run Experience.end_date
              Experience.set_end_date exp orig i o0 w1 Hi)
    as (w2 & E2 & F2 & G2 & D2); [done|].
  destruct (revert_experience_field_run Experience.company_name
              Experience.set_company_name exp orig i o0 w2 Hi)
    as (w3 & E3 & F3 & G3 & D3); [done|].
  destruct (revert_experience_field_run Experience.role_title
              Experience.set_role_title exp orig i o0 w3 Hi)
    as (w4 & E4 & F4 & G4 & D4); [done|].
  destruct (IH (S i) w4 Hnd) as (w' & E & F & P).
  { intros l Hl. apply Hdisj. by right. }
  exists w'.
  rewrite (run_bind _ _ _ _ _ E1), (run_bind _ _ _ _ _ E2),
          (run_bind _ _ _ _ _ E3), (run_bind _ _ _ _ _ E4), E.
  pose proof (only_experiences_differ_read _ _ _ o0 F1 Ho0) as R1.
  pose proof (only_experiences_differ_read _ _ _ o0 F2 Ho0) as R2.
  pose proof (only_experiences_differ_read _ _ _ o0 F3 Ho0) as R3.
  assert (only_experiences_differ [exp] w w4) as F14.
  { eauto using only_experiences_differ_trans. }
  split_and!; [done | |].
  - eapply only_experiences_differ_trans.
    + eapply only_experiences_differ_mono; [|exact F14].
      intros x ->%list_elem_of_singleton. left.
    + eapply only_experiences_differ_mono; [|exact F].
      intros x Hx. by right.
  - intros [|j] e o He Ho.
    + injection He as <-. rewrite Nat.add_0_r, Hi in Ho. injection Ho as <-.
      rewrite (only_experiences_differ_read _ _ _ exp F Hexp).
      rewrite R3, R2, R1 in G4. rewrite R2, R1 in G3. rewrite R1 in G2.
      unfold same_protected_experience.
      destruct D4 as [D4|D4], D3 as [D3|D3], D2 as [D2|D2];
        rewrite ?D4, ?D3, ?D2 in *; cbn in *; rewrite ?D4, ?D3, ?D2 in *;
        cbn in *; split_and!; congruence.
    + cbn in He. rewrite <- Nat.add_succ_comm in Ho.
      specialize (P j e o He Ho).
      assert (o ∉ [exp]) as Ho'.
      { intros ->%list_elem_of_singleton.
        apply (Hdisj exp); [left | by eapply list_elem_of_lookup_2]. }
      by rewrite (only_experiences_differ_read _ _ _ o F14 Ho') in P.
Qed.

Lemma only_educations_differ_refl (L : list loc) (w : World) :
  only_educations_differ L w w.
Proof. by repeat split. Qed.

Lemma only_educations_differ_trans (L : list loc) (w1 w2 w3 : World) :
  only_educations_differ L w1 w2 → only_educations_differ L w2 w3 →
  only_educations_differ L w1 w3.
Proof.
  intros (Ha & ? & ? & ? & ? & ? & ?) (Hb & ? & ? & ? & ? & ? & ?).
  split_and!; try congruence. intros l Hl. rewrite Hb, Ha; done.
Qed.

Lemma only_educations_differ_mono (L L' : list loc) (w w' : World) :
  L ⊆ L' → only_educations_differ L w w' → only_educations_differ L' w w'.
Proof.
  intros Hsub (Ha & ?). split; [|done]. intros l Hl. apply Ha.
  intros Hin. apply Hl. by apply Hsub.
Qed.

Lemma only_educations_differ_read (L : list loc) (w w' : World) (l : loc) :
  only_educations_differ L w w' → l ∉ L →
  education_objs w' !!! l = education_objs w !!! l.
Proof. intros (H & _) Hl. by rewrite !lookup_total_alt, H. Qed.

(** One protected field of [edu] is brought back to the value of
    [original[i]]; the object is otherwise as before or has had just
    that field assigned. *)
Lemma revert_education_field_run {V} `{EqDecision V}
    (get : Education.t → V) (set : V → Education.t → Education.t)
    (edu : loc) (orig : list loc) (i : nat) (o : loc) (w : World) :
  orig !! i = Some o →
  (∀ v e, get (set v e) = v) →
  ∃ w', revert_education_field get set edu (Some orig) i w = (w', Returns tt)
        ∧ only_educations_differ [edu] w w'
        ∧ get (education_objs w' !!! edu) = get (education_objs w !!! o)
        ∧ (education_objs w' !!! edu = education_objs w !!! edu
           ∨ education_objs w' !!! edu
             = set (get (education_objs w !!! o)) (education_objs w !!! edu)).
Proof.
  intros Hi Hgs. unfold revert_education_field, read_education,
    assign_education, py_getitem. rewrite Hi. py_unfold. cbn.
  case_decide as Hne; cbn.
  - eexists. split; [reflexivity|]. cbn. split_and!.
    + split_and!; try done. cbn. intros l Hl.
      apply lookup_insert_ne. set_solver.
    + by rewrite lookup_total_insert_eq, Hgs.
    + right. by rewrite lookup_total_insert_eq.
  - eexists. split; [reflexivity|]. split_and!.
    + apply only_educations_differ_refl.
    + done.
    + by left.
Qed.

(** The loop of [validate_educations] on a list [orig], when the
    enhanced entries are distinct objects and none of them is an entry
    of the original list: it ends normally, touches only the enhanced
    entries, and leaves every enhanced entry that has an original at its
    index with that original's protected fields. *)
Lemma validate_educations_from_run (orig : list loc) :
  ∀ (enhanced : list loc) (i : nat) (w : World),
    NoDup enhanced → (∀ l, l ∈ enhanced → l ∉ orig) →
    ∃ w', validate_educations_from i enhanced (Some orig) w = (w', Returns tt)
          ∧ only_educations_differ enhanced w w'
          ∧ ∀ j e o, enhanced !! j = Some e → orig !! (i + j)%nat = Some o →
              same_protected_education (education_objs w' !!! e)
                                        (education_objs w !!! o).
Proof.
  induction enhanced as [|edu rest IH]; intros i w Hnd Hdisj.
  { exists w. split_and!; [done | apply only_educations_differ_refl | done]. }
  apply NoDup_cons in Hnd as [Hedu Hnd].
  cbn [validate_educations_from]. unfold py_len.
  rewrite (run_bind _ _ w w (length orig)) by reflexivity.
  destruct (decide (length orig ≤ i)%nat) as [Hbreak|Hin].
  { exists w. split_and!; [done | apply only_educations_differ_refl |].
    intros j e o _ Ho. apply lookup_lt_Some in Ho. lia. }
  destruct (lookup_lt_is_Some_2 orig i) as [o0 Hi]; [lia|].
  assert (o0 ∉ [edu]) as Ho0.
  { intros ->%list_elem_of_singleton.
    apply (Hdisj edu); [left | by eapply list_elem_of_lookup_2]. }
  destruct (revert_education_field_run Education.start_date
              Education.set_start_date edu orig i o0 w Hi)
    as (w1 & E1 & F1 & G1 & D1); [done|].
  destruct (revert_education_field_run Education.end_date
              Education.set_end_date edu orig i o0 w1 Hi)
    as (w2 & E2 & F2 & G2 & D2); [done|].
  destruct (revert_education_field_run Education.university_name
              Education.set_university_name edu orig i o0 w2 Hi)
    as (w3 & E3 & F3 & G3 & D3); [done|].
  destruct (revert_education_field_run Education.degree
              Education.set_degree edu orig i o0 w3 Hi)
    as (w4 & E4 & F4 & G4 & D4); [done|].
  destruct (IH (S i) w4 Hnd) as (w' & E & F & P).
  { intros l Hl. apply Hdisj. by right. }
  exists w'.
  rewrite (run_bind _ _ _ _ _ E1), (run_bind _ _ _ _ _ E2),
          (run_bind _ _ _ _ _ E3), (run_bind _ _ _ _ _ E4), E.
  pose proof (only_educations_differ_read _ _ _ o0 F1 Ho0) as R1.
  pose proof (only_educations_differ_read _ _ _ o0 F2 Ho0) as R2.
  pose proof (only_educations_differ_read _ _ _ o0 F3 Ho0) as R3.
  assert (only_educations_differ [edu] w w4) as F14.
  { eauto using only_educations_differ_trans. }
  split_and!; [done | |].
  - eapply only_educations_differ_trans.
    + eapply only_educations_differ_mono; [|exact F14].
      intros x ->%list_elem_of_singleton. left.
    + eapply only_educations_differ_mono; [|exact F].
      intros x Hx. by right.
  - intros [|j] e o He Ho.
    + injection He as <-. rewrite Nat.add_0_r, Hi in Ho. injection Ho as <-.
      rewrite (only_educations_differ_read _ _ _ edu F Hedu).
      rewrite R3, R2, R1 in G4. rewrite R2, R1 in G3. rewrite R1 in G2.
      unfold same_protected_education.
      destruct D4 as [D4|D4], D3 as [D3|D3], D2 as [D2|D2];
        rewrite ?D4, ?D3, ?D2 in *; cbn in *; rewrite ?D4, ?D3, ?D2 in *;
        cbn in *; split_and!; congruence.
    + cbn in He. rewrite <- Nat.add_succ_comm in Ho.
      specialize (P j e o He Ho).
      assert (o ∉ [edu]) as Ho'.
      { intros ->%list_elem_of_singleton.
        apply (Hdisj edu); [left | by eapply list_elem_of_lookup_2]. }
      by rewrite (only_educations_differ_read _ _ _ o F14 Ho') in P.
Qed.

(** C2. Take the enhanced entries to be distinct objects, none of them
    an entry of the original list (they are built from the model's
    reply).  Then each validator returns the enhanced list, and at every
    index present in both lists the enhanced experience has the
    start_date, end_date, company_name and role_title of the original at
    that index, and the enhanced education the start_date, end_date,
    university_name and degree of the original at that index, whatever
    these fields held before; the originals themselves are untouched. *)
Theorem validation_restores_protected_fields
    (w : World) (enh_exps orig_exps enh_edus orig_edus : list loc) :
  NoDup enh_exps → (∀ l, l ∈ enh_exps → l ∉ orig_exps) →
  NoDup enh_edus → (∀ l, l ∈ enh_edus → l ∉ orig_edus) →
  (∃ w', validate_experiences enh_exps (Some orig_exps) w = (w', Returns enh_exps)
         ∧ ∀ i e o, enh_exps !! i = Some e → orig_exps !! i = Some o →
             same_protected_experience (experience_objs w' !!! e)
                                       (experience_objs w !!! o)
             ∧ experience_objs w' !!! o = experience_objs w !!! o)
  ∧ (∃ w', validate_educations enh_edus (Some orig_edus) w = (w', Returns enh_edus)
           ∧ ∀ i e o, enh_edus !! i = Some e → orig_edus !! i = Some o →
               same_protected_education (education_objs w' !!! e)
                                        (education_objs w !!! o)
               ∧ education_objs w' !!! o = education_objs w !!! o).
Proof.
  intros Hnd1 Hd1 Hnd2 Hd2. split.
  - destruct (validate_experiences_from_run orig_exps enh_exps 0 w Hnd1 Hd1)
      as (w' & E & F & P).
    exists w'. unfold validate_experiences.
    rewrite (run_bind _ _ _ _ _ E). split; [done|].
    intros i e o He Ho. split; [by apply (P i)|].
    apply (only_experiences_differ_read _ _ _ _ F).
    intros Hin. apply (Hd1 o Hin). by eapply list_elem_of_lookup_2.
  - destruct (validate_educations_from_run orig_edus enh_edus 0 w Hnd2 Hd2)
      as (w' & E & F & P).
    exists w'. unfold validate_educations.
    rewrite (run_bind _ _ _ _ _ E). split; [done|].
    intros i e o He Ho. split; [by apply (P i)|].
    apply (only_educations_differ_read _ _ _ _ F).
    intros Hin. apply (Hd2 o Hin). by eapply list_elem_of_lookup_2.
Qed.

Lemma validation_restores_protected_fields_witness :
  (∃ w', validate_experiences [10%nat] (Some [1%nat]) Sample.world_objs
         = (w', Returns [10%nat])
         ∧ ∀ i e o, [10%nat] !! i = Some e → [1%nat] !! i = Some o →
             same_protected_experience (experience_objs w' !!! e)
                                       (experience_objs Sample.world_objs !!! o)
             ∧ experience_objs w' !!! o = experience_objs Sample.world_objs !!! o)
  ∧ (∃ w', validate_educations [20%nat] (Some [2%nat]) Sample.world_objs
           = (w', Returns [20%nat])
           ∧ ∀ i e o, [20%nat] !! i = Some e → [2%nat] !! i = Some o →
               same_protected_education (education_objs w' !!! e)
                                        (education_objs Sample.world_objs !!! o)
               ∧ education_objs w' !!! o = education_objs Sample.world_objs !!! o).
Proof.
  apply (validation_restores_protected_fields Sample.world_objs
           [10%nat] [1%nat] [20%nat] [2%nat]).
  - apply NoDup_singleton.
  - intros l ->%list_elem_of_singleton [=]%list_elem_of_singleton.
  - apply NoDup_singleton.
  - intros l ->%list_elem_of_singleton [=]%list_elem_of_singleton.
Defined.

(** On the sample objects the validator really has something to undo:
    the model's entry starts with other dates and another company. *)
Example validate_experiences_sample :
  Experience.start_date (experience_objs Sample.world_objs !!! 10%nat)
    ≠ Experience.start_date (experience_objs Sample.world_objs !!! 1%nat)
  ∧ experience_objs
      (validate_experiences [10%nat] (Some [1%nat]) Sample.world_objs).1 !!! 10%nat
    = Experience.mk "Engineer" "Initech" (Sample.date 2019 3 1)
                    (Some (Sample.date 2022 6 30))
                    ["Delivered reporting pipelines"] false.
Proof. split; [by vm_compute | by vm_compute]. Qed.

(** ** The sequential orchestrator *)

Lemma same_objects_refl (w : World) : same_objects w w.
Proof. by repeat split. Qed.

Lemma same_objects_trans (w1 w2 w3 : World) :
  same_objects w1 w2 → same_objects w2 w3 → same_objects w1 w3.
Proof. intros (?&?&?) (?&?&?). split_and!; congruence. Qed.

Lemma time_time_run (w : World) :
  ∃ w', time_time w = (w', Returns (now w (clock_reads w))) ∧ same_objects w w'.
Proof. eexists. split; [reflexivity|]. by repeat split. Qed.

Lemma usable_reply_isinstance (llm : LLM) (c : OutputClass) (k : nat) (obj : PyObj) :
  usable_reply llm c k = Some obj → isinstance obj c = true.
Proof.
  unfold usable_reply. destruct (with_structured_output llm c k) as [o|]; [|done].
  destruct (isinstance o c) eqn:E; [|done]. by intros [= <-].
Qed.

Lemma first_usable_isinstance (llm : LLM) (c : OutputClass) (attempts : list nat)
    (obj : PyObj) :
  first_usable llm c attempts = Some obj → isinstance obj c = true.
Proof.
  induction attempts as [|k rest IH]; cbn; [done|].
  destruct (usable_reply llm c k) eqn:E; [|done].
  intros [= <-]. by eapply usable_reply_isinstance.
Qed.

(** The retry loop always comes back: with the first usable reply and
    no error, or with nothing and the error carried so far when no
    attempt gives a usable reply.  It touches no object. *)
Lemma _enhance_single_section_from_run
    (section_name : string) (c : OutputClass) (llm : LLM) :
  ∀ (attempts : list nat) (last_error : option string) (w : World),
    ∃ w' err,
      _enhance_single_section_from attempts last_error section_name c llm w
      = (w', Returns (first_usable llm c attempts, err))
      ∧ same_objects w w' ∧ now w' = now w ∧ clock_reads w' = clock_reads w
      ∧ (is_Some (first_usable llm c attempts) → err = None)
      ∧ (first_usable llm c attempts = None → attempts ≠ [] → is_Some err)
      ∧ (attempts = [] → err = last_error).
Proof.
  induction attempts as [|k rest IH]; intros last_error w.
  { exists w, last_error. cbn.
    split_and!; [done | apply same_objects_refl | done | done
                 | by intros [] | done | done]. }
  assert (∀ (msg : string) (w1 : World),
            same_objects w w1 → now w1 = now w → clock_reads w1 = clock_reads w →
            first_usable llm c (k :: rest) = first_usable llm c rest →
            ∃ w' err,
              _enhance_single_section_from rest (Some msg) section_name c llm w1
              = (w', Returns (first_usable llm c (k :: rest), err))
              ∧ same_objects w w' ∧ now w' = now w ∧ clock_reads w' = clock_reads w
              ∧ (is_Some (first_usable llm c (k :: rest)) → err = None)
              ∧ (first_usable llm c (k :: rest) = None → k :: rest ≠ [] → is_Some err)
              ∧ (k :: rest = [] → err = last_error)) as Hnext.
  { intros msg w1 Hobj1 Hnow1 Hclk1 Hfu. rewrite Hfu.
    destruct (IH (Some msg) w1)
      as (w' & err & E & Hobj & Hnow & Hclk & Hsome & Hnone & Hnil).
    exists w', err. split_and!; try done.
    - by eapply same_objects_trans.
    - congruence.
    - congruence.
    - intros Hfu' _. destruct rest as [|k' rest']; [|by apply Hnone].
      rewrite Hnil by done. by eexists. }
  cbn [_enhance_single_section_from]. unfold invoke_structured.
  assert (usable_reply llm c k = None →
          first_usable llm c (k :: rest) = first_usable llm c rest) as Hskip.
  { intros Hu. cbn. by rewrite Hu. }
  unfold usable_reply in Hskip.
  destruct (with_structured_output llm c k) as [obj|e] eqn:Hreply.
  - destruct (isinstance obj c) eqn:Hinst.
    + py_unfold. cbn. unfold usable_reply. rewrite Hreply, Hinst. cbn.
      eexists _, None. split; [reflexivity|]. cbn.
      split_and!; try done.
    + py_unfold. cbn. rewrite Hinst. cbn.
      destruct (decide (k < 1)%nat) as [Hk|Hk].
      * assert (k = 0%nat) as -> by lia.
        cbn. apply Hnext; [by repeat split | done | done | by apply Hskip].
      * cbn. apply Hnext; [by repeat split | done | done | by apply Hskip].
  - py_unfold. cbn.
    destruct (decide (k < 1)%nat) as [Hk|Hk].
    + assert (k = 0%nat) as -> by lia.
      cbn. apply Hnext; [by repeat split | done | done | by apply Hskip].
    + cbn. apply Hnext; [by repeat split | done | done | by apply Hskip].
Qed.

Lemma getattr_setattr_ne (fo : FullEnhancementOutput.t) (n n' : string) (obj : PyObj) :
  n' ≠ n → getattr_section (setattr_section fo n obj) n' = getattr_section fo n'.
Proof.
  intros Hne. destruct fo. unfold setattr_section, getattr_section.
  repeat case_decide; subst; try done; by destruct obj.
Qed.

Lemma getattr_setattr_eq (fo : FullEnhancementOutput.t) (n : string)
    (c : OutputClass) (obj : PyObj) :
  (n, c) ∈ SECTIONAL_SECTIONS → isinstance obj c = true →
  getattr_section (setattr_section fo n obj) n = Some obj.
Proof.
  intros Hin Hinst. destruct fo. unfold SECTIONAL_SECTIONS in Hin.
  apply bool_decide_eq_true in Hinst.
  repeat (apply elem_of_cons in Hin as [[= -> ->]|Hin];
          [by destruct obj|]).
  by apply elem_of_nil in Hin.
Qed.

Lemma getattr_new (n : string) : getattr_section FullEnhancementOutput.new n = None.
Proof. unfold getattr_section. by repeat case_decide. Qed.

(** The section loop: it always ends; it touches no object; a section
    not in the list keeps its slot, its error entry and its timing; a
    section in the list gets a timing, and either its slot (the first
    usable reply) or an error entry, the other being left alone. *)
Lemma sectional_loop_run (llm : LLM) :
  ∀ (sections : list (string * OutputClass)) (acc : SectionalAcc) (w : World),
    sections ⊆ SECTIONAL_SECTIONS → NoDup sections.*1 →
    ∃ w' acc',
      sectional_loop sections llm acc w = (w', Returns acc')
      ∧ same_objects w w'
      ∧ (∀ n, n ∉ sections.*1 →
           getattr_section (acc_full_output acc') n
           = getattr_section (acc_full_output acc) n
           ∧ acc_section_errors acc' !! n = acc_section_errors acc !! n
           ∧ acc_section_timings acc' !! n = acc_section_timings acc !! n)
      ∧ (∀ n c, (n, c) ∈ sections →
           is_Some (acc_section_timings acc' !! n)
           ∧ match first_usable llm c sectional_budget with
             | Some obj =>
                 getattr_section (acc_full_output acc') n = Some obj
                 ∧ acc_section_errors acc' !! n = acc_section_errors acc !! n
             | None =>
                 getattr_section (acc_full_output acc') n
                 = getattr_section (acc_full_output acc) n
                 ∧ is_Some (acc_section_errors acc' !! n)
             end).
Proof.
  induction sections as [|[n0 c0] rest IH]; intros acc w Hsub Hnd.
  { exists w, acc. split_and!.
    - reflexivity.
    - apply same_objects_refl.
    - intros n _. by split_and!.
    - intros n c Hin. by apply elem_of_nil in Hin. }
  cbn in Hnd. apply NoDup_cons in Hnd as [Hn0 Hnd].
  assert ((n0, c0) ∈ SECTIONAL_SECTIONS) as Hin0 by (apply Hsub; left).
  assert (rest ⊆ SECTIONAL_SECTIONS) as Hsub'.
  { intros x Hx. apply Hsub. by right. }
  cbn [sectional_loop].
  destruct (time_time_run w) as (w1 & E1 & O1). rewrite (run_bind _ _ _ _ _ E1).
  unfold _enhance_single_section.
  destruct (_enhance_single_section_from_run n0 c0 llm
              (seq 0 SECTIONAL_MAX_RETRIES) None w1)
    as (w2 & err & E2 & O2 & _ & _ & Hsome & Hnone & _).
  rewrite (run_bind _ _ _ _ _ E2).
  destruct (time_time_run w2) as (w3 & E3 & O3). rewrite (run_bind _ _ _ _ _ E3).
  fold sectional_budget in *.
  assert (same_objects w w3) as O13 by eauto using same_objects_trans.
  destruct (first_usable llm c0 sectional_budget) as [obj|] eqn:Hfu.
  - pose proof (first_usable_isinstance _ _ _ _ Hfu) as Hinst.
    match goal with |- context [sectional_loop rest llm ?a w3] =>
      destruct (IH a w3 Hsub' Hnd) as (w' & acc' & E & O & Hout & Hin) end.
    exists w', acc'. rewrite E.
    cbn [acc_full_output acc_section_errors acc_section_timings] in *. split_and!; [done | | |].
    + by eapply same_objects_trans.
    + intros n Hn. apply not_elem_of_cons in Hn as [Hne Hn].
      destruct (Hout n Hn) as (-> & -> & ->).
      rewrite getattr_setattr_ne by done.
      by rewrite lookup_insert_ne.
    + intros n c [[= -> ->]|Hnc]%elem_of_cons.
      * destruct (Hout n0 Hn0) as (-> & -> & ->). rewrite Hfu.
        rewrite lookup_insert_eq. split; [by eexists|].
        split; [|done]. by eapply getattr_setattr_eq.
      * assert (n ≠ n0) as Hne.
        { intros ->. apply Hn0. apply list_elem_of_fmap. by exists (n0, c). }
        destruct (Hin n c Hnc) as [Ht Hcase]. split; [done|].
        destruct (first_usable llm c sectional_budget); [done|].
        destruct Hcase as [-> ?]. by rewrite getattr_setattr_ne.
  - match goal with |- context [sectional_loop rest llm ?a w3] =>
      destruct (IH a w3 Hsub' Hnd) as (w' & acc' & E & O & Hout & Hin) end.
    exists w', acc'. rewrite E.
    cbn [acc_full_output acc_section_errors acc_section_timings] in *. split_and!; [done | | |].
    + by eapply same_objects_trans.
    + intros n Hn. apply not_elem_of_cons in Hn as [Hne Hn].
      destruct (Hout n Hn) as (-> & -> & ->).
      by rewrite !lookup_insert_ne.
    + intros n c [[= -> ->]|Hnc]%elem_of_cons.
      * destruct (Hout n0 Hn0) as (-> & -> & ->). rewrite Hfu.
        rewrite !lookup_insert_eq. split; [by eexists|]. split; [done|by eexists].
      * assert (n ≠ n0) as Hne.
        { intros ->. apply Hn0. apply list_elem_of_fmap. by exists (n0, c). }
        destruct (Hin n c Hnc) as [Ht Hcase]. split; [done|].
        destruct (first_usable llm c sectional_budget); [|done].
        destruct Hcase as [? ->]. by rewrite lookup_insert_ne.
Qed.

Lemma sectional_names : SECTIONAL_SECTIONS.*1 = SECTION_NAMES.
Proof. reflexivity. Qed.

Lemma sectional_names_nodup : NoDup SECTIONAL_SECTIONS.*1.
Proof. rewrite sectional_names. apply (bool_decide_unpack _). by vm_compute. Qed.

(** The node as a whole, given its inputs: it returns; it touches no
    object; every listed section has a timing and either its slot filled
    with the first usable reply and no error entry, or an empty slot and
    an error entry; nothing else is recorded. *)
Lemma enhance_sectional_node_run (state : ResumeEnhancerState.t) (llm : LLM)
    (w : World) :
  is_Some (ResumeEnhancerState.resume state) →
  is_Some (ResumeEnhancerState.mapping_result state) →
  ∃ w' out,
    enhance_sectional_node state (Some llm) w = (w', Returns out)
    ∧ same_objects w w'
    ∧ (∀ n, n ∉ SECTION_NAMES →
         getattr_section (full_enhancement_output out) n = None
         ∧ section_errors out !! n = None
         ∧ section_timings out !! n = None)
    ∧ (∀ n c, (n, c) ∈ SECTIONAL_SECTIONS →
         is_Some (section_timings out !! n)
         ∧ match first_usable llm c sectional_budget with
           | Some obj =>
               getattr_section (full_enhancement_output out) n = Some obj
               ∧ section_errors out !! n = None
           | None =>
               getattr_section (full_enhancement_output out) n = None
               ∧ is_Some (section_errors out !! n)
           end).
Proof.
  intros [resume Hr] [mapping Hm]. unfold enhance_sectional_node.
  destruct (time_time_run w) as (w1 & E1 & O1). rewrite (run_bind _ _ _ _ _ E1).
  unfold _extract_inputs_sectional. rewrite Hr, Hm.
  rewrite (run_bind _ _ w1 w1 (resume, mapping)) by reflexivity.
  destruct (sectional_loop_run llm SECTIONAL_SECTIONS
              (mkSectionalAcc FullEnhancementOutput.new ∅ ∅ [] []) w1)
    as (w2 & acc & E2 & O2 & Hout & Hin); [done | apply sectional_names_nodup |].
  rewrite (run_bind _ _ _ _ _ E2).
  destruct (time_time_run w2) as (w3 & E3 & O3). rewrite (run_bind _ _ _ _ _ E3).
  eexists _, _. split; [reflexivity|].
  cbn [full_enhancement_output section_errors section_timings acc_full_output
       acc_section_errors acc_section_timings] in *.
  split_and!.
  - eauto using same_objects_trans.
  - intros n Hn. rewrite <- sectional_names in Hn.
    destruct (Hout n Hn) as (-> & -> & ->). by rewrite getattr_new.
  - intros n c Hnc. destruct (Hin n c Hnc) as [Ht Hcase]. split; [done|].
    destruct (first_usable llm c sectional_budget).
    + destruct Hcase as [-> ->]. by rewrite lookup_empty.
    + destruct Hcase as [-> ?]. by rewrite getattr_new.
Qed.

(** C10. After enhance_sectional_node returns, each of the seven
    sections has either a non-None output in the FullEnhancementOutput
    and no entry in section_errors, or no output and an entry in
    section_errors, and section_timings has an entry for each of them.
    The node does return whenever the state carries a resume and a
    mapping result and a gateway is given. *)
Theorem sectional_output_xor_error
    (state : ResumeEnhancerState.t) (llm : option LLM) (w : World) :
  (is_Some (ResumeEnhancerState.resume state) →
   is_Some (ResumeEnhancerState.mapping_result state) → is_Some llm →
   ∃ w' out, enhance_sectional_node state llm w = (w', Returns out))
  ∧ (∀ w' out,
       enhance_sectional_node state llm w = (w', Returns out) →
       ∀ name, name ∈ SECTION_NAMES →
         (is_Some (getattr_section (full_enhancement_output out) name)
          ∧ section_errors out !! name = None
          ∨ getattr_section (full_enhancement_output out) name = None
            ∧ is_Some (section_errors out !! name))
         ∧ is_Some (section_timings out !! name)).
Proof.
  split.
  - intros Hr Hm [gateway ->].
    destruct (enhance_sectional_node_run state gateway w Hr Hm)
      as (w' & out & E & _). eauto.
  - intros w' out Hrun name Hname.
    destruct (ResumeEnhancerState.resume state) as [resume|] eqn:Hr;
      [|by unfold enhance_sectional_node, _extract_inputs_sectional in Hrun;
           rewrite Hr in Hrun].
    destruct (ResumeEnhancerState.mapping_result state) as [mapping|] eqn:Hm;
      [|by unfold enhance_sectional_node, _extract_inputs_sectional in Hrun;
           rewrite Hr, Hm in Hrun].
    destruct llm as [gateway|];
      [|by unfold enhance_sectional_node, _extract_inputs_sectional in Hrun;
           rewrite Hr, Hm in Hrun].
    destruct (enhance_sectional_node_run state gateway w)
      as (w'' & out' & E & _ & _ & Hin); [by rewrite Hr | by rewrite Hm |].
    rewrite E in Hrun. injection Hrun as <- <-.
    rewrite <- sectional_names in Hname.
    apply list_elem_of_fmap in Hname as ([n c] & -> & Hnc). cbn.
    destruct (Hin n c Hnc) as [Ht Hcase]. split; [|done].
    destruct (first_usable gateway c sectional_budget) as [obj|].
    + left. destruct Hcase as [-> ->]. by split; [eexists|].
    + right. done.
Qed.

(** ** The merge stage, in general *)

(** With a list as original the validators always come back, whatever
    is shared between the two lists, and touch only enhanced entries. *)
Lemma validate_experiences_from_total (orig : list loc) :
  ∀ (enhanced : list loc) (i : nat) (w : World),
    ∃ w', validate_experiences_from i enhanced (Some orig) w = (w', Returns tt)
          ∧ only_experiences_differ enhanced w w'.
Proof.
  induction enhanced as [|exp rest IH]; intros i w.
  { exists w. split; [done | apply only_experiences_differ_refl]. }
  cbn [validate_experiences_from]. unfold py_len.
  rewrite (run_bind _ _ w w (length orig)) by reflexivity.
  destruct (decide (length orig ≤ i)%nat) as [Hbreak|Hin].
  { exists w. split; [done | apply only_experiences_differ_refl]. }
  destruct (lookup_lt_is_Some_2 orig i) as [o0 Hi]; [lia|].
  destruct (revert_experience_field_run Experience.start_date
              Experience.set_start_date exp orig i o0 w Hi)
    as (w1 & E1 & F1 & _); [done|].
  destruct (revert_experience_field_run Experience.end_date
              Experience.set_end_date exp orig i o0 w1 Hi)
    as (w2 & E2 & F2 & _); [done|].
  destruct (revert_experience_field_run Experience.company_name
              Experience.set_company_name exp orig i o0 w2 Hi)
    as (w3 & E3 & F3 & _); [done|].
  destruct (revert_experience_field_run Experience.role_title
              Experience.set_role_title exp orig i o0 w3 Hi)
    as (w4 & E4 & F4 & _); [done|].
  destruct (IH (S i) w4) as (w' & E & F).
  exists w'.
  rewrite (run_bind _ _ _ _ _ E1), (run_bind _ _ _ _ _ E2),
          (run_bind _ _ _ _ _ E3), (run_bind _ _ _ _ _ E4), E.
  split; [done|].
  assert (only_experiences_differ [exp] w w4) as F1n.
  { eauto using only_experiences_differ_trans. }
  apply (only_experiences_differ_trans _ w w4 w').
  - eapply only_experiences_differ_mono; [|exact F1n].
    intros x ->%list_elem_of_singleton. left.
  - eapply only_experiences_differ_mono; [|exact F].
    intros x Hx. by right.
Qed.

Lemma validate_educations_from_total (orig : list loc) :
  ∀ (enhanced : list loc) (i : nat) (w : World),
    ∃ w', validate_educations_from i enhanced (Some orig) w = (w', Returns tt)
          ∧ only_educations_differ enhanced w w'.
Proof.
  induction enhanced as [|edu rest IH]; intros i w.
  { exists w. split; [done | apply only_educations_differ_refl]. }
  cbn [validate_educations_from]. unfold py_len.
  rewrite (run_bind _ _ w w (length orig)) by reflexivity.
  destruct (decide (length orig ≤ i)%nat) as [Hbreak|Hin].
  { exists w. split; [done | apply only_educations_differ_refl]. }
  destruct (lookup_lt_is_Some_2 orig i) as [o0 Hi]; [lia|].
  destruct (revert_education_field_run Education.start_date
              Education.set_start_date edu orig i o0 w Hi)
    as (w1 & E1 & F1 & _); [done|].
  destruct (revert_education_field_run Education.end_date
              Education.set_end_date edu orig i o0 w1 Hi)
    as (w2 & E2 & F2 & _); [done|].
  destruct (revert_education_field_run Education.university_name
              Education.set_university_name edu orig i o0 w2 Hi)
    as (w3 & E3 & F3 & _); [done|].
  destruct (revert_education_field_run Education.degree
              Education.set_degree edu orig i o0 w3 Hi)
    as (w4 & E4 & F4 & _); [done|].
  destruct (IH (S i) w4) as (w' & E & F).
  exists w'.
  rewrite (run_bind _ _ _ _ _ E1), (run_bind _ _ _ _ _ E2),
          (run_bind _ _ _ _ _ E3), (run_bind _ _ _ _ _ E4), E.
  split; [done|].
  assert (only_educations_differ [edu] w w4) as F1n.
  { eauto using only_educations_differ_trans. }
  apply (only_educations_differ_trans _ w w4 w').
  - eapply only_educations_differ_mono; [|exact F1n].
    intros x ->%list_elem_of_singleton. left.
  - eapply only_educations_differ_mono; [|exact F].
    intros x Hx. by right.
Qed.

Lemma only_projects_differ_refl (L : list loc) (w : World) :
  only_projects_differ L w w.
Proof. by repeat split. Qed.

Lemma only_projects_differ_trans (L : list loc) (w1 w2 w3 : World) :
  only_projects_differ L w1 w2 → only_projects_differ L w2 w3 →
  only_projects_differ L w1 w3.
Proof.
  intros (Ha & ? & ? & ? & ? & ? & ?) (Hb & ? & ? & ? & ? & ? & ?).
  split_and!; try congruence. intros l Hl. rewrite Hb, Ha; done.
Qed.

Lemma only_projects_differ_mono (L L' : list loc) (w w' : World) :
  L ⊆ L' → only_projects_differ L w w' → only_projects_differ L' w w'.
Proof.
  intros Hsub (Ha & ?). split; [|done]. intros l Hl. apply Ha.
  intros Hin. apply Hl. by apply Hsub.
Qed.

Lemma assign_project_differ (proj : loc) (f : Project.t → Project.t) (w : World) :
  ∃ w', assign_project proj f w = (w', Returns tt)
        ∧ only_projects_differ [proj] w w'.
Proof.
  eexists. split; [reflexivity|]. split_and!; try done. cbn.
  intros l Hl. apply lookup_insert_ne. set_solver.
Qed.

Lemma validate_projects_from_total (orig : list loc) :
  ∀ (enhanced : list loc) (i : nat) (w : World),
    ∃ w', validate_projects_from i enhanced (Some orig) w = (w', Returns tt)
          ∧ only_projects_differ enhanced w w'.
Proof.
  induction enhanced as [|proj rest IH]; intros i w.
  { exists w. split; [done | apply only_projects_differ_refl]. }
  cbn [validate_projects_from]. unfold py_len.
  rewrite (run_bind _ _ w w (length orig)) by reflexivity.
  destruct (decide (length orig ≤ i)%nat) as [Hbreak|Hin].
  { exists w. split; [done | apply only_projects_differ_refl]. }
  destruct (lookup_lt_is_Some_2 orig i) as [o0 Hi]; [lia|].
  unfold read_project at 1.
  rewrite (run_bind _ _ w w (project_objs w !!! proj)) by reflexivity.
  assert (∃ w1, (if is_url (Project.project_name (project_objs w !!! proj))
                 then oi ← py_getitem (Some orig) i;
                      o ← read_project oi;
                      assign_project proj
                        (Project.set_project_name (Project.project_name o))
                 else mret ()) w = (w1, Returns tt)
                ∧ only_projects_differ [proj] w w1) as (w1 & E1 & F1).
  { destruct (is_url _).
    - unfold py_getitem. rewrite Hi.
      rewrite (run_bind _ _ w w o0) by reflexivity.
      unfold read_project.
      rewrite (run_bind _ _ w w (project_objs w !!! o0)) by reflexivity.
      apply assign_project_differ.
    - exists w. split; [done | apply only_projects_differ_refl]. }
  rewrite (run_bind _ _ _ _ _ E1).
  unfold read_project at 1.
  rewrite (run_bind _ _ w1 w1 (project_objs w1 !!! proj)) by reflexivity.
  assert (∃ w2, (if truthy (Project.project_link (project_objs w1 !!! proj))
                    && negb (is_url (default ""
                               (Project.project_link (project_objs w1 !!! proj))))
                 then oi ← py_getitem (Some orig) i;
                      o ← read_project oi;
                      assign_project proj
                        (Project.set_project_link (Project.project_link o))
                 else mret ()) w1 = (w2, Returns tt)
                ∧ only_projects_differ [proj] w1 w2) as (w2 & E2 & F2).
  { destruct (_ && _).
    - unfold py_getitem. rewrite Hi.
      rewrite (run_bind _ _ w1 w1 o0) by reflexivity.
      unfold read_project.
      rewrite (run_bind _ _ w1 w1 (project_objs w1 !!! o0)) by reflexivity.
      apply assign_project_differ.
    - exists w1. split; [done | apply only_projects_differ_refl]. }
  rewrite (run_bind _ _ _ _ _ E2).
  destruct (IH (S i) w2) as (w' & E & F).
  exists w'. rewrite E. split; [done|].
  assert (only_projects_differ [proj] w w2) as F1n.
  { eauto using only_projects_differ_trans. }
  apply (only_projects_differ_trans _ w w2 w').
  - eapply only_projects_differ_mono; [|exact F1n].
    intros x ->%list_elem_of_singleton. left.
  - eapply only_projects_differ_mono; [|exact F].
    intros x Hx. by right.
Qed.

(** The three validated sections of the merge, one at a time. *)
Lemma merge_experiences_run (resume : Resume.t)
    (ex : option ExperiencesEnhancementOutput) (w : World) :
  (Resume.experiences resume = None → from_option Enh.enhanced [] ex = []) →
  ∃ w1, match ex with
        | Some e =>
            v ← validate_experiences (Enh.enhanced e) (Resume.experiences resume);
            mret (Some v)
        | None => mret (Resume.experiences resume)
        end w
        = (w1, Returns (from_option (λ e, Some (Enh.enhanced e))
                          (Resume.experiences resume) ex))
        ∧ only_experiences_differ (from_option Enh.enhanced [] ex) w w1.
Proof.
  intros Hexp.
  destruct ex as [e|]; [|exists w; split; [done|apply only_experiences_differ_refl]].
  cbn [from_option] in *. unfold validate_experiences.
  destruct (Resume.experiences resume) as [orig|].
  - destruct (validate_experiences_from_total orig (Enh.enhanced e) 0 w)
      as (w1 & E & F).
    exists w1. split; [|done]. rewrite !bind_assoc_run.
    by rewrite (run_bind _ _ _ _ _ E).
  - rewrite Hexp by done. exists w.
    split; [done|apply only_experiences_differ_refl].
Qed.

Lemma merge_educations_run (resume : Resume.t)
    (ed : option EducationsEnhancementOutput) (w : World) :
  ∃ w2, match ed with
        | Some e => validate_educations (Enh.enhanced e)
                                        (Some (Resume.educations resume))
        | None => mret (Resume.educations resume)
        end w
        = (w2, Returns (from_option Enh.enhanced (Resume.educations resume) ed))
        ∧ only_educations_differ (from_option Enh.enhanced [] ed) w w2.
Proof.
  destruct ed as [e|]; [|exists w; split; [done|apply only_educations_differ_refl]].
  cbn [from_option]. unfold validate_educations.
  destruct (validate_educations_from_total (Resume.educations resume)
              (Enh.enhanced e) 0 w) as (w2 & E & F).
  exists w2. split; [|done]. by rewrite (run_bind _ _ _ _ _ E).
Qed.

Lemma merge_projects_run (resume : Resume.t)
    (pr : option ProjectsEnhancementOutput) (w : World) :
  (Resume.projects resume = None → from_option Enh.enhanced [] pr = []) →
  ∃ w', match pr with
        | Some p =>
            v ← validate_projects (Enh.enhanced p) (Resume.projects resume);
            mret (Some v)
        | None => mret (Resume.projects resume)
        end w
        = (w', Returns (from_option (λ e, Some (Enh.enhanced e))
                          (Resume.projects resume) pr))
        ∧ only_projects_differ (from_option Enh.enhanced [] pr) w w'.
Proof.
  intros Hproj.
  destruct pr as [p|]; [|exists w; split; [done|apply only_projects_differ_refl]].
  cbn [from_option] in *. unfold validate_projects.
  destruct (Resume.projects resume) as [orig|].
  - destruct (validate_projects_from_total orig (Enh.enhanced p) 0 w)
      as (w' & E & F).
    exists w'. split; [|done]. rewrite !bind_assoc_run.
    by rewrite (run_bind _ _ _ _ _ E).
  - rewrite Hproj by done. exists w.
    split; [done|apply only_projects_differ_refl].
Qed.

(** The merge stage returns the merged record, and changes nothing but
    enhanced entries, whenever each null original list is matched by an
    absent or empty enhanced list. *)
Theorem merge_returns_merged_resume
    (resume : Resume.t) (full_output : FullEnhancementOutput.t) (w : World) :
  (Resume.experiences resume = None → enhanced_experiences full_output = []) →
  (Resume.projects resume = None → enhanced_projects full_output = []) →
  ∃ w1 w2 w',
    _build_enhanced_resume resume full_output w
    = (w', Returns (merged_resume resume full_output))
    ∧ only_experiences_differ (enhanced_experiences full_output) w w1
    ∧ only_educations_differ (enhanced_educations full_output) w1 w2
    ∧ only_projects_differ (enhanced_projects full_output) w2 w'.
Proof.
  intros Hexp Hproj. destruct full_output as [su ex ed sk ce la pr].
  unfold _build_enhanced_resume, merged_resume, enhanced_experiences,
    enhanced_educations, enhanced_projects in *.
  cbn [FullEnhancementOutput.summary FullEnhancementOutput.experiences
       FullEnhancementOutput.educations FullEnhancementOutput.skills
       FullEnhancementOutput.certifications FullEnhancementOutput.languages
       FullEnhancementOutput.projects from_option] in *.
  destruct (merge_experiences_run resume ex w Hexp) as (w1 & E1 & F1).
  rewrite (run_bind _ _ _ _ _ E1).
  destruct (merge_educations_run resume ed w1) as (w2 & E2 & F2).
  rewrite (run_bind _ _ _ _ _ E2).
  destruct (merge_projects_run resume pr w2 Hproj) as (w' & E3 & F3).
  rewrite (run_bind _ _ _ _ _ E3).
  exists w1, w2, w'. split; [|done].
  destruct su, sk, ce, la; reflexivity.
Qed.

(** With a null experiences list in the resume and a non-empty enhanced
    list, the merge stage raises before anything is built. *)
Lemma merge_raises_null_experiences
    (resume : Resume.t) (full_output : FullEnhancementOutput.t)
    (e : ExperiencesEnhancementOutput) (w : World) :
  Resume.experiences resume = None →
  FullEnhancementOutput.experiences full_output = Some e →
  Enh.enhanced e ≠ [] →
  _build_enhanced_resume resume full_output w
  = (w, Raises (TypeError "object of type 'NoneType' has no len()")).
Proof.
  intros Hr Hfo He. unfold _build_enhanced_resume. rewrite Hr, Hfo.
  destruct (Enh.enhanced e) as [|x xs]; [done|]. reflexivity.
Qed.

(** The same for a null projects list, once the experiences and the
    educations have been validated. *)
Lemma merge_raises_null_projects
    (resume : Resume.t) (full_output : FullEnhancementOutput.t)
    (p : ProjectsEnhancementOutput) (w : World) :
  (Resume.experiences resume = None → enhanced_experiences full_output = []) →
  Resume.projects resume = None →
  FullEnhancementOutput.projects full_output = Some p →
  Enh.enhanced p ≠ [] →
  ∃ w', _build_enhanced_resume resume full_output w
        = (w', Raises (TypeError "object of type 'NoneType' has no len()")).
Proof.
  intros Hexp Hr Hfo Hp. destruct full_output as [su ex ed sk ce la pr].
  unfold _build_enhanced_resume, enhanced_experiences in *.
  cbn [FullEnhancementOutput.summary FullEnhancementOutput.experiences
       FullEnhancementOutput.educations FullEnhancementOutput.skills
       FullEnhancementOutput.certifications FullEnhancementOutput.languages
       FullEnhancementOutput.projects] in *.
  destruct (merge_experiences_run resume ex w Hexp) as (w1 & E1 & F1).
  rewrite (run_bind _ _ _ _ _ E1).
  destruct (merge_educations_run resume ed w1) as (w2 & E2 & F2).
  rewrite (run_bind _ _ _ _ _ E2).
  rewrite Hfo, Hr. destruct (Enh.enhanced p) as [|x xs]; [done|].
  by exists w2.
Qed.

(** The merge stage returns exactly when each null original list is
    matched by an absent or empty enhanced list. *)
Theorem merge_returns_iff
    (resume : Resume.t) (full_output : FullEnhancementOutput.t) (w : World) :
  (∃ w' r, _build_enhanced_resume resume full_output w = (w', Returns r))
  ↔ (Resume.experiences resume = None → enhanced_experiences full_output = [])
    ∧ (Resume.projects resume = None → enhanced_projects full_output = []).
Proof.
  split.
  - intros (w' & r & Hrun).
    assert (Resume.experiences resume = None →
            enhanced_experiences full_output = []) as Hexp.
    { intros Hr. unfold enhanced_experiences.
      destruct (FullEnhancementOutput.experiences full_output) as [e|] eqn:Hfo;
        [|done]. cbn.
      destruct (Enh.enhanced e) as [|x xs] eqn:He; [done|].
      rewrite (merge_raises_null_experiences resume full_output e w Hr Hfo) in Hrun;
        [done | by rewrite He]. }
    split; [done|].
    intros Hr. unfold enhanced_projects.
    destruct (FullEnhancementOutput.projects full_output) as [p|] eqn:Hfo;
      [|done]. cbn.
    destruct (Enh.enhanced p) as [|x xs] eqn:He; [done|].
    destruct (merge_raises_null_projects resume full_output p w Hexp Hr Hfo)
      as (w'' & Hraise); [by rewrite He|].
    by rewrite Hraise in Hrun.
  - intros [Hexp Hproj].
    destruct (merge_returns_merged_resume resume full_output w Hexp Hproj)
      as (_ & _ & w' & E & _). eauto.
Qed.

(** C7, at an input the schema allows: the resume's experiences are null
    and the FullEnhancementOutput carries one enhanced experience.  The
    merge stage does not produce a Resume; it raises TypeError, and so
    does the format node around it. *)
Theorem merge_raises_on_null_original :
  Resume.experiences Sample.resume_null_lists = None
  ∧ _build_enhanced_resume Sample.resume_null_lists Sample.full_output_experience
      Sample.world_objs
    = (Sample.world_objs, Raises (TypeError "object of type 'NoneType' has no len()"))
  ∧ format_node (ResumeEnhancerState.mk (Some Sample.resume_null_lists) None None
                   (Some Sample.full_output_experience) None None None None ∅ ∅)
      Sample.world_objs
    = (Sample.world_objs, Raises (TypeError "object of type 'NoneType' has no len()")).
Proof. split_and!; reflexivity. Qed.

(** What does hold of the merge stage: when it returns (each null
    original list being matched by an absent or empty enhanced list), the
    result carries the input's personal_info, and no object other than
    the enhanced entries has changed; so the original resume is intact
    as long as none of its entries is itself an enhanced entry. *)
Theorem merge_keeps_personal_info_and_originals
    (resume : Resume.t) (full_output : FullEnhancementOutput.t) (w : World) :
  (Resume.experiences resume = None → enhanced_experiences full_output = []) →
  (Resume.projects resume = None → enhanced_projects full_output = []) →
  ∃ w' r,
    _build_enhanced_resume resume full_output w = (w', Returns r)
    ∧ Resume.personal_info r = Resume.personal_info resume
    ∧ (∀ l, l ∉ enhanced_experiences full_output →
         experience_objs w' !! l = experience_objs w !! l)
    ∧ (∀ l, l ∉ enhanced_educations full_output →
         education_objs w' !! l = education_objs w !! l)
    ∧ (∀ l, l ∉ enhanced_projects full_output →
         project_objs w' !! l = project_objs w !! l).
Proof.
  intros Hexp Hproj.
  destruct (merge_returns_merged_resume resume full_output w Hexp Hproj)
    as (w1 & w2 & w' & E & (F1 & G1 & H1 & _) & (F2 & G2 & H2 & _)
        & (F3 & G3 & H3 & _)).
  exists w', (merged_resume resume full_output). split_and!; [done | done | | |].
  - intros l Hl. rewrite G3, G2. by apply F1.
  - intros l Hl. rewrite H3. rewrite F2 by done. by rewrite G1.
  - intros l Hl. rewrite F3 by done. by rewrite H2, H1.
Qed.

(** ** Sequential mode followed by the merge *)

Lemma merged_section_absent (r : Resume.t) (fo : FullEnhancementOutput.t) (n : string) :
  getattr_section fo n = None →
  resume_section (merged_resume r fo) n = resume_section r n.
Proof.
  destruct fo as [su ex ed sk ce la pr].
  unfold getattr_section, resume_section, merged_resume.
  repeat case_decide; try done; cbn;
    [destruct su | destruct ex | destruct ed | destruct sk
     | destruct ce | destruct la | destruct pr]; done.
Qed.

Lemma merged_section_present (r : Resume.t) (fo : FullEnhancementOutput.t)
    (n : string) (obj : PyObj) :
  getattr_section fo n = Some obj →
  resume_section (merged_resume r fo) n = enhanced_content obj.
Proof.
  destruct fo as [su ex ed sk ce la pr].
  unfold getattr_section, resume_section, merged_resume.
  repeat case_decide; try done; cbn;
    [destruct su | destruct ex | destruct ed | destruct sk
     | destruct ce | destruct la | destruct pr]; cbn; try done;
    by intros [= <-].
Qed.

Lemma only_experiences_differ_nil (w w' : World) :
  only_experiences_differ [] w w' → experience_objs w' = experience_objs w.
Proof. intros (H & _). apply map_eq. intros l. apply H, not_elem_of_nil. Qed.

Lemma only_educations_differ_nil (w w' : World) :
  only_educations_differ [] w w' → education_objs w' = education_objs w.
Proof. intros (H & _). apply map_eq. intros l. apply H, not_elem_of_nil. Qed.

Lemma only_projects_differ_nil (w w' : World) :
  only_projects_differ [] w w' → project_objs w' = project_objs w.
Proof. intros (H & _). apply map_eq. intros l. apply H, not_elem_of_nil. Qed.

(** The partial-failure property, for resumes whose experiences and
    projects lists are present: when section [s] gets no usable reply
    within the retry budget and every other section does, the node
    returns, section_errors is the single entry for [s], the format node
    returns the merged resume, in which section [s] is the original one
    (the objects of that section being untouched) and every other
    section is the enhanced content of its first usable reply. *)
Theorem sectional_partial_failure_merge
    (state : ResumeEnhancerState.t) (resume : Resume.t) (mapping : MappingResult.t)
    (llm : LLM) (w : World) (s : string) (cs : OutputClass) :
  ResumeEnhancerState.resume state = Some resume →
  ResumeEnhancerState.mapping_result state = Some mapping →
  (s, cs) ∈ SECTIONAL_SECTIONS →
  first_usable llm cs sectional_budget = None →
  (∀ n c, (n, c) ∈ SECTIONAL_SECTIONS → n ≠ s →
          is_Some (first_usable llm c sectional_budget)) →
  is_Some (Resume.experiences resume) →
  is_Some (Resume.projects resume) →
  ∃ w1 out w2 merged msg,
    enhance_sectional_node state (Some llm) w = (w1, Returns out)
    ∧ section_errors out = {[ s := msg ]}
    ∧ format_node (merge_sectional_result state out) w1 = (w2, Returns merged)
    ∧ Resume.personal_info merged = Resume.personal_info resume
    ∧ resume_section merged s = resume_section resume s
    ∧ (s = "experiences" → experience_objs w2 = experience_objs w)
    ∧ (s = "educations" → education_objs w2 = education_objs w)
    ∧ (s = "projects" → project_objs w2 = project_objs w)
    ∧ (∀ n c obj, (n, c) ∈ SECTIONAL_SECTIONS → n ≠ s →
         first_usable llm c sectional_budget = Some obj →
         resume_section merged n = enhanced_content obj).
Proof.
  intros Hr Hm Hs Hfail Hothers [exps Hexps] [projs Hprojs].
  destruct (enhance_sectional_node_run state llm w)
    as (w1 & out & E & (O1 & O2 & O3) & Hout & Hin);
    [by rewrite Hr | by rewrite Hm |].
  destruct (Hin s cs Hs) as [_ Hcase]. rewrite Hfail in Hcase.
  destruct Hcase as [Hnone [msg Hmsg]].
  assert (Resume.experiences resume = None →
          enhanced_experiences (full_enhancement_output out) = []) as Hx
    by (by rewrite Hexps).
  assert (Resume.projects resume = None →
          enhanced_projects (full_enhancement_output out) = []) as Hp
    by (by rewrite Hprojs).
  destruct (merge_returns_merged_resume resume (full_enhancement_output out) w1 Hx Hp)
    as (wa & wb & w2 & Em & F1 & F2 & F3).
  exists w1, out, w2, (merged_resume resume (full_enhancement_output out)), msg.
  split_and!.
  - done.
  - apply map_eq. intros n. destruct (decide (n = s)) as [->|Hne].
    + by rewrite lookup_singleton_eq.
    + rewrite lookup_singleton_ne by done.
      destruct (decide (n ∈ SECTION_NAMES)) as [Hn|Hn].
      * rewrite <- sectional_names in Hn.
        apply list_elem_of_fmap in Hn as ([n' c] & -> & Hnc). cbn in *.
        destruct (Hin n' c Hnc) as [_ Hc].
        destruct (Hothers n' c Hnc Hne) as [obj Hobj]. rewrite Hobj in Hc.
        by destruct Hc.
      * by destruct (Hout n Hn) as (_ & -> & _).
  - unfold format_node, normalize_state, _get_format_inputs, merge_sectional_result.
    cbn [ResumeEnhancerState.resume ResumeEnhancerState.full_enhancement_output].
    rewrite Hr, try_reraise.
    rewrite (run_bind _ _ w1 w1 (resume, full_enhancement_output out)) by reflexivity.
    exact Em.
  - done.
  - by apply merged_section_absent.
  - intros ->. unfold getattr_section in Hnone. cbn in Hnone.
    destruct (FullEnhancementOutput.experiences (full_enhancement_output out))
      eqn:Hfe; [done|].
    unfold enhanced_experiences in F1. rewrite Hfe in F1. cbn in F1.
    apply only_experiences_differ_nil in F1.
    destruct F2 as (_ & G2 & _), F3 as (_ & G3 & _). congruence.
  - intros ->. unfold getattr_section in Hnone. cbn in Hnone.
    destruct (FullEnhancementOutput.educations (full_enhancement_output out))
      eqn:Hfe; [done|].
    unfold enhanced_educations in F2. rewrite Hfe in F2. cbn in F2.
    apply only_educations_differ_nil in F2.
    destruct F1 as (_ & G1 & _), F3 as (_ & _ & G3 & _). congruence.
  - intros ->. unfold getattr_section in Hnone. cbn in Hnone.
    destruct (FullEnhancementOutput.projects (full_enhancement_output out))
      eqn:Hfe; [done|].
    unfold enhanced_projects in F3. rewrite Hfe in F3. cbn in F3.
    apply only_projects_differ_nil in F3.
    destruct F1 as (_ & _ & G1 & _), F2 as (_ & _ & G2 & _). congruence.
  - intros n c obj Hnc Hne Hobj. apply merged_section_present.
    destruct (Hin n c Hnc) as [_ Hc]. rewrite Hobj in Hc. by destruct Hc.
Qed.

(** C1, at an input the schema allows: the resume's projects are null,
    the skills section exhausts its two attempts and every other section
    gets a usable reply, the one for projects holding one entry.  The
    node returns with the single error entry for skills, but the format
    node then raises TypeError: there is no merged resume. *)
Theorem sectional_partial_failure_merge_raises :
  Resume.projects Sample.resume_null_projects = None
  ∧ first_usable Sample.llm_skills_fail SkillsEnhancementOutputCls sectional_budget
    = None
  ∧ Forall (λ nc, nc.1 = "skills"
                  ∨ is_Some (first_usable Sample.llm_skills_fail nc.2 sectional_budget))
           SECTIONAL_SECTIONS
  ∧ ∃ w1 out,
      enhance_sectional_node (Sample.state_of Sample.resume_null_projects)
        (Some Sample.llm_skills_fail) Sample.world_objs = (w1, Returns out)
      ∧ section_errors out = {[ "skills" := "429 Too Many Requests" ]}
      ∧ (format_node (merge_sectional_result
                        (Sample.state_of Sample.resume_null_projects) out) w1).2
        = Raises (TypeError "object of type 'NoneType' has no len()").
Proof.
  split_and!; [reflexivity | reflexivity | |].
  - repeat (apply Forall_cons; split; [first [by left | right; by eexists]|]).
    apply Forall_nil_2.
  - eexists _, _. split_and!; [by vm_compute | by vm_compute | by vm_compute].
Qed.

Lemma sectional_partial_failure_merge_witness :
  ∃ w1 out w2 merged msg,
    enhance_sectional_node (Sample.state_of Sample.resume_with_projects)
      (Some Sample.llm_skills_fail) Sample.world_objs = (w1, Returns out)
    ∧ section_errors out = {[ "skills" := msg ]}
    ∧ format_node (merge_sectional_result
                     (Sample.state_of Sample.resume_with_projects) out) w1
      = (w2, Returns merged)
    ∧ Resume.personal_info merged = Resume.personal_info Sample.resume_with_projects
    ∧ resume_section merged "skills"
      = resume_section Sample.resume_with_projects "skills"
    ∧ ("skills" = "experiences" → experience_objs w2 = experience_objs Sample.world_objs)
    ∧ ("skills" = "educations" → education_objs w2 = education_objs Sample.world_objs)
    ∧ ("skills" = "projects" → project_objs w2 = project_objs Sample.world_objs)
    ∧ (∀ n c obj, (n, c) ∈ SECTIONAL_SECTIONS → n ≠ "skills" →
         first_usable Sample.llm_skills_fail c sectional_budget = Some obj →
         resume_section merged n = enhanced_content obj).
Proof.
  apply (sectional_partial_failure_merge
           (Sample.state_of Sample.resume_with_projects)
           Sample.resume_with_projects (Sample.mapping 8)
           Sample.llm_skills_fail Sample.world_objs
           "skills" SkillsEnhancementOutputCls).
  - reflexivity.
  - reflexivity.
  - unfold SECTIONAL_SECTIONS. do 3 right. left.
  - reflexivity.
  - intros n c Hnc Hne. unfold SECTIONAL_SECTIONS in Hnc.
    repeat (apply elem_of_cons in Hnc as [[= -> ->]|Hnc];
            [first [done | by eexists]|]).
    by apply elem_of_nil in Hnc.
  - by eexists.
  - by eexists.
Defined.

Lemma sectional_output_xor_error_witness :
  (∃ w' out, enhance_sectional_node (Sample.state_of Sample.resume_with_projects)
               (Some Sample.llm_skills_fail) Sample.world_objs = (w', Returns out))
  ∧ ∀ name, name ∈ SECTION_NAMES →
      (is_Some (getattr_section
                  (full_enhancement_output
                     (enhance_sectional_node_result_sample)) name)
       ∧ section_errors enhance_sectional_node_result_sample !! name = None
       ∨ getattr_section
           (full_enhancement_output enhance_sectional_node_result_sample) name = None
         ∧ is_Some (section_errors enhance_sectional_node_result_sample !! name))
      ∧ is_Some (section_timings enhance_sectional_node_result_sample !! name).
Proof.
  pose proof (sectional_output_xor_error
                (Sample.state_of Sample.resume_with_projects)
                (Some Sample.llm_skills_fail) Sample.world_objs) as [Hret Hprop].
  split.
  - apply Hret; by eexists.
  - apply (Hprop (enhance_sectional_node_world_sample)). by vm_compute.
Defined.

(** ** The streaming orchestrator *)

Lemma prefix_empty (s : string) : String.prefix "" s = true.
Proof. by destruct s. Qed.

Lemma prefix_refl (s : string) : String.prefix s s = true.
Proof.
  induction s as [|c s IH]; cbn; [done|].
  by destruct (Ascii.ascii_dec c c).
Qed.

Lemma prefix_append (p a c : string) :
  String.prefix p a = true → String.prefix p (a +:+ c) = true.
Proof.
  revert a. induction p as [|x p IH]; intros a.
  { intros _. apply prefix_empty. }
  destruct a as [|y a]; simpl; [done|].
  destruct (Ascii.ascii_dec x y); [apply IH | done].
Qed.

(** Within one attempt the deltas are deltas of the section and grow
    from the text sent so far. *)
Lemma consume_chunks_run (name : string) (i : nat) (start_time : Z) :
  ∀ (cs : list Chunk) (acc : string) (last_delta_time : Z) (prev : string)
    (w : World),
    String.prefix prev acc = true →
    ∃ w' text deltas,
      consume_chunks cs name i start_time acc last_delta_time
                     (String.length prev) w
      = (w', Returns (text, deltas))
      ∧ Forall (is_delta_of name i) deltas
      ∧ growing_from prev deltas.
Proof.
  induction cs as [|chunk rest IH]; intros acc ldt prev w Hpre.
  { by exists w, acc, []. }
  cbn [consume_chunks].
  set (acc' := if negb (String.eqb (chunk_text_of chunk) "")
               then acc +:+ chunk_text_of chunk else acc).
  assert (String.prefix prev acc' = true) as Hpre'.
  { unfold acc'. destruct (negb _); [by apply prefix_append | done]. }
  erewrite (run_bind time_time) by reflexivity.
  case_decide as Hgate.
  - destruct Hgate as [_ Hnew].
    match goal with |- context [(consume_chunks rest name i start_time acc' ?t _ ≫= _) ?w1] =>
      destruct (IH acc' t acc' w1 (prefix_refl acc')) as (w' & text & ds & E & Hds & Hgrow)
    end.
    rewrite (run_bind _ _ _ _ _ E). cbn.
    eexists _, _, _. split; [reflexivity|]. split.
    + apply Forall_cons. split; [by repeat split | done].
    + cbn. exists acc'.
      split_and!; [done | done | done | unfold MIN_CHUNK_SIZE in *; lia | done].
  - apply IH. done.
Qed.

(** The deltas of a section come in at most as many runs as there are
    attempts, each run growing from the empty text. *)
Lemma stream_attempts_run (json_loads_as : OutputClass → string → option PyObj)
    (name : string) (i : nat) (c : OutputClass) (llm : LLM) (start_time : Z) :
  ∀ (attempts : list nat) (last_error : option string) (w : World),
    ∃ w' runs result err,
      stream_attempts json_loads_as attempts last_error name i c llm start_time w
      = (w', Returns (concat runs, result, err))
      ∧ (length runs ≤ length attempts)%nat
      ∧ Forall (λ deltas, Forall (is_delta_of name i) deltas
                          ∧ growing_from "" deltas) runs.
Proof.
  induction attempts as [|attempt rest IH]; intros last_error w.
  { by exists w, [], None, last_error. }
  cbn [stream_attempts].
  erewrite (run_bind time_time) by reflexivity.
  erewrite (run_bind count_llm_call) by reflexivity.
  match goal with |- context [(consume_chunks ?cs name i start_time "" ?t 0 ≫= _) ?w1] =>
    destruct (consume_chunks_run name i start_time cs "" t "" w1 (prefix_empty ""))
      as (w2 & text & ds & E & Hds & Hgrow)
  end.
  rewrite (run_bind _ _ _ _ _ E). cbn beta iota.
  assert (∀ (msg : string) (w3 : World),
            ∃ w' runs result err,
              ('(evs, result, last_error) ←
                 stream_attempts json_loads_as rest (Some msg) name i c llm
                                 start_time;
               mret (ds ++ evs, result, last_error)) w3
              = (w', Returns (concat runs, result, err))
              ∧ (length runs ≤ S (length rest))%nat
              ∧ Forall (λ deltas, Forall (is_delta_of name i) deltas
                                  ∧ growing_from "" deltas) runs) as Hnext.
  { intros msg w3. destruct (IH (Some msg) w3) as (w' & runs & res & err & E' & Hlen & Hruns).
    rewrite (run_bind _ _ _ _ _ E'). cbn.
    exists w', (ds :: runs), res, err. split_and!; [done | cbn; lia |].
    apply Forall_cons. by split. }
  destruct (failure (astream llm name attempt)) as [e|].
  - destruct (decide (attempt < MAX_RETRIES - 1)%nat).
    + erewrite (run_bind (sleep RETRY_DELAY)) by reflexivity. apply Hnext.
    + erewrite (run_bind (mret ())) by reflexivity. apply Hnext.
  - destruct (_parse_section_json json_loads_as text name c) as [result|].
    + exists w2, [ds], (Some result), last_error. cbn. rewrite app_nil_r.
      split_and!; [done | lia |]. apply Forall_cons. by split.
    + destruct (decide (attempt < MAX_RETRIES - 1)%nat).
      * erewrite (run_bind (sleep RETRY_DELAY)) by reflexivity. apply Hnext.
      * erewrite (run_bind (mret ())) by reflexivity. apply Hnext.
Qed.

(** One section yields a block: start, deltas, one closing event. *)
Lemma stream_section_enhancement_run
    (json_loads_as : OutputClass → string → option PyObj)
    (name : string) (i : nat) (c : OutputClass) (llm : LLM) (start_time : Z)
    (total_sections : nat) (w : World) :
  ∃ w' events,
    stream_section_enhancement json_loads_as name i c llm start_time
                               total_sections w
    = (w', Returns events)
    ∧ section_block name i events.
Proof.
  unfold stream_section_enhancement.
  erewrite (run_bind time_time) by reflexivity.
  erewrite (run_bind time_time) by reflexivity.
  match goal with |- context [(stream_attempts _ _ None name i c llm start_time ≫= _) ?w1] =>
    destruct (stream_attempts_run json_loads_as name i c llm start_time
                (seq 0 MAX_RETRIES) None w1)
      as (w2 & runs & result & err & E & Hlen & Hruns)
  end.
  rewrite (run_bind _ _ _ _ _ E). cbn beta iota.
  erewrite (run_bind time_time) by reflexivity.
  erewrite (run_bind time_time) by reflexivity.
  eexists _, _. split; [reflexivity|].
  eexists _, runs, _. split; [reflexivity|].
  split_and!; [by repeat split | by rewrite length_seq in Hlen | done |].
  destruct result; (split_and!; [by left | done | done])
                   || (split_and!; [by right | done | done]).
Qed.

(** The sections yield their blocks one after the other, numbered in
    list order. *)
Lemma stream_sections_from_run
    (json_loads_as : OutputClass → string → option PyObj)
    (reconstruct : OutputClass → PyObj → option PyObj)
    (llm : LLM) (start_time : Z) (total_sections : nat) :
  ∀ (sections : list (string * OutputClass)) (i : nat)
    (full_output : FullEnhancementOutput.t) (timings : gmap string Z) (w : World),
    ∃ w' blocks full_output' timings',
      stream_sections_from json_loads_as reconstruct i sections llm start_time
                           total_sections full_output timings w
      = (w', Returns (concat blocks, full_output', timings'))
      ∧ blocks_from i sections.*1 blocks.
Proof.
  induction sections as [|[name c] rest IH]; intros i fo timings w.
  { by exists w, [], fo, timings. }
  cbn [stream_sections_from].
  erewrite (run_bind time_time) by reflexivity.
  match goal with |- context [(stream_section_enhancement _ name i c llm _ _ ≫= _) ?w1] =>
    destruct (stream_section_enhancement_run json_loads_as name i c llm start_time
                total_sections w1) as (w2 & events & E & Hblock)
  end.
  rewrite (run_bind _ _ _ _ _ E). cbn beta iota.
  assert (∀ fo1 timings1 w3,
            ∃ w' blocks fo' timings',
              ('(later, full_output, section_timings) ←
                 stream_sections_from json_loads_as reconstruct (S i) rest llm
                   start_time total_sections fo1 timings1;
               mret (events ++ later, full_output, section_timings)) w3
              = (w', Returns (concat blocks, fo', timings'))
              ∧ blocks_from i ((name, c) :: rest).*1 blocks) as Hnext.
  { intros fo1 timings1 w3.
    destruct (IH (S i) fo1 timings1 w3) as (w' & blocks & fo' & t' & E' & Hblocks).
    rewrite (run_bind _ _ _ _ _ E'). cbn.
    by exists w', (events :: blocks), fo', t'. }
  destruct (capture_section_result reconstruct events name c None) as [r|].
  - erewrite (run_bind (time_time ≫= _)) by reflexivity. apply Hnext.
  - erewrite (run_bind (mret _)) by reflexivity. apply Hnext.
Qed.

Lemma streaming_names : STREAMING_SECTIONS.*1 = SECTION_NAMES.
Proof. reflexivity. Qed.

(** C5, amended. Every streaming pass comes to its end and yields, for
    the seven sections in list order with indices 0 to 6, one block per
    section: a section_start, then section_delta events only, then one
    closing event that is a section_complete or an error; the internal
    results come last.  The deltas of a section fall into at most
    MAX_RETRIES runs, one per attempt, and within a run each delta's
    accumulated text extends the previous one by at least MIN_CHUNK_SIZE
    characters: the text starts again from empty at every retry. *)
Theorem streaming_pass_ordered
    (json_loads_as : OutputClass → string → option PyObj)
    (reconstruct : OutputClass → PyObj → option PyObj)
    (resume : Resume.t) (mapping_result : MappingResult.t) (llm : LLM)
    (w : World) :
  ∃ w' yielded,
    stream_all_sections json_loads_as reconstruct resume mapping_result llm w
    = (w', Returns yielded)
    ∧ pass_ordered yielded.
Proof.
  unfold stream_all_sections.
  erewrite (run_bind time_time) by reflexivity.
  match goal with |- context [(stream_sections_from _ _ 0 _ llm ?st ?n ?fo ?t ≫= _) ?w1] =>
    destruct (stream_sections_from_run json_loads_as reconstruct llm st n
                STREAMING_SECTIONS 0%nat fo t w1)
      as (w2 & blocks & fo' & t' & E & Hblocks)
  end.
  rewrite (run_bind _ _ _ _ _ E). cbn beta iota.
  erewrite (run_bind time_time) by reflexivity.
  eexists _, _. split; [reflexivity|].
  exists blocks, fo', t'. split; [done|]. by rewrite <- streaming_names.
Qed.

(** C5, as the claim states it, fails on the accumulated text: when the
    token stream of the summary section breaks after 32 characters and
    the retry gets 13 characters through before it breaks too, the
    summary's two deltas carry accumulated texts of 32 and then 13
    characters.  (Both attempts end by an exception, so no text is ever
    decoded in this run.) *)
Lemma streaming_deltas_restart_on_retry :
  ∃ yielded,
    (stream_all_sections Sample.rejects_all Sample.reconstructs_none
       Sample.resume_plain (Sample.mapping 8) Sample.llm_stream_breaks
       Sample.world).2 = Returns yielded
    ∧ delta_lengths (section_events "summary" (events_of yielded))
      = [32%nat; 13%nat]
    ∧ ¬ StronglySorted lt
          (delta_lengths (section_events "summary" (events_of yielded))).
Proof.
  eexists. split; [by vm_compute|]. split; [by vm_compute|].
  intros Hsorted. vm_compute in Hsorted.
  inversion Hsorted as [|? ? _ Hall]. inversion Hall as [|? ? Hlt _]. lia.
Qed.


(** * Further properties *)

(** ** The validators, beyond the protected fields *)

(** A field that the four assignments do not set is the same in every
    object after one [if ... != ...: ... = ...] block. *)
Lemma revert_experience_field_keeps {V U} `{EqDecision V}
    (get : Experience.t → V) (set : V → Experience.t → Experience.t)
    (other : Experience.t → U)
    (exp : loc) (orig : list loc) (i : nat) (o : loc) (w : World) :
  orig !! i = Some o →
  (∀ v e, get (set v e) = v) →
  (∀ v e, other (set v e) = other e) →
  ∃ w', revert_experience_field get set exp (Some orig) i w = (w', Returns tt)
        ∧ only_experiences_differ [exp] w w'
        ∧ ∀ l, other (experience_objs w' !!! l) = other (experience_objs w !!! l).
Proof.
  intros Hi Hgs Hother.
  destruct (revert_experience_field_run get set exp orig i o w Hi Hgs)
    as (w' & E & F & _ & D).
  exists w'. split_and!; [done | done |].
  intros l. destruct (decide (l = exp)) as [->|Hne].
  - destruct D as [-> | ->]; [done | apply Hother].
  - by rewrite (only_experiences_differ_read _ _ _ l F)
      by (by intros ?%list_elem_of_singleton).
Qed.

(** The loop of [validate_experiences] sets nothing but the four
    protected fields, and reaches only the first [len(original)]
    enhanced entries. *)
Lemma validate_experiences_from_keeps {U} (other : Experience.t → U)
    (orig : list loc) :
  (∀ v e, other (Experience.set_start_date v e) = other e) →
  (∀ v e, other (Experience.set_end_date v e) = other e) →
  (∀ v e, other (Experience.set_company_name v e) = other e) →
  (∀ v e, other (Experience.set_role_title v e) = other e) →
  ∀ (enhanced : list loc) (i : nat) (w : World),
    ∃ w', validate_experiences_from i enhanced (Some orig) w = (w', Returns tt)
          ∧ only_experiences_differ (take (length orig - i) enhanced) w w'
          ∧ ∀ l, other (experience_objs w' !!! l) = other (experience_objs w !!! l).
Proof.
  intros K1 K2 K3 K4.
  induction enhanced as [|exp rest IH]; intros i w.
  { exists w. rewrite take_nil.
    split_and!; [done | apply only_experiences_differ_refl | done]. }
  cbn [validate_experiences_from]. unfold py_len.
  rewrite (run_bind _ _ w w (length orig)) by reflexivity.
  destruct (decide (length orig ≤ i)%nat) as [Hbreak|Hin].
  { exists w. replace (length orig - i)%nat with 0%nat by lia.
    split_and!; [done | apply only_experiences_differ_refl | done]. }
  destruct (lookup_lt_is_Some_2 orig i) as [o0 Hi]; [lia|].
  destruct (revert_experience_field_keeps Experience.start_date
              Experience.set_start_date other exp orig i o0 w Hi)
    as (w1 & E1 & F1 & G1); [done | done |].
  destruct (revert_experience_field_keeps Experience.end_date
              Experience.set_end_date other exp orig i o0 w1 Hi)
    as (w2 & E2 & F2 & G2); [done | done |].
  destruct (revert_experience_field_keeps Experience.company_name
              Experience.set_company_name other exp orig i o0 w2 Hi)
    as (w3 & E3 & F3 & G3); [done | done |].
  destruct (revert_experience_field_keeps Experience.role_title
              Experience.set_role_title other exp orig i o0 w3 Hi)
    as (w4 & E4 & F4 & G4); [done | done |].
  destruct (IH (S i) w4) as (w' & E & F & G).
  exists w'.
  rewrite (run_bind _ _ _ _ _ E1), (run_bind _ _ _ _ _ E2),
          (run_bind _ _ _ _ _ E3), (run_bind _ _ _ _ _ E4), E.
  replace (length orig - i)%nat with (S (length orig - S i)) by lia.
  cbn [take]. split_and!; [done | |].
  - assert (only_experiences_differ [exp] w w4) as F14.
    { eauto using only_experiences_differ_trans. }
    apply (only_experiences_differ_trans _ w w4 w').
    + eapply only_experiences_differ_mono; [|exact F14].
      intros x ->%list_elem_of_singleton. left.
    + eapply only_experiences_differ_mono; [|exact F].
      intros x Hx. by right.
  - intros l. by rewrite G, G4, G3, G2, G1.
Qed.

(** On a list whose entries already carry the protected fields of their
    originals the loop assigns nothing: the world comes back as it
    was.  Nothing is asked about sharing between the two lists. *)
Lemma validate_experiences_from_conforming (orig : list loc) :
  ∀ (enhanced : list loc) (i : nat) (w : World),
    (∀ j e o, enhanced !! j = Some e → orig !! (i + j)%nat = Some o →
              same_protected_experience (experience_objs w !!! e)
                                        (experience_objs w !!! o)) →
    validate_experiences_from i enhanced (Some orig) w = (w, Returns tt).
Proof.
  induction enhanced as [|exp rest IH]; intros i w Hsame; [done|].
  cbn [validate_experiences_from]. unfold py_len.
  rewrite (run_bind _ _ w w (length orig)) by reflexivity.
  destruct (decide (length orig ≤ i)%nat) as [Hbreak|Hin]; [done|].
  destruct (lookup_lt_is_Some_2 orig i) as [o0 Hi]; [lia|].
  destruct (Hsame 0%nat exp o0) as (S1 & S2 & S3 & S4);
    [done | by rewrite Nat.add_0_r |].
  assert (∀ {V} `{EqDecision V} (get : Experience.t → V) set,
            get (experience_objs w !!! exp) = get (experience_objs w !!! o0) →
            revert_experience_field get set exp (Some orig) i w = (w, Returns tt))
    as Hrev.
  { intros V ? get set Heq.
    unfold revert_experience_field, read_experience, py_getitem.
    rewrite Hi. py_unfold. cbn. by rewrite decide_False by (by intros ?). }
  rewrite (run_bind _ _ _ _ _ (Hrev _ _ _ _ S1)),
          (run_bind _ _ _ _ _ (Hrev _ _ _ _ S2)),
          (run_bind _ _ _ _ _ (Hrev _ _ _ _ S3)),
          (run_bind _ _ _ _ _ (Hrev _ _ _ _ S4)).
  apply IH. intros j e o He Ho. apply (Hsame (S j)); [done|].
  by rewrite <- Nat.add_succ_comm.
Qed.

(** A field that the four assignments do not set is the same in every
    object after one [if ... != ...: ... = ...] block. *)
Lemma revert_education_field_keeps {V U} `{EqDecision V}
    (get : Education.t → V) (set : V → Education.t → Education.t)
    (other : Education.t → U)
    (edu : loc) (orig : list loc) (i : nat) (o : loc) (w : World) :
  orig !! i = Some o →
  (∀ v e, get (set v e) = v) →
  (∀ v e, other (set v e) = other e) →
  ∃ w', revert_education_field get set edu (Some orig) i w = (w', Returns tt)
        ∧ only_educations_differ [edu] w w'
        ∧ ∀ l, other (education_objs w' !!! l) = other (education_objs w !!! l).
Proof.
  intros Hi Hgs Hother.
  destruct (revert_education_field_run get set edu orig i o w Hi Hgs)
    as (w' & E & F & _ & D).
  exists w'. split_and!; [done | done |].
  intros l. destruct (decide (l = edu)) as [->|Hne].
  - destruct D as [-> | ->]; [done | apply Hother].
  - by rewrite (only_educations_differ_read _ _ _ l F)
      by (by intros ?%list_elem_of_singleton).
Qed.

(** The loop of [validate_educations] sets nothing but the four
    protected fields, and reaches only the first [len(original)]
    enhanced entries. *)
Lemma validate_educations_from_keeps {U} (other : Education.t → U)
    (orig : list loc) :
  (∀ v e, other (Education.set_start_date v e) = other e) →
  (∀ v e, other (Education.set_end_date v e) = other e) →
  (∀ v e, other (Education.set_university_name v e) = other e) →
  (∀ v e, other (Education.set_degree v e) = other e) →
  ∀ (enhanced : list loc) (i : nat) (w : World),
    ∃ w', validate_educations_from i enhanced (Some orig) w = (w', Returns tt)
          ∧ only_educations_differ (take (length orig - i) enhanced) w w'
          ∧ ∀ l, other (education_objs w' !!! l) = other (education_objs w !!! l).
Proof.
  intros K1 K2 K3 K4.
  induction enhanced as [|edu rest IH]; intros i w.
  { exists w. rewrite take_nil.
    split_and!; [done | apply only_educations_differ_refl | done]. }
  cbn [validate_educations_from]. unfold py_len.
  rewrite (run_bind _ _ w w (length orig)) by reflexivity.
  destruct (decide (length orig ≤ i)%nat) as [Hbreak|Hin].
  { exists w. replace (length orig - i)%nat with 0%nat by lia.
    split_and!; [done | apply only_educations_differ_refl | done]. }
  destruct (lookup_lt_is_Some_2 orig i) as [o0 Hi]; [lia|].
  destruct (revert_education_field_keeps Education.start_date
              Education.set_start_date other edu orig i o0 w Hi)
    as (w1 & E1 & F1 & G1); [done | done |].
  destruct (revert_education_field_keeps Education.end_date
              Education.set_end_date other edu orig i o0 w1 Hi)
    as (w2 & E2 & F2 & G2); [done | done |].
  destruct (revert_education_field_keeps Education.university_name
              Education.set_university_name other edu orig i o0 w2 Hi)
    as (w3 & E3 & F3 & G3); [done | done |].
  destruct (revert_education_field_keeps Education.degree
              Education.set_degree other edu orig i o0 w3 Hi)
    as (w4 & E4 & F4 & G4); [done | done |].
  destruct (IH (S i) w4) as (w' & E & F & G).
  exists w'.
  rewrite (run_bind _ _ _ _ _ E1), (run_bind _ _ _ _ _ E2),
          (run_bind _ _ _ _ _ E3), (run_bind _ _ _ _ _ E4), E.
  replace (length orig - i)%nat with (S (length orig - S i)) by lia.
  cbn [take]. split_and!; [done | |].
  - assert (only_educations_differ [edu] w w4) as F14.
    { eauto using only_educations_differ_trans. }
    apply (only_educations_differ_trans _ w w4 w').
    + eapply only_educations_differ_mono; [|exact F14].
      intros x ->%list_elem_of_singleton. left.
    + eapply only_educations_differ_mono; [|exact F].
      intros x Hx. by right.
  - intros l. by rewrite G, G4, G3, G2, G1.
Qed.

(** On a list whose entries already carry the protected fields of their
    originals the loop assigns nothing: the world comes back as it
    was.  Nothing is asked about sharing between the two lists. *)
Lemma validate_educations_from_conforming (orig : list loc) :
  ∀ (enhanced : list loc) (i : nat) (w : World),
    (∀ j e o, enhanced !! j = Some e → orig !! (i + j)%nat = Some o →
              same_protected_education (education_objs w !!! e)
                                        (education_objs w !!! o)) →
    validate_educations_from i enhanced (Some orig) w = (w, Returns tt).
Proof.
  induction enhanced as [|edu rest IH]; intros i w Hsame; [done|].
  cbn [validate_educations_from]. unfold py_len.
  rewrite (run_bind _ _ w w (length orig)) by reflexivity.
  destruct (decide (length orig ≤ i)%nat) as [Hbreak|Hin]; [done|].
  destruct (lookup_lt_is_Some_2 orig i) as [o0 Hi]; [lia|].
  destruct (Hsame 0%nat edu o0) as (S1 & S2 & S3 & S4);
    [done | by rewrite Nat.add_0_r |].
  assert (∀ {V} `{EqDecision V} (get : Education.t → V) set,
            get (education_objs w !!! edu) = get (education_objs w !!! o0) →
            revert_education_field get set edu (Some orig) i w = (w, Returns tt))
    as Hrev.
  { intros V ? get set Heq.
    unfold revert_education_field, read_education, py_getitem.
    rewrite Hi. py_unfold. cbn. by rewrite decide_False by (by intros ?). }
  rewrite (run_bind _ _ _ _ _ (Hrev _ _ _ _ S1)),
          (run_bind _ _ _ _ _ (Hrev _ _ _ _ S2)),
          (run_bind _ _ _ _ _ (Hrev _ _ _ _ S3)),
          (run_bind _ _ _ _ _ (Hrev _ _ _ _ S4)).
  apply IH. intros j e o He Ho. apply (Hsame (S j)); [done|].
  by rewrite <- Nat.add_succ_comm.
Qed.

(** X1. [validate_experiences] and [validate_educations] return the very
    list they were given, change no object other than the first
    [len(original)] enhanced entries, and in no object change anything
    but the four protected fields: description and is_volunteer of every
    experience, major, city and country of every education stay as the
    model wrote them.  Nothing is assumed about the two lists. *)
Theorem validation_keeps_other_fields
    (w : World) (enh_exps orig_exps enh_edus orig_edus : list loc) :
  (∃ w', validate_experiences enh_exps (Some orig_exps) w = (w', Returns enh_exps)
         ∧ only_experiences_differ (take (length orig_exps) enh_exps) w w'
         ∧ ∀ l, Experience.description (experience_objs w' !!! l)
                = Experience.description (experience_objs w !!! l)
                ∧ Experience.is_volunteer (experience_objs w' !!! l)
                  = Experience.is_volunteer (experience_objs w !!! l))
  ∧ (∃ w', validate_educations enh_edus (Some orig_edus) w = (w', Returns enh_edus)
           ∧ only_educations_differ (take (length orig_edus) enh_edus) w w'
           ∧ ∀ l, Education.major (education_objs w' !!! l)
                  = Education.major (education_objs w !!! l)
                  ∧ Education.city (education_objs w' !!! l)
                    = Education.city (education_objs w !!! l)
                  ∧ Education.country (education_objs w' !!! l)
                    = Education.country (education_objs w !!! l)).
Proof.
  split.
  - destruct (validate_experiences_from_keeps
                (λ e, (Experience.description e, Experience.is_volunteer e))
                orig_exps) with (enhanced := enh_exps) (i := 0%nat) (w := w)
      as (w' & E & F & G); try done.
    exists w'. unfold validate_experiences. rewrite (run_bind _ _ _ _ _ E).
    rewrite Nat.sub_0_r in F. split_and!; [done | done |].
    intros l. specialize (G l). by injection G.
  - destruct (validate_educations_from_keeps
                (λ e, (Education.major e, Education.city e, Education.country e))
                orig_edus) with (enhanced := enh_edus) (i := 0%nat) (w := w)
      as (w' & E & F & G); try done.
    exists w'. unfold validate_educations. rewrite (run_bind _ _ _ _ _ E).
    rewrite Nat.sub_0_r in F. split_and!; [done | done |].
    intros l. specialize (G l). by injection G.
Qed.

(** X2. Validating entries that already carry the protected fields of
    the originals at their indices assigns nothing: the store comes back
    unchanged.  This needs nothing about sharing, so it covers
    validating a list against itself. *)
Theorem validation_of_conforming_is_noop
    (w : World) (enh_exps orig_exps enh_edus orig_edus : list loc) :
  (∀ i e o, enh_exps !! i = Some e → orig_exps !! i = Some o →
            same_protected_experience (experience_objs w !!! e)
                                      (experience_objs w !!! o)) →
  (∀ i e o, enh_edus !! i = Some e → orig_edus !! i = Some o →
            same_protected_education (education_objs w !!! e)
                                     (education_objs w !!! o)) →
  validate_experiences enh_exps (Some orig_exps) w = (w, Returns enh_exps)
  ∧ validate_educations enh_edus (Some orig_edus) w = (w, Returns enh_edus).
Proof.
  intros Hx Hd. split.
  - unfold validate_experiences.
    by rewrite (run_bind _ _ _ _ _
                  (validate_experiences_from_conforming orig_exps enh_exps 0 w Hx)).
  - unfold validate_educations.
    by rewrite (run_bind _ _ _ _ _
                  (validate_educations_from_conforming orig_edus enh_edus 0 w Hd)).
Qed.

Lemma validation_of_conforming_is_noop_witness :
  validate_experiences [1%nat; 10%nat] (Some [1%nat; 10%nat]) Sample.world_objs
  = (Sample.world_objs, Returns [1%nat; 10%nat])
  ∧ validate_educations [2%nat] (Some [2%nat; 20%nat]) Sample.world_objs
    = (Sample.world_objs, Returns [2%nat]).
Proof.
  apply (validation_of_conforming_is_noop Sample.world_objs).
  - intros [|[|i]] e o [= <-] [= <-]; by repeat split.
  - intros [|i] e o [= <-] [= <-]; by repeat split.
Defined.

(** X3. Validation is idempotent on entries built from a model reply
    (distinct objects, none shared with the originals): a second run
    after the first finds nothing to undo and leaves the store as the
    first run left it. *)
Theorem validation_idempotent
    (w : World) (enh_exps orig_exps enh_edus orig_edus : list loc) :
  NoDup enh_exps → (∀ l, l ∈ enh_exps → l ∉ orig_exps) →
  NoDup enh_edus → (∀ l, l ∈ enh_edus → l ∉ orig_edus) →
  (∃ w', validate_experiences enh_exps (Some orig_exps) w = (w', Returns enh_exps)
         ∧ validate_experiences enh_exps (Some orig_exps) w' = (w', Returns enh_exps))
  ∧ (∃ w', validate_educations enh_edus (Some orig_edus) w = (w', Returns enh_edus)
           ∧ validate_educations enh_edus (Some orig_edus) w' = (w', Returns enh_edus)).
Proof.
  intros Hnd1 Hd1 Hnd2 Hd2. split.
  - destruct (validate_experiences_from_run orig_exps enh_exps 0 w Hnd1 Hd1)
      as (w' & E & F & P).
    exists w'. unfold validate_experiences.
    rewrite (run_bind _ _ _ _ _ E). split; [done|].
    rewrite (run_bind _ _ w' w' ()); [done|].
    apply validate_experiences_from_conforming.
    intros j e o He Ho.
    rewrite (only_experiences_differ_read _ _ _ o F).
    + by apply (P j).
    + intros Hin. apply (Hd1 o Hin). by eapply list_elem_of_lookup_2.
  - destruct (validate_educations_from_run orig_edus enh_edus 0 w Hnd2 Hd2)
      as (w' & E & F & P).
    exists w'. unfold validate_educations.
    rewrite (run_bind _ _ _ _ _ E). split; [done|].
    rewrite (run_bind _ _ w' w' ()); [done|].
    apply validate_educations_from_conforming.
    intros j e o He Ho.
    rewrite (only_educations_differ_read _ _ _ o F).
    + by apply (P j).
    + intros Hin. apply (Hd2 o Hin). by eapply list_elem_of_lookup_2.
Qed.

Lemma validation_idempotent_witness :
  (∃ w', validate_experiences [10%nat] (Some [1%nat]) Sample.world_objs
         = (w', Returns [10%nat])
         ∧ validate_experiences [10%nat] (Some [1%nat]) w' = (w', Returns [10%nat]))
  ∧ (∃ w', validate_educations [20%nat] (Some [2%nat]) Sample.world_objs
           = (w', Returns [20%nat])
           ∧ validate_educations [20%nat] (Some [2%nat]) w' = (w', Returns [20%nat])).
Proof.
  apply (validation_idempotent Sample.world_objs [10%nat] [1%nat] [20%nat] [2%nat]).
  - apply NoDup_singleton.
  - intros l ->%list_elem_of_singleton [=]%list_elem_of_singleton.
  - apply NoDup_singleton.
  - intros l ->%list_elem_of_singleton [=]%list_elem_of_singleton.
Defined.

(** *** Projects *)

Lemma only_projects_differ_read (L : list loc) (w w' : World) (l : loc) :
  only_projects_differ L w w' → l ∉ L →
  project_objs w' !!! l = project_objs w !!! l.
Proof. intros (H & _) Hl. by rewrite !lookup_total_alt, H. Qed.

(** The two checks on one project [proj] whose original is [o0], a
    different object. *)
Lemma validate_project_entry (proj o0 : loc) (orig : list loc) (i : nat)
    (k : Py unit) (w : World) :
  orig !! i = Some o0 → o0 ≠ proj →
  ∃ w2,
    (p ← read_project proj;
     (if is_url (Project.project_name p) then
        oi ← py_getitem (Some orig) i;
        o ← read_project oi;
        assign_project proj (Project.set_project_name (Project.project_name o))
      else mret tt);;
     p ← read_project proj;
     (if truthy (Project.project_link p)
         && negb (is_url (default "" (Project.project_link p))) then
        oi ← py_getitem (Some orig) i;
        o ← read_project oi;
        assign_project proj (Project.set_project_link (Project.project_link o))
      else mret tt);;
     k) w = k w2
    ∧ only_projects_differ [proj] w w2
    ∧ project_objs w2 !!! proj
      = validated_project (project_objs w !!! proj) (project_objs w !!! o0).
Proof.
  intros Hi Hne.
  unfold read_project, py_getitem, assign_project. rewrite Hi.
  py_unfold. cbn. unfold validated_project.
  destruct (is_url (Project.project_name (project_objs w !!! proj))) eqn:Hname; cbn.
  - rewrite lookup_total_insert_eq. cbn.
    destruct (truthy (Project.project_link (project_objs w !!! proj))
              && negb (is_url (default ""
                         (Project.project_link (project_objs w !!! proj)))))
      eqn:Hlink; cbn.
    + rewrite lookup_total_insert_ne by done.
      eexists. split; [reflexivity|]. cbn. split.
      * split_and!; try done. cbn. intros l Hl.
        rewrite !lookup_insert_ne; [done | set_solver | set_solver].
      * by rewrite !lookup_total_insert_eq.
    + eexists. split; [reflexivity|]. cbn. split.
      * split_and!; try done. cbn. intros l Hl.
        rewrite !lookup_insert_ne; [done | set_solver].
      * by rewrite lookup_total_insert_eq.
  - destruct (truthy (Project.project_link (project_objs w !!! proj))
              && negb (is_url (default ""
                         (Project.project_link (project_objs w !!! proj)))))
      eqn:Hlink; cbn.
    + eexists. split; [reflexivity|]. cbn. split.
      * split_and!; try done. cbn. intros l Hl.
        rewrite !lookup_insert_ne; [done | set_solver].
      * by rewrite lookup_total_insert_eq.
    + exists w. split; [done|]. split; [apply only_projects_differ_refl|].
      by destruct (project_objs w !!! proj).
Qed.

Lemma validate_projects_from_run (orig : list loc) :
  ∀ (enhanced : list loc) (i : nat) (w : World),
    NoDup enhanced → (∀ l, l ∈ enhanced → l ∉ orig) →
    ∃ w', validate_projects_from i enhanced (Some orig) w = (w', Returns tt)
          ∧ only_projects_differ (take (length orig - i) enhanced) w w'
          ∧ ∀ j e o, enhanced !! j = Some e → orig !! (i + j)%nat = Some o →
              project_objs w' !!! e
              = validated_project (project_objs w !!! e) (project_objs w !!! o).
Proof.
  induction enhanced as [|proj rest IH]; intros i w Hnd Hdisj.
  { exists w. rewrite take_nil.
    split_and!; [done | apply only_projects_differ_refl | done]. }
  apply NoDup_cons in Hnd as [Hproj Hnd].
  cbn [validate_projects_from]. unfold py_len.
  rewrite (run_bind _ _ w w (length orig)) by reflexivity.
  destruct (decide (length orig ≤ i)%nat) as [Hbreak|Hin].
  { exists w. replace (length orig - i)%nat with 0%nat by lia.
    split_and!; [done | apply only_projects_differ_refl |].
    intros j e o _ Ho. apply lookup_lt_Some in Ho. lia. }
  destruct (lookup_lt_is_Some_2 orig i) as [o0 Hi]; [lia|].
  assert (o0 ≠ proj) as Hne.
  { intros ->. apply (Hdisj proj); [left | by eapply list_elem_of_lookup_2]. }
  destruct (validate_project_entry proj o0 orig i
              (validate_projects_from (S i) rest (Some orig)) w Hi Hne)
    as (w2 & E & F & V).
  rewrite E.
  destruct (IH (S i) w2 Hnd) as (w' & E' & F' & P).
  { intros l Hl. apply Hdisj. by right. }
  exists w'. rewrite E'.
  replace (length orig - i)%nat with (S (length orig - S i)) by lia.
  cbn [take]. split_and!; [done | |].
  - apply (only_projects_differ_trans _ w w2 w').
    + eapply only_projects_differ_mono; [|exact F].
      intros x ->%list_elem_of_singleton. left.
    + eapply only_projects_differ_mono; [|exact F'].
      intros x Hx. by right.
  - intros [|j] e o He Ho.
    + injection He as <-. rewrite Nat.add_0_r, Hi in Ho. injection Ho as <-.
      rewrite (only_projects_differ_read _ _ _ proj F'); [done|].
      intros Hx. apply Hproj. by apply (subseteq_take _ _ _ Hx).
    + cbn in He. rewrite <- Nat.add_succ_comm in Ho.
      rewrite (P j e o He Ho).
      assert (e ≠ proj) as He'.
      { intros ->. apply Hproj. by eapply list_elem_of_lookup_2. }
      assert (o ≠ proj) as Ho'.
      { intros ->. apply (Hdisj proj); [left | by eapply list_elem_of_lookup_2]. }
      by rewrite !(only_projects_differ_read _ _ _ _ F)
        by (by intros ?%list_elem_of_singleton).
Qed.

(** X4. [validate_projects] on entries built from a model reply (distinct
    objects, none shared with the originals) returns the list it was
    given and leaves, at every index present in both lists, a project
    whose name is a URL only if the original's name is one, whose link
    is the original's link, or empty, or a URL, and whose description is
    the model's; entries past the original's length are not touched. *)
Theorem validate_projects_result
    (w : World) (enhanced orig : list loc) :
  NoDup enhanced → (∀ l, l ∈ enhanced → l ∉ orig) →
  ∃ w', validate_projects enhanced (Some orig) w = (w', Returns enhanced)
        ∧ only_projects_differ (take (length orig) enhanced) w w'
        ∧ ∀ i e o, enhanced !! i = Some e → orig !! i = Some o →
            let p := project_objs w !!! e in
            let p' := project_objs w' !!! e in
            let po := project_objs w !!! o in
            p' = validated_project p po
            ∧ (is_url (Project.project_name p') = true →
               is_url (Project.project_name po) = true)
            ∧ (Project.project_link p' = Project.project_link po
               ∨ truthy (Project.project_link p') = false
               ∨ is_url (default "" (Project.project_link p')) = true)
            ∧ Project.description p' = Project.description p.
Proof.
  intros Hnd Hdisj.
  destruct (validate_projects_from_run orig enhanced 0 w Hnd Hdisj)
    as (w' & E & F & P).
  exists w'. unfold validate_projects. rewrite (run_bind _ _ _ _ _ E).
  rewrite Nat.sub_0_r in F. split_and!; [done | done |].
  intros i e o He Ho. cbn zeta. rewrite (P i e o He Ho).
  unfold validated_project. cbn.
  split_and!; [done | | | done].
  - destruct (is_url (Project.project_name (project_objs w !!! e))) eqn:Hn;
      [done | by rewrite Hn].
  - destruct (truthy (Project.project_link (project_objs w !!! e))) eqn:Ht; cbn.
    + destruct (is_url (default "" (Project.project_link (project_objs w !!! e))))
        eqn:Hu; cbn; [by right; right | by left].
    + right. by left.
Qed.

Lemma validate_projects_result_witness :
  ∃ w', validate_projects [31%nat] (Some [3%nat]) Sample2.world_projects
        = (w', Returns [31%nat])
        ∧ only_projects_differ (take (length [3%nat]) [31%nat])
                               Sample2.world_projects w'
        ∧ ∀ i e o, [31%nat] !! i = Some e → [3%nat] !! i = Some o →
            let p := project_objs Sample2.world_projects !!! e in
            let p' := project_objs w' !!! e in
            let po := project_objs Sample2.world_projects !!! o in
            p' = validated_project p po
            ∧ (is_url (Project.project_name p') = true →
               is_url (Project.project_name po) = true)
            ∧ (Project.project_link p' = Project.project_link po
               ∨ truthy (Project.project_link p') = false
               ∨ is_url (default "" (Project.project_link p')) = true)
            ∧ Project.description p' = Project.description p.
Proof.
  apply (validate_projects_result Sample2.world_projects [31%nat] [3%nat]).
  - apply NoDup_singleton.
  - intros l ->%list_elem_of_singleton [=]%list_elem_of_singleton.
Defined.

(** ** The stages around the gateway: what they do when things are missing
       or the gateway fails *)

(** X5. Whenever the mapping stage returns, whatever the gateway said,
    the result has a score between 1 and 10 and no null list, exactly
    one gateway call was made and nothing else changed, and validating
    the result once more gives it back unchanged. *)
Theorem mapping_node_returns_normalized
    (state : ResumeEnhancerState.t) (llm : option LLM) (w w' : World)
    (r : MappingResult.t) :
  mapping_node state llm w = (w', Returns r) →
  1 ≤ MappingResult.match_score r ≤ 10
  ∧ is_Some (MappingResult.matched_skills r)
  ∧ is_Some (MappingResult.matched_requirements r)
  ∧ is_Some (MappingResult.gaps r)
  ∧ w' = (count_llm_call w).1
  ∧ _validate_and_normalize_mapping_result r w' = (w', Returns r).
Proof.
  unfold mapping_node, normalize_state, _get_resume_and_jd.
  destruct (ResumeEnhancerState.resume state) as [resume|]; [|by py_unfold].
  destruct (ResumeEnhancerState.job_description state) as [jd|]; [|by py_unfold].
  destruct llm as [llm|]; [|by py_unfold].
  unfold invoke_structured.
  destruct (with_structured_output llm MappingResultCls 0) as [obj|e];
    [|by py_unfold].
  destruct obj as [| |m|?|?|?|?|?|?|?|?]; try (by py_unfold).
  unfold _validate_and_normalize_mapping_result, MappingResult_new.
  py_unfold. cbn -[pretty].
  case_bool_decide as Hs; cbn -[pretty]; [|discriminate].
  rewrite decide_True by done. intros [= <- <-]. cbn -[pretty].
  rewrite bool_decide_eq_true_2 by done. cbn.
  rewrite decide_True by done.
  split_and!; [lia | lia | by eexists | by eexists | by eexists | done | done].
Qed.

Lemma mapping_node_returns_normalized_witness :
  1 ≤ MappingResult.match_score
        (MappingResult.mk (Some ["python"]) (Some []) (Some ["kubernetes"]) 10) ≤ 10
  ∧ is_Some (MappingResult.matched_skills
               (MappingResult.mk (Some ["python"]) (Some []) (Some ["kubernetes"]) 10))
  ∧ is_Some (MappingResult.matched_requirements
               (MappingResult.mk (Some ["python"]) (Some []) (Some ["kubernetes"]) 10))
  ∧ is_Some (MappingResult.gaps
               (MappingResult.mk (Some ["python"]) (Some []) (Some ["kubernetes"]) 10))
  ∧ (count_llm_call Sample.world).1 = (count_llm_call Sample.world).1
  ∧ _validate_and_normalize_mapping_result
      (MappingResult.mk (Some ["python"]) (Some []) (Some ["kubernetes"]) 10)
      (count_llm_call Sample.world).1
    = ((count_llm_call Sample.world).1,
       Returns (MappingResult.mk (Some ["python"]) (Some []) (Some ["kubernetes"]) 10)).
Proof.
  apply (mapping_node_returns_normalized Sample.state_initial
           (Some (Sample.llm_maps (Sample.mapping 10))) Sample.world).
  reflexivity.
Defined.

(** X6. How the mapping stage fails.  With the resume, the job
    description or the gateway missing it raises ValueError before any
    call is made.  A failure of the gateway call is passed on as it is,
    after that one call; and a reply that is not a MappingResult is a
    ValueError, again after one call.  In every case nothing but the
    call counter changes. *)
Theorem mapping_node_failures
    (state : ResumeEnhancerState.t) (llm : option LLM) (w : World) :
  (ResumeEnhancerState.resume state = None
   ∨ ResumeEnhancerState.job_description state = None ∨ llm = None →
   ∃ msg, mapping_node state llm w = (w, Raises (ValueError msg)))
  ∧ (∀ gateway e,
       is_Some (ResumeEnhancerState.resume state) →
       is_Some (ResumeEnhancerState.job_description state) →
       llm = Some gateway →
       with_structured_output gateway MappingResultCls 0 = Raises e →
       mapping_node state llm w = ((count_llm_call w).1, Raises e))
  ∧ (∀ gateway obj,
       is_Some (ResumeEnhancerState.resume state) →
       is_Some (ResumeEnhancerState.job_description state) →
       llm = Some gateway →
       with_structured_output gateway MappingResultCls 0 = Returns obj →
       isinstance obj MappingResultCls = false →
       mapping_node state llm w
       = ((count_llm_call w).1,
          Raises (ValueError "mapping_node: LLM must return MappingResult"))).
Proof.
  unfold mapping_node, normalize_state, _get_resume_and_jd.
  split_and!.
  - intros H.
    destruct (ResumeEnhancerState.resume state) as [resume|];
      [|by eexists].
    destruct (ResumeEnhancerState.job_description state) as [jd|];
      [|by eexists].
    destruct llm as [llm|]; [|by eexists].
    by destruct H as [|[|]].
  - intros g e [resume ->] [jd ->] -> Hfail.
    unfold invoke_structured. rewrite Hfail. by py_unfold.
  - intros g obj [resume ->] [jd ->] -> Hreply Hinst.
    unfold invoke_structured. rewrite Hreply.
    destruct obj; by py_unfold.
Qed.

(** X7. How the feedback stage fails.  Without a mapping result or a
    gateway it raises ValueError and makes no call.  A failure of the
    gateway call is passed on as it is after one call, with no second
    attempt.  Whatever happens, the stage makes at most one call and
    changes nothing else. *)
Theorem feedback_node_failures
    (settings : Settings) (state : ResumeEnhancerState.t) (llm : option LLM)
    (w : World) :
  (ResumeEnhancerState.mapping_result state = None ∨ llm = None →
   ∃ msg, feedback_node settings state llm w = (w, Raises (ValueError msg)))
  ∧ (∀ gateway e,
       is_Some (ResumeEnhancerState.mapping_result state) →
       llm = Some gateway → ainvoke gateway 0 = Raises e →
       feedback_node settings state llm w = ((count_llm_call w).1, Raises e))
  ∧ ((feedback_node settings state llm w).1 = w
     ∨ (feedback_node settings state llm w).1 = (count_llm_call w).1).
Proof.
  unfold feedback_node, normalize_state, _get_mapping_result, invoke_text.
  rewrite try_reraise.
  destruct (ResumeEnhancerState.mapping_result state) as [m|].
  2:{ split_and!; [by eexists | by intros ?? [] | by left]. }
  destruct llm as [gateway|].
  2:{ split_and!; [by eexists | done | by left]. }
  split_and!.
  - by intros [|].
  - intros g e _ [= <-] Hfail. rewrite Hfail. by py_unfold.
  - right. py_unfold. cbn.
    destruct (ainvoke gateway 0) as [[s|parts|]|e]; cbn; try done.
    by destruct (String.eqb (strip s) "").
Qed.

(** X9. The gate reads the state and nothing else: it never changes
    the world, it raises exactly when the state carries no mapping
    result, and it never answers anything but "feedback" or
    "enhance". *)
Theorem route_after_mapping_outcomes
    (settings : Settings) (state : ResumeEnhancerState.t) (w : World) :
  (route_after_mapping settings state w).1 = w
  ∧ (raised (route_after_mapping settings state w).2
     ↔ ResumeEnhancerState.mapping_result state = None)
  ∧ (∀ answer, (route_after_mapping settings state w).2 = Returns answer →
       answer = "feedback" ∨ answer = "enhance").
Proof.
  unfold route_after_mapping, normalize_state.
  destruct (ResumeEnhancerState.mapping_result state) as [m|].
  - destruct (decide (MappingResult.match_score m < SCORE_THRESHOLD settings));
      cbn; (split_and!; [done | split; [intros [] | discriminate] |]).
    + intros a [= <-]. by left.
    + intros a [= <-]. by right.
  - cbn. split_and!; [done | done | discriminate].
Qed.

(** *** Stripping *)

Lemma rstrip_idem (s : string) : rstrip (rstrip s) = rstrip s.
Proof.
  induction s as [|c rest IH]; [done|]. cbn.
  destruct (rstrip rest) as [|c' r'] eqn:E.
  - destruct (py_isspace c) eqn:Hc; [done|]. cbn. by rewrite Hc.
  - cbn [rstrip]. cbn [rstrip] in IH. by rewrite IH.
Qed.

Lemma rstrip_head (c : ascii) (rest : string) :
  py_isspace c = false → ∃ r, rstrip (String c rest) = String c r.
Proof.
  intros Hc. cbn. destruct (rstrip rest); [rewrite Hc|]; by eexists.
Qed.

Lemma lstrip_head (s : string) :
  lstrip s = "" ∨ ∃ c r, lstrip s = String c r ∧ py_isspace c = false.
Proof.
  induction s as [|c rest IH]; [by left|]. cbn.
  destruct (py_isspace c) eqn:Hc; [done|]. right. by exists c, rest.
Qed.

Lemma strip_idem (s : string) : strip (strip s) = strip s.
Proof.
  unfold strip.
  destruct (lstrip_head s) as [->|(c & r & -> & Hc)]; [done|].
  destruct (rstrip_head c r Hc) as [r' E]. rewrite E.
  cbn [lstrip]. rewrite Hc, <- E. apply rstrip_idem.
Qed.

(** X8. Given a FullEnhancementOutput the report stage always returns:
    it makes at most one gateway call and changes nothing else, makes
    no call at all when there is no gateway or no change reason to
    summarise (the report is then absent), and a report it does return
    is never empty and carries no leading or trailing whitespace. *)
Theorem report_node_never_fails
    (state : ResumeEnhancerState.t) (llm : option LLM)
    (full_output : FullEnhancementOutput.t) (w : World) :
  ResumeEnhancerState.full_enhancement_output state = Some full_output →
  ∃ w' report,
    report_node state llm w = (w', Returns report)
    ∧ (w' = w ∨ w' = (count_llm_call w).1)
    ∧ (llm = None ∨ _collect_reasons full_output = [] → w' = w ∧ report = None)
    ∧ (∀ text, report = Some text → text ≠ "" ∧ strip text = text).
Proof.
  intros Hfo.
  unfold report_node, normalize_state, _get_full_output, invoke_text.
  rewrite Hfo.
  rewrite (run_bind _ _ w w (_collect_reasons full_output)) by reflexivity.
  destruct llm as [gateway|].
  2:{ exists w, None. split_and!; [done | by left | done | done]. }
  destruct (_collect_reasons full_output) as [|r rs] eqn:Hreasons.
  { exists w, None. split_and!; [done | by left | done | done]. }
  cbn [nonempty]. py_unfold. cbn.
  destruct (ainvoke gateway 0) as [[s|parts|]|e]; cbn;
    try (eexists _, None; split_and!;
         [reflexivity | by right | by intros [|] | done]).
  destruct (String.eqb (strip s) "") eqn:Hs; cbn.
  - eexists _, None. split_and!; [reflexivity | by right | by intros [|] | done].
  - eexists _, (Some (strip s)).
    split_and!; [reflexivity | by right | by intros [|] |].
    intros text [= <-]. split; [by apply String.eqb_neq | apply strip_idem].
Qed.

Lemma report_node_never_fails_witness :
  ∃ w' report,
    report_node Sample.state_enhanced
      (Some (Sample.llm_says (StrContent "  Summary reworded.  "))) Sample.world
    = (w', Returns report)
    ∧ (w' = Sample.world ∨ w' = (count_llm_call Sample.world).1)
    ∧ (Some (Sample.llm_says (StrContent "  Summary reworded.  ")) = None
       ∨ _collect_reasons Sample.full_output_summary = [] →
       w' = Sample.world ∧ report = None)
    ∧ (∀ text, report = Some text → text ≠ "" ∧ strip text = text).
Proof.
  apply (report_node_never_fails Sample.state_enhanced
           (Some (Sample.llm_says (StrContent "  Summary reworded.  ")))
           Sample.full_output_summary Sample.world).
  reflexivity.
Defined.

(** X10. The format stage returns exactly when the state carries a
    resume and a FullEnhancementOutput and each null list of the resume
    (experiences, projects) is matched by an absent or empty enhanced
    list; what it then returns is the merged resume.  With an input
    missing it raises ValueError and touches no object. *)
Theorem format_node_returns_iff
    (state : ResumeEnhancerState.t) (w : World) :
  ((∃ w' r, format_node state w = (w', Returns r))
   ↔ ∃ resume full_output,
       ResumeEnhancerState.resume state = Some resume
       ∧ ResumeEnhancerState.full_enhancement_output state = Some full_output
       ∧ (Resume.experiences resume = None → enhanced_experiences full_output = [])
       ∧ (Resume.projects resume = None → enhanced_projects full_output = []))
  ∧ (∀ w' r resume full_output,
       format_node state w = (w', Returns r) →
       ResumeEnhancerState.resume state = Some resume →
       ResumeEnhancerState.full_enhancement_output state = Some full_output →
       r = merged_resume resume full_output)
  ∧ (ResumeEnhancerState.resume state = None
     ∨ ResumeEnhancerState.full_enhancement_output state = None →
     ∃ msg, format_node state w = (w, Raises (ValueError msg))).
Proof.
  unfold format_node, normalize_state, _get_format_inputs.
  rewrite try_reraise.
  destruct (ResumeEnhancerState.resume state) as [resume|].
  2:{ split_and!.
      - split; [by intros (?&?&?) | by intros (?&?&?&_)].
      - by intros ????.
      - intros _. by eexists. }
  destruct (ResumeEnhancerState.full_enhancement_output state) as [fo|].
  2:{ split_and!.
      - split; [by intros (?&?&?) | by intros (?&?&_&?&_)].
      - by intros ????.
      - intros _. by eexists. }
  rewrite (run_bind _ _ w w (resume, fo)) by reflexivity.
  split_and!.
  - rewrite (merge_returns_iff resume fo w). split.
    + intros [??]. by exists resume, fo.
    + by intros (? & ? & [= <-] & [= <-] & ? & ?).
  - intros w' r ? ? Hrun [= <-] [= <-].
    destruct (merge_returns_merged_resume resume fo w) as (?&?&w2&E&_).
    + apply (merge_returns_iff resume fo w). eauto.
    + apply (merge_returns_iff resume fo w). eauto.
    + rewrite E in Hrun. by injection Hrun as _ <-.
  - by intros [|].
Qed.

(** ** The sequential orchestrator: retries, calls and bookkeeping *)

Lemma advance_0 (w : World) : advance 0 0 [] w = w.
Proof. by destruct w. Qed.

Lemma advance_advance (r1 r2 c1 c2 : nat) (s1 s2 : list Z) (w : World) :
  advance r2 c2 s2 (advance r1 c1 s1 w)
  = advance (r2 + r1) (c2 + c1) (s2 ++ s1) w.
Proof.
  unfold advance. cbn. f_equal; [lia | by rewrite app_assoc | lia].
Qed.

Lemma advance_same_objects (r c : nat) (s : list Z) (w : World) :
  same_objects w (advance r c s w).
Proof. by repeat split. Qed.

(** X11. One section of the sequential orchestrator makes one gateway
    call when the first reply is usable and two otherwise, never more;
    it sleeps one second between the two attempts and never after the
    last one, so the second configured delay (3 s) is never used; the
    error it reports after two failures is the second attempt's, the
    first one's being dropped. *)
Theorem enhance_single_section_retries
    (section_name : string) (c : OutputClass) (llm : LLM) (w : World) :
  _enhance_single_section section_name c llm w
  = match usable_reply llm c 0 with
    | Some obj => (advance 0 1 [] w, Returns (Some obj, None))
    | None =>
        match usable_reply llm c 1 with
        | Some obj => (advance 0 2 [1] w, Returns (Some obj, None))
        | None => (advance 0 2 [1] w,
                   Returns (None, Some (attempt_error llm c 1)))
        end
    end.
Proof.
  unfold _enhance_single_section, usable_reply, attempt_error.
  cbn [seq SECTIONAL_MAX_RETRIES _enhance_single_section_from].
  unfold invoke_structured.
  destruct (with_structured_output llm c 0) as [obj0|e0];
    [destruct (isinstance obj0 c) eqn:H0|];
    py_unfold; cbn; rewrite ?H0; cbn; try done;
    (destruct (with_structured_output llm c 1) as [obj1|e1];
     [destruct (isinstance obj1 c) eqn:H1|]; cbn; rewrite ?H1; by cbn).
Qed.

Lemma retried_cons (llm : LLM) (nc : string * OutputClass)
    (rest : list (string * OutputClass)) :
  retried llm (nc :: rest) = retried llm [nc] ++ retried llm rest.
Proof. unfold retried. by rewrite (filter_app _ [nc] rest). Qed.

Lemma retried_single (llm : LLM) (n : string) (c : OutputClass) :
  retried llm [(n, c)]
  = match usable_reply llm c 0 with Some _ => [] | None => [(n, c)] end.
Proof.
  unfold retried. rewrite filter_cons, filter_nil. cbn [snd].
  destruct (usable_reply llm c 0); by case_decide.
Qed.

Lemma single_section_world
    (section_name : string) (c : OutputClass) (llm : LLM) (w : World) :
  let again := length (retried llm [(section_name, c)]) in
  ∃ err,
    _enhance_single_section section_name c llm w
    = (advance 0 (1 + again) (replicate again 1) w,
       Returns (first_usable llm c sectional_budget, err))
    ∧ (is_Some (first_usable llm c sectional_budget) → err = None)
    ∧ (first_usable llm c sectional_budget = None →
       err = Some (attempt_error llm c 1)).
Proof.
  cbn zeta. rewrite retried_single.
  unfold _enhance_single_section, sectional_budget, attempt_error.
  cbn [seq SECTIONAL_MAX_RETRIES _enhance_single_section_from first_usable].
  unfold usable_reply, invoke_structured.
  destruct (with_structured_output llm c 0) as [obj0|e0];
    [destruct (isinstance obj0 c) eqn:H0|];
    py_unfold; cbn; rewrite ?H0; cbn.
  - eexists. split_and!; [done | done | done].
  - destruct (with_structured_output llm c 1) as [obj1|e1];
      [destruct (isinstance obj1 c) eqn:H1|]; cbn; rewrite ?H1; cbn;
      eexists; (split_and!; [reflexivity | try done; by intros [] | done]).
  - destruct (with_structured_output llm c 1) as [obj1|e1];
      [destruct (isinstance obj1 c) eqn:H1|]; cbn; rewrite ?H1; cbn;
      eexists; (split_and!; [reflexivity | try done; by intros [] | done]).
Qed.

Lemma succeeding_cons (llm : LLM) (n : string) (c : OutputClass)
    (rest : list (string * OutputClass)) :
  succeeding llm ((n, c) :: rest)
  = match first_usable llm c sectional_budget with
    | Some _ => (n, c) :: succeeding llm rest
    | None => succeeding llm rest
    end.
Proof.
  unfold succeeding. rewrite filter_cons. cbn [snd].
  destruct (first_usable llm c sectional_budget) eqn:E; case_decide as H;
    try done.
  destruct H. by eexists.
Qed.

Lemma failing_cons (llm : LLM) (n : string) (c : OutputClass)
    (rest : list (string * OutputClass)) :
  failing llm ((n, c) :: rest)
  = match first_usable llm c sectional_budget with
    | Some _ => failing llm rest
    | None => (n, c) :: failing llm rest
    end.
Proof.
  unfold failing. rewrite filter_cons. cbn [snd].
  by destruct (first_usable llm c sectional_budget) eqn:E; case_decide as H.
Qed.

Lemma advance_eq (r r' c c' : nat) (s s' : list Z) (w : World) :
  r = r' → c = c' → s = s' → advance r c s w = advance r' c' s' w.
Proof. by intros -> -> ->. Qed.

(** The section loop, with everything it leaves behind: clock readings,
    gateway calls, sleeps, the two name lists and the error messages. *)
Lemma sectional_loop_trace (llm : LLM) :
  ∀ (sections : list (string * OutputClass)) (acc : SectionalAcc) (w : World),
    NoDup sections.*1 →
    ∃ acc',
      sectional_loop sections llm acc w
      = (advance (2 * length sections)
                 (length sections + length (retried llm sections))
                 (replicate (length (retried llm sections)) 1) w,
         Returns acc')
      ∧ acc_sections_succeeded acc'
        = acc_sections_succeeded acc ++ (succeeding llm sections).*1
      ∧ acc_sections_failed acc'
        = acc_sections_failed acc ++ (failing llm sections).*1
      ∧ (∀ n, n ∉ sections.*1 →
           acc_section_errors acc' !! n = acc_section_errors acc !! n)
      ∧ (∀ n c, (n, c) ∈ sections →
           acc_section_errors acc' !! n
           = match first_usable llm c sectional_budget with
             | Some _ => acc_section_errors acc !! n
             | None => Some (or_default (Some (attempt_error llm c 1))
                                        "Unknown error")
             end).
Proof.
  induction sections as [|[n c] rest IH]; intros acc w Hnd.
  { exists acc. cbn. rewrite advance_0, !app_nil_r.
    split_and!; [done | done | done | done |].
    by intros ?? ?%elem_of_nil. }
  cbn [fmap list_fmap fst] in Hnd. apply NoDup_cons in Hnd as [Hn Hnd].
  cbn [sectional_loop].
  rewrite (run_bind _ _ w (advance 1 0 [] w) (now w (clock_reads w)))
    by reflexivity.
  destruct (single_section_world n c llm (advance 1 0 [] w))
    as (err & E & Hsome & Hnone).
  cbn zeta in E. rewrite (run_bind _ _ _ _ _ E). clear E.
  rewrite advance_advance.
  match goal with |- context [(time_time ≫= _) ?w0] =>
    rewrite (run_bind _ _ w0 (advance 1 0 [] w0) (now w0 (clock_reads w0)))
      by reflexivity
  end.
  rewrite advance_advance.
  rewrite succeeding_cons, failing_cons, (retried_cons llm (n, c) rest).
  set (again := length (retried llm [(n, c)])).
  destruct (first_usable llm c sectional_budget) as [obj|] eqn:Hfirst.
  - match goal with |- context [sectional_loop rest llm ?a ?w0] =>
      destruct (IH a w0 Hnd) as (acc' & E' & Hs & Hf & Hother & Hin)
    end.
    exists acc'. rewrite E', advance_advance. cbn [acc_sections_succeeded acc_sections_failed acc_section_errors]
      in Hs, Hf, Hother, Hin.
    split_and!.
    + f_equal. rewrite length_app. fold again. apply advance_eq.
      * cbn [length]. lia.
      * cbn [length]. lia.
      * rewrite app_nil_r, app_nil_l, <- replicate_add. f_equal. lia.
    + rewrite Hs, <- app_assoc. done.
    + done.
    + intros m Hm. apply Hother. intros Hin'. apply Hm. by right.
    + intros m c' [[= -> ->]|Hm]%elem_of_cons.
      * rewrite Hfirst. by apply Hother.
      * by apply Hin.
  - match goal with |- context [sectional_loop rest llm ?a ?w0] =>
      destruct (IH a w0 Hnd) as (acc' & E' & Hs & Hf & Hother & Hin)
    end.
    exists acc'. rewrite E', advance_advance. cbn [acc_sections_succeeded acc_sections_failed acc_section_errors]
      in Hs, Hf, Hother, Hin.
    rewrite (Hnone eq_refl) in *.
    split_and!.
    + f_equal. rewrite length_app. fold again. apply advance_eq.
      * cbn [length]. lia.
      * cbn [length]. lia.
      * rewrite app_nil_r, app_nil_l, <- replicate_add. f_equal. lia.
    + done.
    + rewrite Hf, <- app_assoc. done.
    + intros m Hm. rewrite Hother by (intros Hin'; apply Hm; by right).
      apply lookup_insert_ne. intros ->. apply Hm. left.
    + intros m c' [[= -> ->]|Hm]%elem_of_cons.
      * rewrite Hfirst, (Hother n Hn). apply lookup_insert_eq.
      * rewrite (Hin m c' Hm).
        destruct (first_usable llm c' sectional_budget); [|done].
        apply lookup_insert_ne. intros ->. apply Hn.
        apply list_elem_of_fmap. by exists (m, c').
Qed.

Lemma retried_length (llm : LLM) (sections : list (string * OutputClass)) :
  (length (retried llm sections) ≤ length sections)%nat.
Proof. apply length_filter. Qed.

Lemma succeeding_failing_names (llm : LLM)
    (sections : list (string * OutputClass)) :
  (succeeding llm sections).*1 ++ (failing llm sections).*1 ≡ₚ sections.*1.
Proof.
  induction sections as [|[n c] rest IH]; [done|].
  rewrite succeeding_cons, failing_cons.
  destruct (first_usable llm c sectional_budget); cbn.
  - by rewrite IH.
  - by rewrite <- Permutation_middle, IH.
Qed.

Lemma failing_names (llm : LLM) (sections : list (string * OutputClass))
    (n : string) :
  n ∈ (failing llm sections).*1
  ↔ ∃ c, (n, c) ∈ sections ∧ first_usable llm c sectional_budget = None.
Proof.
  unfold failing. rewrite list_elem_of_fmap. split.
  - intros ([n' c] & -> & [H1 H2]%list_elem_of_filter). by exists c.
  - intros (c & Hin & Hnone). exists (n, c). split; [done|].
    by apply list_elem_of_filter.
Qed.

(** The node, with the loop's trace. *)
Lemma enhance_sectional_node_trace (state : ResumeEnhancerState.t) (llm : LLM)
    (w : World) :
  is_Some (ResumeEnhancerState.resume state) →
  is_Some (ResumeEnhancerState.mapping_result state) →
  let again := length (retried llm SECTIONAL_SECTIONS) in
  ∃ out,
    enhance_sectional_node state (Some llm) w
    = (advance 16 (7 + again) (replicate again 1) w, Returns out)
    ∧ succeeded_list (sectional_metadata out)
      = (succeeding llm SECTIONAL_SECTIONS).*1
    ∧ failed_list (sectional_metadata out) = (failing llm SECTIONAL_SECTIONS).*1
    ∧ sections_succeeded (sectional_metadata out)
      = length (succeeded_list (sectional_metadata out))
    ∧ sections_failed (sectional_metadata out)
      = length (failed_list (sectional_metadata out))
    ∧ total_sections (sectional_metadata out) = 7%nat
    ∧ total_time_ms (sectional_metadata out)
      = now w (15 + clock_reads w)%nat - now w (clock_reads w)
    ∧ (∀ n, n ∉ SECTION_NAMES → section_errors out !! n = None)
    ∧ (∀ n c, (n, c) ∈ SECTIONAL_SECTIONS →
         section_errors out !! n
         = match first_usable llm c sectional_budget with
           | Some _ => None
           | None => Some (or_default (Some (attempt_error llm c 1))
                                      "Unknown error")
           end).
Proof.
  intros [resume Hr] [mapping Hm] again.
  unfold enhance_sectional_node, _extract_inputs_sectional.
  rewrite Hr, Hm.
  rewrite (run_bind _ _ w (advance 1 0 [] w) (now w (clock_reads w)))
    by reflexivity.
  rewrite (run_bind _ _ _ (advance 1 0 [] w) (resume, mapping)) by reflexivity.
  destruct (sectional_loop_trace llm SECTIONAL_SECTIONS
              (mkSectionalAcc FullEnhancementOutput.new ∅ ∅ [] [])
              (advance 1 0 [] w) sectional_names_nodup)
    as (acc & E & Hs & Hf & Hother & Hin).
  rewrite (run_bind _ _ _ _ _ E). clear E. rewrite advance_advance.
  match goal with |- context [(time_time ≫= _) ?w0] =>
    rewrite (run_bind _ _ w0 (advance 1 0 [] w0) (now w0 (clock_reads w0)))
      by reflexivity
  end.
  rewrite advance_advance, run_ret. fold again.
  cbn [acc_sections_succeeded acc_sections_failed acc_section_errors] in *.
  eexists. split_and!.
  - apply (f_equal2 pair); [|reflexivity].
    apply advance_eq;
      [reflexivity | change (length SECTIONAL_SECTIONS) with 7%nat; lia |].
    by rewrite app_nil_l, app_nil_r.
  - by rewrite Hs.
  - by rewrite Hf.
  - done.
  - done.
  - done.
  - done.
  - intros n Hn. cbn [section_errors]. rewrite Hother; [done|].
    by rewrite sectional_names.
  - intros n c Hnc. cbn [section_errors]. rewrite (Hin n c Hnc).
    by destruct (first_usable llm c sectional_budget).
Qed.

(** X12. The sequential orchestrator's use of the gateway and of the
    clock.  It makes one call per section plus one for every section
    whose first reply is unusable: between 7 and 14 calls.  It sleeps
    one second for each of those sections and never otherwise (the 3 s
    delay of the configuration is never used), reads the clock 16 times
    and leaves every object as it was. *)
Theorem sectional_node_gateway_budget
    (state : ResumeEnhancerState.t) (llm : LLM) (w : World) :
  is_Some (ResumeEnhancerState.resume state) →
  is_Some (ResumeEnhancerState.mapping_result state) →
  let again := length (retried llm SECTIONAL_SECTIONS) in
  ∃ w' out,
    enhance_sectional_node state (Some llm) w = (w', Returns out)
    ∧ llm_calls w' = (7 + again + llm_calls w)%nat
    ∧ (again ≤ 7)%nat
    ∧ slept w' = replicate again 1 ++ slept w
    ∧ clock_reads w' = (16 + clock_reads w)%nat
    ∧ same_objects w w'.
Proof.
  intros Hr Hm again.
  destruct (enhance_sectional_node_trace state llm w Hr Hm) as (out & E & _).
  eexists _, out. split; [exact E|]. fold again.
  split_and!; [done | | done | done | apply advance_same_objects].
  apply (retried_length llm SECTIONAL_SECTIONS).
Qed.

Lemma sectional_node_gateway_budget_witness :
  ∃ w' out,
    enhance_sectional_node (Sample.state_of Sample.resume_with_projects)
      (Some Sample.llm_skills_fail) Sample.world_objs = (w', Returns out)
    ∧ llm_calls w'
      = (7 + length (retried Sample.llm_skills_fail SECTIONAL_SECTIONS)
         + llm_calls Sample.world_objs)%nat
    ∧ (length (retried Sample.llm_skills_fail SECTIONAL_SECTIONS) ≤ 7)%nat
    ∧ slept w'
      = replicate (length (retried Sample.llm_skills_fail SECTIONAL_SECTIONS)) 1
        ++ slept Sample.world_objs
    ∧ clock_reads w' = (16 + clock_reads Sample.world_objs)%nat
    ∧ same_objects Sample.world_objs w'.
Proof.
  apply (sectional_node_gateway_budget
           (Sample.state_of Sample.resume_with_projects)
           Sample.llm_skills_fail Sample.world_objs);
    eexists; reflexivity.
Defined.

(** X13. The bookkeeping the sequential orchestrator returns is
    consistent: the succeeded and failed lists are each in processing
    order, together they hold every section name exactly once, the two
    counts are their lengths and add up to total_sections = 7, and a
    name is in the failed list exactly when section_errors has an entry
    for it. *)
Theorem sectional_metadata_consistent
    (state : ResumeEnhancerState.t) (llm : LLM) (w : World) :
  is_Some (ResumeEnhancerState.resume state) →
  is_Some (ResumeEnhancerState.mapping_result state) →
  ∃ w' out,
    enhance_sectional_node state (Some llm) w = (w', Returns out)
    ∧ succeeded_list (sectional_metadata out) `sublist_of` SECTION_NAMES
    ∧ failed_list (sectional_metadata out) `sublist_of` SECTION_NAMES
    ∧ succeeded_list (sectional_metadata out)
      ++ failed_list (sectional_metadata out) ≡ₚ SECTION_NAMES
    ∧ sections_succeeded (sectional_metadata out)
      = length (succeeded_list (sectional_metadata out))
    ∧ sections_failed (sectional_metadata out)
      = length (failed_list (sectional_metadata out))
    ∧ (sections_succeeded (sectional_metadata out)
       + sections_failed (sectional_metadata out))%nat
      = total_sections (sectional_metadata out)
    ∧ total_sections (sectional_metadata out) = 7%nat
    ∧ (∀ n, n ∈ failed_list (sectional_metadata out)
            ↔ is_Some (section_errors out !! n)).
Proof.
  intros Hr Hm.
  destruct (enhance_sectional_node_trace state llm w Hr Hm)
    as (out & E & Hs & Hf & Hns & Hnf & Ht & _ & Hother & Hin).
  eexists _, out. split; [exact E|].
  pose proof (succeeding_failing_names llm SECTIONAL_SECTIONS) as Hperm.
  rewrite sectional_names in Hperm.
  rewrite Hns, Hnf, Ht, Hs, Hf.
  split_and!; [ | | done | done | done | | done | ].
  - rewrite <- sectional_names. apply fmap_sublist, sublist_filter.
  - rewrite <- sectional_names. apply fmap_sublist, sublist_filter.
  - by rewrite <- length_app, Hperm.
  - intros n. rewrite failing_names. split.
    + intros (c & Hnc & Hnone). rewrite (Hin n c Hnc), Hnone. by eexists.
    + intros Hsome.
      destruct (decide (n ∈ SECTION_NAMES)) as [Hn|Hn].
      * rewrite <- sectional_names in Hn.
        apply list_elem_of_fmap in Hn as ([n' c] & -> & Hnc). cbn [fst] in *.
        exists c. split; [done|]. rewrite (Hin _ _ Hnc) in Hsome.
        destruct (first_usable llm c sectional_budget); [|done].
        by destruct Hsome.
      * rewrite (Hother n Hn) in Hsome. by destruct Hsome.
Qed.

Lemma sectional_metadata_consistent_witness :
  ∃ w' out,
    enhance_sectional_node (Sample.state_of Sample.resume_with_projects)
      (Some Sample.llm_skills_fail) Sample.world_objs = (w', Returns out)
    ∧ succeeded_list (sectional_metadata out) `sublist_of` SECTION_NAMES
    ∧ failed_list (sectional_metadata out) `sublist_of` SECTION_NAMES
    ∧ succeeded_list (sectional_metadata out)
      ++ failed_list (sectional_metadata out) ≡ₚ SECTION_NAMES
    ∧ sections_succeeded (sectional_metadata out)
      = length (succeeded_list (sectional_metadata out))
    ∧ sections_failed (sectional_metadata out)
      = length (failed_list (sectional_metadata out))
    ∧ (sections_succeeded (sectional_metadata out)
       + sections_failed (sectional_metadata out))%nat
      = total_sections (sectional_metadata out)
    ∧ total_sections (sectional_metadata out) = 7%nat
    ∧ (∀ n, n ∈ failed_list (sectional_metadata out)
            ↔ is_Some (section_errors out !! n)).
Proof.
  apply (sectional_metadata_consistent
           (Sample.state_of Sample.resume_with_projects)
           Sample.llm_skills_fail Sample.world_objs);
    eexists; reflexivity.
Defined.

Lemma or_default_nonempty (x : option string) (d : string) :
  d ≠ "" → or_default x d ≠ "".
Proof.
  intros Hd. unfold or_default. destruct x as [s|]; [|done].
  destruct (String.eqb s "") eqn:E; [done|]. by apply String.eqb_neq.
Qed.

(** X14. The error kept for a section that failed is the one of the
    second, last attempt (the first attempt's is dropped), with
    "Unknown error" standing in when that text is empty; so no entry of
    section_errors is ever the empty string. *)
Theorem sectional_error_is_last_attempt
    (state : ResumeEnhancerState.t) (llm : LLM) (w : World) :
  is_Some (ResumeEnhancerState.resume state) →
  is_Some (ResumeEnhancerState.mapping_result state) →
  ∃ w' out,
    enhance_sectional_node state (Some llm) w = (w', Returns out)
    ∧ (∀ n c, (n, c) ∈ SECTIONAL_SECTIONS →
         first_usable llm c sectional_budget = None →
         section_errors out !! n
         = Some (or_default (Some (attempt_error llm c 1)) "Unknown error"))
    ∧ (∀ n msg, section_errors out !! n = Some msg → msg ≠ "").
Proof.
  intros Hr Hm.
  destruct (enhance_sectional_node_trace state llm w Hr Hm)
    as (out & E & _ & _ & _ & _ & _ & _ & Hother & Hin).
  eexists _, out. split; [exact E|]. split.
  - intros n c Hnc Hnone. by rewrite (Hin n c Hnc), Hnone.
  - intros n msg Hmsg.
    destruct (decide (n ∈ SECTION_NAMES)) as [Hn|Hn].
    + rewrite <- sectional_names in Hn.
      apply list_elem_of_fmap in Hn as ([n' c] & -> & Hnc). cbn [fst] in *.
      rewrite (Hin _ _ Hnc) in Hmsg.
      destruct (first_usable llm c sectional_budget); [done|].
      injection Hmsg as <-.
      by apply (or_default_nonempty (Some (attempt_error llm c 1)) "Unknown error").
    + by rewrite (Hother n Hn) in Hmsg.
Qed.

Lemma sectional_error_is_last_attempt_witness :
  ∃ w' out,
    enhance_sectional_node (Sample.state_of Sample.resume_with_projects)
      (Some Sample.llm_skills_fail) Sample.world_objs = (w', Returns out)
    ∧ (∀ n c, (n, c) ∈ SECTIONAL_SECTIONS →
         first_usable Sample.llm_skills_fail c sectional_budget = None →
         section_errors out !! n
         = Some (or_default (Some (attempt_error Sample.llm_skills_fail c 1))
                            "Unknown error"))
    ∧ (∀ n msg, section_errors out !! n = Some msg → msg ≠ "").
Proof.
  apply (sectional_error_is_last_attempt
           (Sample.state_of Sample.resume_with_projects)
           Sample.llm_skills_fail Sample.world_objs);
    eexists; reflexivity.
Defined.

(** ** The streaming orchestrator: text, outcome and results *)

Lemma append_nil_l (s : string) : "" +:+ s = s.
Proof. reflexivity. Qed.

Lemma append_cons (c : ascii) (a b : string) :
  String c a +:+ b = String c (a +:+ b).
Proof. reflexivity. Qed.

Lemma append_nil_r (s : string) : s +:+ "" = s.
Proof.
  induction s as [|c s IH]; [done|]. by rewrite append_cons, IH.
Qed.

Lemma append_assoc (a b c : string) : (a +:+ b) +:+ c = a +:+ b +:+ c.
Proof.
  induction a as [|x a IH]; [done|]. by rewrite !append_cons, IH.
Qed.

Lemma length_append (a b : string) :
  String.length (a +:+ b) = (String.length a + String.length b)%nat.
Proof.
  induction a as [|x a IH]; [done|]. rewrite append_cons. cbn. by rewrite IH.
Qed.

Lemma string_drop_append (a b : string) :
  string_drop (String.length a) (a +:+ b) = b.
Proof.
  induction a as [|x a IH]; [done|]. rewrite append_cons. cbn. by rewrite IH.
Qed.

Lemma string_take_append (a b : string) :
  string_take (String.length a) (a +:+ b) = a.
Proof.
  induction a as [|x a IH]; [by destruct b|].
  rewrite append_cons. cbn. by rewrite IH.
Qed.

Lemma prefix_drop (p a : string) :
  String.prefix p a = true → p +:+ string_drop (String.length p) a = a.
Proof.
  revert a. induction p as [|x p IH]; intros a; [done|].
  destruct a as [|y a]; simpl; [done|].
  destruct (Ascii.ascii_dec x y) as [->|]; [|done].
  intros H. by rewrite append_cons, (IH a H).
Qed.

Lemma prefix_append_r (a b : string) : String.prefix a (a +:+ b) = true.
Proof. apply prefix_append, prefix_refl. Qed.

Lemma prefix_trans (a b c : string) :
  String.prefix a b = true → String.prefix b c = true → String.prefix a c = true.
Proof.
  revert b c. induction a as [|x a IH]; intros b c.
  { intros _ _. apply prefix_empty. }
  destruct b as [|y b]; simpl; [done|].
  destruct (Ascii.ascii_dec x y) as [->|]; [|done].
  destruct c as [|z c]; simpl; [by destruct (Ascii.ascii_dec y y)|].
  destruct (Ascii.ascii_dec y z) as [->|]; [|done].
  apply IH.
Qed.

(** One attempt's pass over the chunks: the clock is read once per
    chunk, the text returned is the text so far followed by the text of
    every chunk, and the deltas tile a prefix of it. *)
Lemma consume_chunks_text (name : string) (i : nat) (start_time : Z) :
  ∀ (cs : list Chunk) (acc : string) (last_delta_time : Z) (prev : string)
    (w : World),
    String.prefix prev acc = true →
    ∃ deltas,
      consume_chunks cs name i start_time acc last_delta_time
                     (String.length prev) w
      = (advance (length cs) 0 [] w, Returns (acc +:+ stream_text cs, deltas))
      ∧ Forall (is_delta_of name i) deltas
      ∧ String.prefix (prev +:+ delta_texts deltas) (acc +:+ stream_text cs) = true
      ∧ Forall (λ d, ∃ text, accumulated_text d = Some text
                   ∧ String.prefix text (acc +:+ stream_text cs) = true) deltas.
Proof.
  induction cs as [|chunk rest IH]; intros acc ldt prev w Hpre.
  { exists []. cbn. rewrite advance_0, !append_nil_r. by split_and!. }
  cbn [consume_chunks stream_text foldr]. fold (stream_text rest).
  set (acc' := if negb (String.eqb (chunk_text_of chunk) "")
               then acc +:+ chunk_text_of chunk else acc).
  assert (acc' = acc +:+ chunk_text_of chunk) as Hacc.
  { unfold acc'. destruct (String.eqb_spec (chunk_text_of chunk) "") as [->|];
      cbn; [by rewrite append_nil_r | done]. }
  assert (String.prefix prev acc' = true) as Hpre'.
  { rewrite Hacc. by apply prefix_append. }
  rewrite <- append_assoc, <- Hacc. clearbody acc'.
  rewrite (run_bind _ _ w (advance 1 0 [] w) (now w (clock_reads w)))
    by reflexivity.
  case_decide as Hgate.
  - match goal with |- context [(consume_chunks rest name i start_time acc' ?t _ ≫= _) ?w1] =>
      destruct (IH acc' t acc' w1 (prefix_refl acc')) as (ds & E & Hds & Htile & Hacc')
    end.
    rewrite (run_bind _ _ _ _ _ E). cbn [length].
    rewrite advance_advance. eexists. split_and!.
    + rewrite run_ret. f_equal. apply advance_eq; [lia | done | done].
    + apply Forall_cons. split; [by repeat split | done].
    + cbn [delta_texts foldr delta_text _create_streaming_event default
           from_option id]. fold (delta_texts ds).
      by rewrite <- append_assoc, (prefix_drop prev acc' Hpre').
    + apply Forall_cons. split; [|done].
      exists acc'. split; [done | apply prefix_append_r].
  - destruct (IH acc' ldt prev (advance 1 0 [] w) Hpre')
      as (ds & E & Hds & Htile & Hacc').
    exists ds. rewrite E, advance_advance. split_and!; [|done..].
    f_equal. apply advance_eq; [cbn; lia | done | done].
Qed.

(** X15. Streaming loses no text and does not depend on the clock for
    what it collects: however the clock runs, an attempt reads it once
    per chunk and ends with exactly the texts of all chunks put end to
    end; the accumulated text of every delta sent is a prefix of that
    text, and so are the delta texts put end to end (each delta carries
    exactly what was not sent before). *)
Theorem streamed_text_is_kept
    (cs : list Chunk) (name : string) (i : nat) (start_time last_delta_time : Z)
    (w : World) :
  ∃ w' deltas,
    consume_chunks cs name i start_time "" last_delta_time 0 w
    = (w', Returns (stream_text cs, deltas))
    ∧ clock_reads w' = (length cs + clock_reads w)%nat
    ∧ llm_calls w' = llm_calls w ∧ slept w' = slept w ∧ same_objects w w'
    ∧ String.prefix (delta_texts deltas) (stream_text cs) = true
    ∧ Forall (λ d, ∃ text, accumulated_text d = Some text
                 ∧ String.prefix text (stream_text cs) = true) deltas.
Proof.
  destruct (consume_chunks_text name i start_time cs "" last_delta_time "" w
              (prefix_empty _)) as (deltas & E & Hds & Htile & Hacc).
  cbn in E. eexists _, deltas. split; [exact E|].
  split_and!; [done | done | done | apply advance_same_objects | done |].
  done.
Qed.

(** One attempt at streaming a section, and what follows it. *)
Lemma stream_attempt_step (json_loads_as : OutputClass → string → option PyObj)
    (name : string) (i : nat) (c : OutputClass) (llm : LLM) (start_time : Z)
    (k : nat) (rest : list nat) (last_error : option string) (w : World) :
  let reads := S (length (chunks (astream llm name k))) in
  ∃ deltas,
    Forall (is_delta_of name i) deltas
    ∧ match stream_reply json_loads_as llm name c k with
      | Some obj =>
          stream_attempts json_loads_as (k :: rest) last_error name i c llm
                          start_time w
          = (advance reads 1 [] w, Returns (deltas, Some obj, last_error))
      | None =>
          stream_attempts json_loads_as (k :: rest) last_error name i c llm
                          start_time w
          = ('(evs, result, last_error) ←
               stream_attempts json_loads_as rest
                 (Some (stream_error llm name k)) name i c llm start_time;
             mret (deltas ++ evs, result, last_error))
              (advance reads 1
                 (if decide (k < MAX_RETRIES - 1)%nat then [RETRY_DELAY] else [])
                 w)
      end.
Proof.
  intros reads. cbn [stream_attempts].
  rewrite (run_bind _ _ w (advance 1 0 [] w) (now w (clock_reads w)))
    by reflexivity.
  rewrite (run_bind _ _ _ (advance 1 1 [] w) tt) by reflexivity.
  destruct (consume_chunks_text name i start_time
              (chunks (astream llm name k)) "" (now w (clock_reads w)) ""
              (advance 1 1 [] w) (prefix_empty _))
    as (deltas & E & Hds & _).
  change (String.length "") with 0%nat in E. rewrite append_nil_l in E.
  rewrite (run_bind _ _ _ _ _ E). clear E. rewrite advance_advance.
  replace (length (chunks (astream llm name k)) + 1)%nat with reads
    by (unfold reads; lia).
  change (0 + 1)%nat with 1%nat. rewrite app_nil_l.
  exists deltas. split; [done|].
  unfold stream_reply, stream_error.
  destruct (failure (astream llm name k)) as [e|].
  - case_decide.
    + by rewrite (run_bind _ _ _ (advance 0 0 [RETRY_DELAY] (advance reads 1 [] w)) tt),
        advance_advance by reflexivity.
    + by rewrite (run_bind _ _ _ (advance reads 1 [] w) tt) by reflexivity.
  - destruct (_parse_section_json json_loads_as _ name c) as [obj|]; [done|].
    case_decide.
    + by rewrite (run_bind _ _ _ (advance 0 0 [RETRY_DELAY] (advance reads 1 [] w)) tt),
        advance_advance by reflexivity.
    + by rewrite (run_bind _ _ _ (advance reads 1 [] w) tt) by reflexivity.
Qed.

Lemma stream_retried_single
    (json_loads_as : OutputClass → string → option PyObj)
    (llm : LLM) (n : string) (c : OutputClass) :
  stream_retried json_loads_as llm [(n, c)]
  = match stream_reply json_loads_as llm n c 0 with
    | Some _ => []
    | None => [(n, c)]
    end.
Proof.
  unfold stream_retried. rewrite filter_cons, filter_nil. cbn [fst snd].
  destruct (stream_reply json_loads_as llm n c 0); by case_decide.
Qed.

Lemma stream_attempts_nil (json_loads_as : OutputClass → string → option PyObj)
    (last_error : option string) (name : string) (i : nat) (c : OutputClass)
    (llm : LLM) (start_time : Z) :
  stream_attempts json_loads_as [] last_error name i c llm start_time
  = mret ([], None, last_error).
Proof. reflexivity. Qed.

(** The two attempts a section gets. *)
Lemma stream_attempts_budget (json_loads_as : OutputClass → string → option PyObj)
    (name : string) (i : nat) (c : OutputClass) (llm : LLM) (start_time : Z)
    (w : World) :
  let again := length (stream_retried json_loads_as llm [(name, c)]) in
  ∃ deltas err reads,
    stream_attempts json_loads_as (seq 0 MAX_RETRIES) None name i c llm
                    start_time w
    = (advance reads (1 + again) (replicate again RETRY_DELAY) w,
       Returns (deltas, first_stream_reply json_loads_as llm name c, err))
    ∧ Forall (is_delta_of name i) deltas
    ∧ (first_stream_reply json_loads_as llm name c = None →
       err = Some (stream_error llm name 1)).
Proof.
  cbn zeta. rewrite stream_retried_single. unfold first_stream_reply.
  cbn [seq MAX_RETRIES].
  destruct (stream_attempt_step json_loads_as name i c llm start_time
              0 [1%nat] None w) as (ds0 & Hds0 & E0).
  destruct (stream_reply json_loads_as llm name c 0) as [obj0|].
  { rewrite E0. eexists ds0, None, _. split; [done|]. by split. }
  rewrite E0. clear E0.
  rewrite decide_True by (unfold MAX_RETRIES; lia).
  match goal with |- context [(stream_attempts _ _ ?le _ _ _ _ _ ≫= _) ?w1] =>
    destruct (stream_attempt_step json_loads_as name i c llm start_time
                1 [] le w1) as (ds1 & Hds1 & E1)
  end.
  destruct (stream_reply json_loads_as llm name c 1) as [obj1|].
  - rewrite (run_bind _ _ _ _ _ E1). clear E1. rewrite advance_advance.
    eexists (ds0 ++ ds1), _, _.
    split; [by rewrite run_ret | split; [by apply Forall_app | done]].
  - rewrite decide_False in E1 by (unfold MAX_RETRIES; lia).
    rewrite stream_attempts_nil in E1.
    erewrite (run_bind (mret _)) in E1 by reflexivity.
    rewrite (run_bind _ _ _ _ _ E1). clear E1. rewrite advance_advance.
    eexists (ds0 ++ ds1 ++ []), _, _.
    split; [by rewrite run_ret|].
    split; [rewrite app_nil_r; by apply Forall_app | done].
Qed.

(** The events of one section, with the world they leave. *)
Lemma stream_section_enhancement_trace
    (json_loads_as : OutputClass → string → option PyObj)
    (name : string) (i : nat) (c : OutputClass) (llm : LLM) (start_time : Z)
    (total_sections : nat) (w : World) :
  let again := length (stream_retried json_loads_as llm [(name, c)]) in
  ∃ reads start deltas elapsed,
    stream_section_enhancement json_loads_as name i c llm start_time
                               total_sections w
    = (advance reads (1 + again) (replicate again RETRY_DELAY) w,
       Returns (start :: deltas ++ [
         match first_stream_reply json_loads_as llm name c with
         | Some obj =>
             _create_streaming_event "section_complete" (Some name) (Some i)
               (Some "complete") None None (Some (name, obj)) elapsed None
         | None =>
             _create_streaming_event "error" (Some name) (Some i)
               (Some "error") None None None elapsed
               (Some (or_default (Some (stream_error llm name 1))
                                 "Unknown error"))
         end]))
    ∧ is_start_of name i start
    ∧ Forall (is_delta_of name i) deltas.
Proof.
  intros again. unfold stream_section_enhancement.
  rewrite (run_bind _ _ w (advance 1 0 [] w) (now w (clock_reads w)))
    by reflexivity.
  match goal with |- context [(time_time ≫= _) ?w0] =>
    rewrite (run_bind _ _ w0 (advance 1 0 [] w0) (now w0 (clock_reads w0)))
      by reflexivity
  end.
  rewrite advance_advance.
  match goal with |- context [(stream_attempts _ _ _ _ _ _ _ ?st ≫= _) ?w0] =>
    destruct (stream_attempts_budget json_loads_as name i c llm st w0)
      as (deltas & err & reads & E & Hds & Herr)
  end.
  fold again in E. rewrite (run_bind _ _ _ _ _ E). clear E.
  rewrite advance_advance.
  match goal with |- context [(time_time ≫= _) ?w0] =>
    rewrite (run_bind _ _ w0 (advance 1 0 [] w0) (now w0 (clock_reads w0)))
      by reflexivity
  end.
  rewrite advance_advance.
  match goal with |- context [(time_time ≫= _) ?w0] =>
    rewrite (run_bind _ _ w0 (advance 1 0 [] w0) (now w0 (clock_reads w0)))
      by reflexivity
  end.
  rewrite advance_advance, run_ret.
  eexists _, _, deltas, _. split.
  { apply (f_equal2 pair).
    - apply advance_eq; [reflexivity | lia | by rewrite !app_nil_l, app_nil_r].
    - destruct (first_stream_reply json_loads_as llm name c); [reflexivity|].
      by rewrite (Herr eq_refl). }
  split; [by repeat split | done].
Qed.


Lemma capture_skips (reconstruct : OutputClass → PyObj → option PyObj)
    (events : list Event) (name : string) (c : OutputClass)
    (section_result : option PyObj) :
  Forall (λ ev, event_type ev ≠ "section_complete") events →
  capture_section_result reconstruct events name c section_result
  = section_result.
Proof.
  revert section_result.
  induction events as [|ev rest IH]; intros sr Hall; [done|].
  apply Forall_cons in Hall as [Hev Hrest]. cbn [capture_section_result].
  apply String.eqb_neq in Hev. rewrite Hev. by apply IH.
Qed.

Lemma capture_section_events
    (json_loads_as : OutputClass → string → option PyObj)
    (reconstruct : OutputClass → PyObj → option PyObj)
    (llm : LLM) (name : string) (i : nat) (c : OutputClass)
    (start : Event) (deltas : list Event) (elapsed : Z) :
  is_start_of name i start → Forall (is_delta_of name i) deltas →
  capture_section_result reconstruct
    (start :: deltas ++ [
       match first_stream_reply json_loads_as llm name c with
       | Some obj =>
           _create_streaming_event "section_complete" (Some name) (Some i)
             (Some "complete") None None (Some (name, obj)) elapsed None
       | None =>
           _create_streaming_event "error" (Some name) (Some i)
             (Some "error") None None None elapsed
             (Some (or_default (Some (stream_error llm name 1))
                               "Unknown error"))
       end]) name c None
  = captured json_loads_as reconstruct llm name c.
Proof.
  intros (Hstart & _) Hds. unfold captured.
  cbn [capture_section_result]. rewrite Hstart.
  change (String.eqb "section_start" "section_complete") with false.
  cbv iota.
  assert (∀ l sr, capture_section_result reconstruct (deltas ++ l) name c sr
                  = capture_section_result reconstruct l name c sr) as Happ.
  { clear -Hds. induction deltas as [|d ds IH]; intros l sr; [done|].
    apply Forall_cons in Hds as [(Hd & _) Hds].
    cbn [app capture_section_result]. rewrite Hd.
    change (String.eqb "section_delta" "section_complete") with false.
    by apply IH. }
  rewrite Happ.
  destruct (first_stream_reply json_loads_as llm name c) as [obj|]; cbn.
  - rewrite String.eqb_refl. by destruct (reconstruct c obj).
  - done.
Qed.

Section StreamingResults.

Variable json_loads_as : OutputClass → string → option PyObj.
Variable reconstruct : OutputClass → PyObj → option PyObj.

(** Building an object of a class gives an instance of that class. *)
Hypothesis reconstruct_class :
  ∀ c dumped obj, reconstruct c dumped = Some obj → isinstance obj c = true.

Lemma stream_retried_cons (llm : LLM) (nc : string * OutputClass)
    (rest : list (string * OutputClass)) :
  stream_retried json_loads_as llm (nc :: rest)
  = stream_retried json_loads_as llm [nc] ++ stream_retried json_loads_as llm rest.
Proof. unfold stream_retried. by rewrite (filter_app _ [nc] rest). Qed.

(** The section loop of the streaming pass: what it stores and what it
    costs. *)
Lemma stream_sections_from_trace (llm : LLM) (start_time : Z)
    (total_sections : nat) :
  ∀ (sections : list (string * OutputClass)) (i : nat)
    (fo : FullEnhancementOutput.t) (timings : gmap string Z) (w : World),
    NoDup sections.*1 → sections ⊆ STREAMING_SECTIONS →
    let again := length (stream_retried json_loads_as llm sections) in
    ∃ reads events fo' timings',
      stream_sections_from json_loads_as reconstruct i sections llm start_time
                           total_sections fo timings w
      = (advance reads (length sections + again) (replicate again RETRY_DELAY) w,
         Returns (events, fo', timings'))
      ∧ (∀ n, n ∉ sections.*1 →
           getattr_section fo' n = getattr_section fo n
           ∧ timings' !! n = timings !! n)
      ∧ (∀ n c, (n, c) ∈ sections →
           match captured json_loads_as reconstruct llm n c with
           | Some obj =>
               getattr_section fo' n = Some obj ∧ is_Some (timings' !! n)
           | None =>
               getattr_section fo' n = getattr_section fo n
               ∧ timings' !! n = timings !! n
           end).
Proof.
  induction sections as [|[n c] rest IH]; intros i fo timings w Hnd Hsub again.
  { exists 0%nat, [], fo, timings. cbn. rewrite advance_0.
    split_and!; [done | done |]. by intros ?? ?%elem_of_nil. }
  cbn [fmap list_fmap fst] in Hnd. apply NoDup_cons in Hnd as [Hn Hnd].
  assert ((n, c) ∈ SECTIONAL_SECTIONS) as Hnc by (apply Hsub; left).
  assert (rest ⊆ STREAMING_SECTIONS) as Hsub'.
  { intros x Hx. apply Hsub. by right. }
  cbn [stream_sections_from].
  rewrite (run_bind _ _ w (advance 1 0 [] w) (now w (clock_reads w)))
    by reflexivity.
  destruct (stream_section_enhancement_trace json_loads_as n i c llm start_time
              total_sections (advance 1 0 [] w))
    as (reads1 & start & deltas & elapsed & E & Hstart & Hds).
  cbn zeta in E. rewrite (run_bind _ _ _ _ _ E). clear E.
  rewrite advance_advance.
  rewrite (capture_section_events json_loads_as reconstruct llm n i c start
             deltas elapsed Hstart Hds).
  unfold again. rewrite (stream_retried_cons llm (n, c) rest), length_app.
  set (again1 := length (stream_retried json_loads_as llm [(n, c)])).
  set (again2 := length (stream_retried json_loads_as llm rest)).
  destruct (captured json_loads_as reconstruct llm n c) as [obj|] eqn:Hcap.
  - assert (isinstance obj c = true) as Hinst.
    { unfold captured in Hcap.
      destruct (first_stream_reply json_loads_as llm n c) as [o|]; [|done].
      by apply (reconstruct_class c o). }
    rewrite bind_assoc_run.
    match goal with |- context [(time_time ≫= _) ?w0] =>
      rewrite (run_bind _ _ w0 (advance 1 0 [] w0) (now w0 (clock_reads w0)))
        by reflexivity
    end.
    rewrite advance_advance.
    erewrite (run_bind (mret _)) by reflexivity.
    cbv beta iota.
    match goal with
    | |- context [stream_sections_from _ _ _ rest _ _ _ ?fo1 ?t1] =>
        match goal with |- context [(_ ≫= _) ?w1] =>
          destruct (IH (S i) fo1 t1 w1 Hnd Hsub')
            as (reads2 & later & fo' & timings' & E' & Hother & Hin)
        end
    end.
    fold again2 in E'. rewrite (run_bind _ _ _ _ _ E'). clear E'.
    rewrite advance_advance, run_ret.
    eexists _, _, fo', timings'. split; [|split].
    + apply (f_equal2 pair); [|reflexivity].
      apply advance_eq; [reflexivity | cbn [length]; lia |].
      rewrite !app_nil_l, !app_nil_r, <- replicate_add. f_equal. lia.
    + intros m Hm.
      destruct (Hother m) as [-> ->]; [intros ?; apply Hm; by right|].
      assert (m ≠ n) as Hneq by (intros ->; apply Hm; left).
      split; [by apply getattr_setattr_ne | by apply lookup_insert_ne].
    + intros m c' [[= -> ->]|Hm]%elem_of_cons.
      * rewrite Hcap. destruct (Hother n Hn) as [-> ->].
        split; [by apply (getattr_setattr_eq _ _ c) |].
        rewrite lookup_insert_eq. by eexists.
      * specialize (Hin m c' Hm).
        assert (m ≠ n) as Hneq.
        { intros ->. apply Hn. apply list_elem_of_fmap. by exists (n, c'). }
        destruct (captured json_loads_as reconstruct llm m c'); [done|].
        destruct Hin as [-> ->].
        split; [by apply getattr_setattr_ne | by apply lookup_insert_ne].
  - erewrite (run_bind (mret _)) by reflexivity.
    cbv beta iota.
    match goal with |- context [(_ ≫= _) ?w1] =>
      destruct (IH (S i) fo timings w1 Hnd Hsub')
        as (reads2 & later & fo' & timings' & E' & Hother & Hin)
    end.
    fold again2 in E'. rewrite (run_bind _ _ _ _ _ E'). clear E'.
    rewrite advance_advance, run_ret.
    eexists _, _, fo', timings'. split; [|split].
    + apply (f_equal2 pair); [|reflexivity].
      apply advance_eq; [reflexivity | cbn [length]; lia |].
      rewrite ?app_nil_l, ?app_nil_r, <- replicate_add. f_equal. lia.
    + intros m Hm. apply Hother. intros ?. apply Hm. by right.
    + intros m c' [[= -> ->]|Hm]%elem_of_cons.
      * rewrite Hcap. by apply Hother.
      * by apply Hin.
Qed.

End StreamingResults.

Lemma streaming_names_nodup : NoDup STREAMING_SECTIONS.*1.
Proof. apply sectional_names_nodup. Qed.

(** X17. What the streaming pass hands on agrees with the events it
    sent.  Provided that building an object of a class gives an
    instance of that class, the pass always yields its events followed
    by one internal result, in which a section is filled exactly with
    the reply of its section_complete event read back, a timing is
    recorded exactly for the sections that are filled, and nothing is
    stored under any other name.  The pass makes 7 gateway calls plus
    one for each section whose first attempt fails, and sleeps
    RETRY_DELAY once for each of those. *)
Theorem streaming_results_match_events
    (json_loads_as : OutputClass → string → option PyObj)
    (reconstruct : OutputClass → PyObj → option PyObj)
    (resume : Resume.t) (mapping_result : MappingResult.t) (llm : LLM)
    (w : World) :
  (∀ c dumped obj, reconstruct c dumped = Some obj → isinstance obj c = true) →
  let again := length (stream_retried json_loads_as llm STREAMING_SECTIONS) in
  ∃ w' events full_output timings,
    stream_all_sections json_loads_as reconstruct resume mapping_result llm w
    = (w', Returns ((YEvent <$> events) ++ [YInternalResults full_output timings]))
    ∧ (∀ n c, (n, c) ∈ STREAMING_SECTIONS →
         getattr_section full_output n
         = captured json_loads_as reconstruct llm n c
         ∧ (is_Some (timings !! n) ↔ is_Some (getattr_section full_output n)))
    ∧ (∀ n, n ∉ SECTION_NAMES →
         getattr_section full_output n = None ∧ timings !! n = None)
    ∧ llm_calls w' = (7 + again + llm_calls w)%nat
    ∧ (again ≤ 7)%nat
    ∧ slept w' = replicate again RETRY_DELAY ++ slept w
    ∧ same_objects w w'.
Proof.
  intros Hclass again. unfold stream_all_sections.
  rewrite (run_bind _ _ w (advance 1 0 [] w) (now w (clock_reads w)))
    by reflexivity.
  destruct (stream_sections_from_trace json_loads_as reconstruct Hclass llm
              (now w (clock_reads w)) (length STREAMING_SECTIONS)
              STREAMING_SECTIONS 0 FullEnhancementOutput.new ∅
              (advance 1 0 [] w) streaming_names_nodup (reflexivity _))
    as (reads & events & fo & timings & E & Hother & Hin).
  fold again in E. rewrite (run_bind _ _ _ _ _ E). clear E.
  rewrite advance_advance.
  match goal with |- context [(time_time ≫= _) ?w0] =>
    rewrite (run_bind _ _ w0 (advance 1 0 [] w0) (now w0 (clock_reads w0)))
      by reflexivity
  end.
  rewrite advance_advance, run_ret.
  eexists _, events, fo, timings. split; [reflexivity|].
  split_and!.
  - intros n c Hnc. specialize (Hin n c Hnc).
    destruct (captured json_loads_as reconstruct llm n c) as [obj|].
    + destruct Hin as [-> Ht]. split; [done|]. split; [by eexists | done].
    + destruct Hin as [-> ->]. rewrite getattr_new, lookup_empty.
      split; [done|]. split; by intros [].
  - intros n Hn. rewrite <- streaming_names in Hn.
    destruct (Hother n Hn) as [-> ->]. by rewrite getattr_new, lookup_empty.
  - cbn. change (length STREAMING_SECTIONS) with 7%nat. lia.
  - apply length_filter.
  - cbn. by rewrite !app_nil_r.
  - apply advance_same_objects.
Qed.

Lemma streaming_results_match_events_witness :
  ∃ w' events full_output timings,
    stream_all_sections Sample2.parses_summary Sample2.reconstructs_same
      Sample.resume_plain (Sample.mapping 8) Sample2.llm_streams Sample.world
    = (w', Returns ((YEvent <$> events) ++ [YInternalResults full_output timings]))
    ∧ (∀ n c, (n, c) ∈ STREAMING_SECTIONS →
         getattr_section full_output n
         = captured Sample2.parses_summary Sample2.reconstructs_same
                    Sample2.llm_streams n c
         ∧ (is_Some (timings !! n) ↔ is_Some (getattr_section full_output n)))
    ∧ (∀ n, n ∉ SECTION_NAMES →
         getattr_section full_output n = None ∧ timings !! n = None)
    ∧ llm_calls w'
      = (7 + length (stream_retried Sample2.parses_summary Sample2.llm_streams
                       STREAMING_SECTIONS)
         + llm_calls Sample.world)%nat
    ∧ (length (stream_retried Sample2.parses_summary Sample2.llm_streams
                 STREAMING_SECTIONS) ≤ 7)%nat
    ∧ slept w'
      = replicate (length (stream_retried Sample2.parses_summary
                             Sample2.llm_streams STREAMING_SECTIONS))
                  RETRY_DELAY ++ slept Sample.world
    ∧ same_objects Sample.world w'.
Proof.
  apply (streaming_results_match_events Sample2.parses_summary
           Sample2.reconstructs_same Sample.resume_plain (Sample.mapping 8)
           Sample2.llm_streams Sample.world).
  intros c dumped obj. unfold Sample2.reconstructs_same.
  destruct (isinstance dumped c) eqn:E; [|done]. by intros [= <-].
Defined.

(** On that input the summary is the one section that is filled: its
    text is the two chunks put end to end, and thirteen calls are
    made. *)
Example streaming_sample_summary :
  captured Sample2.parses_summary Sample2.reconstructs_same Sample2.llm_streams
           "summary" SummaryEnhancementOutputCls
  = Some (PySummaryOut (Enh.mk "Engineer with ten years" []))
  ∧ length (stream_retried Sample2.parses_summary Sample2.llm_streams
              STREAMING_SECTIONS) = 6%nat.
Proof. split; by vm_compute. Qed.

(** ** Code fences around a streamed reply *)

Lemma whitespace_only_append (s t : string) :
  whitespace_only (s +:+ t) = whitespace_only s && whitespace_only t.
Proof.
  induction s as [|c s IH]; [done|].
  rewrite append_cons. cbn. rewrite IH. by destruct (py_isspace c).
Qed.

Lemma lstrip_append (s t : string) :
  whitespace_only s = false → lstrip (s +:+ t) = lstrip s +:+ t.
Proof.
  induction s as [|c s IH]; [done|].
  rewrite append_cons. cbn. destruct (py_isspace c); [apply IH | done].
Qed.

Lemma rstrip_append_space (s t : string) :
  whitespace_only t = true → rstrip (s +:+ t) = rstrip s.
Proof.
  intros Ht. induction s as [|c s IH]; [by apply rstrip_empty|].
  rewrite append_cons. cbn. by rewrite IH.
Qed.

Lemma rstrip_append_fixed (s t : string) :
  t ≠ "" → rstrip t = t → rstrip (s +:+ t) = s +:+ t.
Proof.
  intros Hne Ht. induction s as [|c s IH]; [done|].
  rewrite append_cons. cbn. rewrite IH.
  destruct (s +:+ t) eqn:E; [|done].
  destruct s; [by rewrite append_nil_l in E | by rewrite append_cons in E].
Qed.

Lemma strip_line (body : string) : strip (NL +:+ body +:+ NL) = strip body.
Proof.
  unfold strip. change (NL +:+ body +:+ NL) with (String "010" (body +:+ NL)).
  cbn [lstrip]. change (py_isspace "010") with true. cbv iota.
  destruct (whitespace_only body) eqn:Hws.
  - assert (lstrip (body +:+ NL) = "") as ->.
    { apply lstrip_empty. by rewrite whitespace_only_append, Hws. }
    apply lstrip_empty in Hws. by rewrite Hws.
  - rewrite (lstrip_append body NL Hws). by apply rstrip_append_space.
Qed.

Lemma endswith_append (s suffix : string) : endswith (s +:+ suffix) suffix = true.
Proof.
  unfold endswith. rewrite length_append.
  replace (String.length s + String.length suffix - String.length suffix)%nat
    with (String.length s) by lia.
  rewrite string_drop_append, String.eqb_refl, andb_true_r.
  apply Nat.leb_le. lia.
Qed.

Lemma string_take_suffix (s suffix : string) :
  string_take (String.length (s +:+ suffix) - String.length suffix)
              (s +:+ suffix) = s.
Proof.
  rewrite length_append.
  replace (String.length s + String.length suffix - String.length suffix)%nat
    with (String.length s) by lia.
  apply string_take_append.
Qed.

(** What is left of a fenced reply once the opening fence is gone. *)
Lemma unfence_tail (json_loads_as : OutputClass → string → option PyObj)
    (c : OutputClass) (body : string) :
  let text := NL +:+ body +:+ NL +:+ "```" in
  let text := if String.prefix "```" text then string_drop 3 text else text in
  let text := if endswith text "```"
              then string_take (String.length text - 3) text else text in
  json_loads_as c (strip text) = json_loads_as c (strip body).
Proof.
  cbn zeta.
  change (String.prefix "```" (NL +:+ body +:+ NL +:+ "```")) with false.
  cbv iota.
  assert (NL +:+ body +:+ NL +:+ "```" = (NL +:+ body +:+ NL) +:+ "```") as ->.
  { by rewrite !append_assoc. }
  rewrite endswith_append.
  change 3%nat with (String.length "```").
  by rewrite string_take_suffix, strip_line.
Qed.

Lemma strip_fenced (fence body : string) (c0 : ascii) (rest : string) :
  fence = String c0 rest → py_isspace c0 = false →
  strip (fenced fence body) = fenced fence body.
Proof.
  intros -> Hc0. unfold strip, fenced. rewrite append_cons. cbn [lstrip].
  rewrite Hc0, <- append_cons.
  assert (String c0 rest +:+ NL +:+ body +:+ NL +:+ "```"
          = (String c0 rest +:+ NL +:+ body +:+ NL) +:+ "```") as ->.
  { by rewrite !append_assoc. }
  by apply rstrip_append_fixed.
Qed.

(** X18. Code fences are taken off a streamed reply before it is
    parsed: a reply wrapped in a fence opened by three backquotes and
    "json", or by three backquotes alone, each fence on a line of its
    own, is parsed exactly as its body with the surrounding whitespace
    removed; and a reply that, once stripped, neither starts nor ends
    with three backquotes is parsed exactly as its stripped text. *)
Theorem parse_section_json_fences
    (json_loads_as : OutputClass → string → option PyObj)
    (name : string) (c : OutputClass) (body : string) :
  _parse_section_json json_loads_as (fenced "```json" body) name c
  = json_loads_as c (strip body)
  ∧ _parse_section_json json_loads_as (fenced "```" body) name c
    = json_loads_as c (strip body)
  ∧ (String.prefix "```" (strip body) = false →
     endswith (strip body) "```" = false →
     _parse_section_json json_loads_as body name c
     = json_loads_as c (strip body)).
Proof.
  unfold _parse_section_json. split_and!.
  - rewrite (strip_fenced "```json" body "`" "``json") by done.
    unfold fenced. rewrite prefix_append_r.
    change 7%nat with (String.length "```json").
    rewrite string_drop_append. apply unfence_tail.
  - rewrite (strip_fenced "```" body "`" "``") by done.
    change (fenced "```" body) with ("```" +:+ NL +:+ body +:+ NL +:+ "```").
    change (String.prefix "```json" ("```" +:+ NL +:+ body +:+ NL +:+ "```"))
      with false.
    cbv iota. rewrite prefix_append_r.
    change 3%nat with (String.length "```") at 1.
    rewrite string_drop_append.
    pose proof (unfence_tail json_loads_as c body) as H. cbn zeta in H.
    change (String.prefix "```" (NL +:+ body +:+ NL +:+ "```")) with false in H.
    by cbv iota in H.
  - intros Hstart Hend.
    assert (String.prefix "```json" (strip body) = false) as ->.
    { destruct (String.prefix "```json" (strip body)) eqn:E; [|done].
      rewrite <- Hstart. symmetry.
      by apply (prefix_trans "```" "```json" (strip body)). }
    by rewrite Hstart, Hend, strip_idem.
Qed.

(** ** The incremental endpoint *)

Lemma relay_events_run (yielded : list Yielded)
    (fo : option FullEnhancementOutput.t) (timings : gmap string Z) (w : World) :
  ∃ fo' timings',
    relay_events yielded fo timings w
    = (w, SseSection <$> events_of yielded, Returns (fo', timings')).
Proof.
  revert fo timings. induction yielded as [|[ev|f t] rest IH]; intros fo timings.
  - by eexists _, _.
  - destruct (IH fo timings) as (fo' & t' & E).
    exists fo', t'. cbn [relay_events]. unfold mbind, Gen_bind, yield.
    by rewrite E.
  - destruct (IH (Some f) t) as (fo' & t' & E). by exists fo', t'.
Qed.

Lemma relay_events_pass (events : list Event) (f : FullEnhancementOutput.t)
    (t : gmap string Z) (fo : option FullEnhancementOutput.t)
    (timings : gmap string Z) (w : World) :
  relay_events ((YEvent <$> events) ++ [YInternalResults f t]) fo timings w
  = (w, SseSection <$> events, Returns (Some f, t)).
Proof.
  induction events as [|ev rest IH]; [done|].
  cbn [fmap list_fmap app relay_events]. unfold mbind, Gen_bind, yield.
  by rewrite IH.
Qed.

Lemma section_events_not_terminal (events : list Event) :
  Forall (λ ev, ¬ terminal ev) (SseSection <$> events).
Proof. apply Forall_fmap, Forall_forall. by intros ev _ []. Qed.

Ltac closes_stream :=
  split; [reflexivity|];
  split; [repeat (apply Forall_cons; split; [by intros []|]);
          first [done | apply section_events_not_terminal]
         | done].

(** X19. The incremental endpoint never lets an exception escape and
    always ends its response properly: whatever the request, the
    gateway and the clock do, it returns, and what it has sent is a run
    of progress events (mapping_start, mapping_complete, section
    events) followed by exactly one closing event, a complete event or
    an error event of the endpoint. *)
Theorem incremental_stream_always_closes
    (json_loads_as : OutputClass → string → option PyObj)
    (reconstruct : OutputClass → PyObj → option PyObj)
    (settings : Settings) (app_llm : option LLM) (body : EnhanceRequest.t)
    (w : World) :
  ∃ w' progress closing,
    enhance_incremental_stream json_loads_as reconstruct settings app_llm body w
    = (w', progress ++ [closing], Returns tt)
    ∧ Forall (λ ev, ¬ terminal ev) progress
    ∧ terminal closing.
Proof.
  unfold enhance_incremental_stream.
  destruct app_llm as [llm|]; [|by exists w, [], (SseError None "LLM not initialized")].
  unfold gen_try, mbind, Gen_bind, yield, await.
  destruct (mapping_node _ (Some llm) w) as [w1 [m|e]].
  2:{ eexists _, [SseMappingStart], _. closes_stream. }
  case_decide.
  { destruct (feedback_node settings _ (Some llm) w1) as [w2 [msg|e]];
      eexists _, [SseMappingStart; SseMappingComplete _], _; closes_stream. }
  destruct (stream_all_sections json_loads_as reconstruct _ m llm w1)
    as [w2 [yielded|e]].
  2:{ eexists _, [SseMappingStart; SseMappingComplete _], _; closes_stream. }
  destruct (relay_events_run yielded None ∅ w2) as (fo & t & ->).
  destruct (format_node _ w2) as [w3 [enhanced|e]].
  2:{ eexists _, (SseMappingStart :: SseMappingComplete _
                    :: (SseSection <$> events_of yielded)), _.
      rewrite !app_nil_r. closes_stream. }
  destruct (report_node _ (Some llm) w3) as [w4 [report|e]];
    eexists _, (SseMappingStart :: SseMappingComplete _
                  :: (SseSection <$> events_of yielded)), _;
    rewrite ?app_nil_r; closes_stream.
Qed.

Lemma mapping_node_run (state : ResumeEnhancerState.t) (llm : LLM)
    (m : MappingResult.t) (w : World) :
  is_Some (ResumeEnhancerState.resume state) →
  is_Some (ResumeEnhancerState.job_description state) →
  with_structured_output llm MappingResultCls 0 = Returns (PyMappingResult m) →
  1 ≤ MappingResult.match_score m ≤ 10 →
  mapping_node state (Some llm) w = (advance 0 1 [] w, Returns (normalized m)).
Proof.
  intros [resume Hr] [jd Hj] Hllm Hs.
  unfold mapping_node, normalize_state, _get_resume_and_jd. rewrite Hr, Hj.
  unfold invoke_structured. rewrite Hllm.
  unfold _validate_and_normalize_mapping_result, MappingResult_new.
  py_unfold. cbn -[pretty].
  rewrite bool_decide_eq_true_2 by done. cbn.
  by rewrite decide_True.
Qed.

Lemma feedback_node_run (settings : Settings) (state : ResumeEnhancerState.t)
    (llm : LLM) (text : string) (w : World) :
  is_Some (ResumeEnhancerState.mapping_result state) →
  ainvoke llm 0 = Returns (StrContent text) →
  whitespace_only text = false →
  feedback_node settings state (Some llm) w = (advance 0 1 [] w, Returns text).
Proof.
  intros [m Hm] Hllm Hws.
  unfold feedback_node, normalize_state, _get_mapping_result, invoke_text.
  rewrite try_reraise, Hm, Hllm. py_unfold. cbn.
  destruct (String.eqb (strip text) "") eqn:Hs; [|done].
  apply String.eqb_eq, strip_empty in Hs. congruence.
Qed.

Lemma feedback_node_raises (settings : Settings) (state : ResumeEnhancerState.t)
    (llm : LLM) (e : exn) (w : World) :
  is_Some (ResumeEnhancerState.mapping_result state) →
  ainvoke llm 0 = Raises e →
  feedback_node settings state (Some llm) w = (advance 0 1 [] w, Raises e).
Proof.
  intros [m Hm] Hllm.
  unfold feedback_node, normalize_state, _get_mapping_result, invoke_text.
  rewrite try_reraise, Hm, Hllm. by py_unfold.
Qed.

(** X20. The feedback path of the incremental endpoint.  When the
    mapping stage scores the resume below the threshold, no section is
    streamed and nothing is merged: with usable feedback text the
    response is exactly mapping_start, mapping_complete with the score,
    and a complete event with status feedback carrying the model's text
    unchanged, after exactly two gateway calls; and when the feedback
    call fails, the third event is an error event with that failure's
    message. *)
Theorem incremental_stream_feedback_path
    (json_loads_as : OutputClass → string → option PyObj)
    (reconstruct : OutputClass → PyObj → option PyObj)
    (settings : Settings) (llm : LLM) (body : EnhanceRequest.t)
    (m : MappingResult.t) (w : World) :
  with_structured_output llm MappingResultCls 0 = Returns (PyMappingResult m) →
  1 ≤ MappingResult.match_score m ≤ 10 →
  MappingResult.match_score m < SCORE_THRESHOLD settings →
  (∀ text, ainvoke llm 0 = Returns (StrContent text) →
           whitespace_only text = false →
     enhance_incremental_stream json_loads_as reconstruct settings (Some llm)
                                body w
     = (advance 0 2 [] w,
        [SseMappingStart;
         SseMappingComplete (MappingResult.match_score m);
         SseFeedback (EnhanceRequest.resume body)
                     (EnhanceRequest.job_description body)
                     (normalized m) text],
        Returns tt))
  ∧ (∀ e, ainvoke llm 0 = Raises e →
     enhance_incremental_stream json_loads_as reconstruct settings (Some llm)
                                body w
     = (advance 0 2 [] w,
        [SseMappingStart;
         SseMappingComplete (MappingResult.match_score m);
         SseError (Some "error") (exn_str e)],
        Returns tt)).
Proof.
  intros Hllm Hs Hlow.
  unfold enhance_incremental_stream, gen_try, mbind, Gen_bind, yield, await.
  rewrite (mapping_node_run _ llm m w) by (done || by eexists).
  cbn [normalized MappingResult.match_score].
  rewrite decide_True by done.
  split.
  - intros text Htext Hws.
    rewrite (feedback_node_run settings _ llm text) by (done || by eexists).
    by rewrite advance_advance.
  - intros e He.
    rewrite (feedback_node_raises settings _ llm e) by (done || by eexists).
    by rewrite advance_advance.
Qed.

Lemma incremental_stream_feedback_path_witness :
  (∀ text, ainvoke (Sample2.llm_scores 4) 0 = Returns (StrContent text) →
           whitespace_only text = false →
     enhance_incremental_stream Sample.rejects_all Sample.reconstructs_none
       (mkSettings 7) (Some (Sample2.llm_scores 4)) Sample2.request Sample.world
     = (advance 0 2 [] Sample.world,
        [SseMappingStart;
         SseMappingComplete (MappingResult.match_score (Sample.mapping 4));
         SseFeedback (EnhanceRequest.resume Sample2.request)
                     (EnhanceRequest.job_description Sample2.request)
                     (normalized (Sample.mapping 4)) text],
        Returns tt))
  ∧ (∀ e, ainvoke (Sample2.llm_scores 4) 0 = Raises e →
     enhance_incremental_stream Sample.rejects_all Sample.reconstructs_none
       (mkSettings 7) (Some (Sample2.llm_scores 4)) Sample2.request Sample.world
     = (advance 0 2 [] Sample.world,
        [SseMappingStart;
         SseMappingComplete (MappingResult.match_score (Sample.mapping 4));
         SseError (Some "error") (exn_str e)],
        Returns tt)).
Proof.
  apply (incremental_stream_feedback_path Sample.rejects_all
           Sample.reconstructs_none (mkSettings 7) (Sample2.llm_scores 4)
           Sample2.request (Sample.mapping 4) Sample.world);
    [reflexivity | by vm_compute | by vm_compute].
Defined.

(** On that request the response is the three events, the last one
    carrying the gateway's sentence. *)
Example incremental_stream_feedback_sample :
  (enhance_incremental_stream Sample.rejects_all Sample.reconstructs_none
     (mkSettings 7) (Some (Sample2.llm_scores 4)) Sample2.request Sample.world).1.2
  = [SseMappingStart; SseMappingComplete 4;
     SseFeedback Sample.resume_plain Sample.job
       (MappingResult.mk (Some ["python"]) (Some []) (Some ["kubernetes"]) 4)
       "Keep going."].
Proof. reflexivity. Qed.

Lemma stream_all_sections_returns
    (json_loads_as : OutputClass → string → option PyObj)
    (reconstruct : OutputClass → PyObj → option PyObj)
    (resume : Resume.t) (mapping_result : MappingResult.t) (llm : LLM)
    (w : World) :
  ∃ w' events full_output timings,
    stream_all_sections json_loads_as reconstruct resume mapping_result llm w
    = (w', Returns ((YEvent <$> events) ++ [YInternalResults full_output timings])).
Proof.
  unfold stream_all_sections.
  erewrite (run_bind time_time) by reflexivity.
  match goal with |- context [(stream_sections_from _ _ _ _ _ ?st ?n ?fo ?t ≫= _) ?w0] =>
    destruct (stream_sections_from_run json_loads_as reconstruct llm st n
                STREAMING_SECTIONS 0 fo t w0) as (w1 & blocks & fo' & t' & E & _)
  end.
  rewrite (run_bind _ _ _ _ _ E). cbn -[STREAMING_SECTIONS].
  by eexists _, _, _, _.
Qed.

Lemma report_node_returns (state : ResumeEnhancerState.t) (llm : option LLM)
    (w : World) :
  is_Some (ResumeEnhancerState.full_enhancement_output state) →
  ∃ w' report, report_node state llm w = (w', Returns report)
               ∧ same_objects w w' ∧ (llm_calls w' ≤ S (llm_calls w))%nat.
Proof.
  intros [fo Hfo].
  unfold report_node, normalize_state, _get_full_output, invoke_text.
  rewrite Hfo.
  rewrite (run_bind _ _ w w (_collect_reasons fo)) by reflexivity.
  destruct llm as [gateway|]; [|by eexists _, _; split_and!; [|done|lia]].
  destruct (nonempty (_collect_reasons fo));
    [|by eexists _, _; split_and!; [|done|lia]].
  py_unfold. cbn.
  destruct (ainvoke gateway 0) as [[s|parts|]|e]; cbn;
    try (eexists _, _; split_and!; [reflexivity | done | cbn; lia]).
  destruct (negb (String.eqb (strip s) "")); cbn;
    eexists _, _; (split_and!; [reflexivity | done | cbn; lia]).
Qed.

Lemma not_mergeable (resume : Resume.t) (fo : FullEnhancementOutput.t) :
  ¬ mergeable resume fo →
  (Resume.experiences resume = None ∧ enhanced_experiences fo ≠ [])
  ∨ ((Resume.experiences resume = None → enhanced_experiences fo = [])
     ∧ Resume.projects resume = None ∧ enhanced_projects fo ≠ []).
Proof.
  intros Hnot. unfold mergeable in Hnot.
  destruct (Resume.experiences resume) as [ex|] eqn:Hex.
  - right. split; [done|].
    destruct (Resume.projects resume) as [pr|] eqn:Hpr; [by destruct Hnot|].
    split; [done|]. intros Hp. by destruct Hnot.
  - destruct (decide (enhanced_experiences fo = [])) as [He|He]; [|by left].
    right. split; [done|].
    destruct (Resume.projects resume) as [pr|] eqn:Hpr; [by destruct Hnot|].
    split; [done|]. intros Hp. by destruct Hnot.
Qed.

Lemma format_node_run (resume : Resume.t) (fo : FullEnhancementOutput.t)
    (state : ResumeEnhancerState.t) (w : World) :
  ResumeEnhancerState.resume state = Some resume →
  ResumeEnhancerState.full_enhancement_output state = Some fo →
  (mergeable resume fo →
   ∃ w', format_node state w = (w', Returns (merged_resume resume fo))
         ∧ llm_calls w' = llm_calls w)
  ∧ (¬ mergeable resume fo →
     ∃ w', format_node state w
           = (w', Raises (TypeError "object of type 'NoneType' has no len()"))).
Proof.
  intros Hr Hfo. unfold format_node, normalize_state, _get_format_inputs.
  rewrite try_reraise, Hr, Hfo.
  rewrite (run_bind _ _ w w (resume, fo)) by reflexivity.
  split.
  - intros [Hex Hpr].
    destruct (merge_returns_merged_resume resume fo w Hex Hpr)
      as (w1 & w2 & w' & E & (_&_&_&_&_&_&H1) & (_&_&_&_&_&_&H2)
          & (_&_&_&_&_&_&H3)).
    exists w'. split; [done | congruence].
  - intros [[Hex Hne]|(Hex & Hpr & Hne)]%not_mergeable.
    + unfold enhanced_experiences in Hne.
      destruct (FullEnhancementOutput.experiences fo) as [e|] eqn:He; [|done].
      exists w. by apply (merge_raises_null_experiences resume fo e).
    + unfold enhanced_projects in Hne.
      destruct (FullEnhancementOutput.projects fo) as [p|] eqn:Hp; [|done].
      by apply (merge_raises_null_projects resume fo p).
Qed.

(** X21. The enhancement path of the incremental endpoint.  When the
    score reaches the threshold, the response is mapping_start,
    mapping_complete, then every event of the streaming pass in the
    order it was yielded (the internal result is not sent), then one
    closing event.  The closing event is a complete event carrying the
    pass's FullEnhancementOutput and timings and the merged resume when
    the resume can be merged; when a null list of the resume meets a
    non-empty enhanced list, it is an error event carrying the merge
    stage's TypeError, sent after all section events. *)
Theorem incremental_stream_enhance_path
    (json_loads_as : OutputClass → string → option PyObj)
    (reconstruct : OutputClass → PyObj → option PyObj)
    (settings : Settings) (llm : LLM) (body : EnhanceRequest.t)
    (m : MappingResult.t) (w : World) :
  with_structured_output llm MappingResultCls 0 = Returns (PyMappingResult m) →
  1 ≤ MappingResult.match_score m ≤ 10 →
  SCORE_THRESHOLD settings ≤ MappingResult.match_score m →
  ∃ w1 events full_output timings w' closing,
    stream_all_sections json_loads_as reconstruct (EnhanceRequest.resume body)
                        (normalized m) llm (advance 0 1 [] w)
    = (w1, Returns ((YEvent <$> events)
                    ++ [YInternalResults full_output timings]))
    ∧ enhance_incremental_stream json_loads_as reconstruct settings (Some llm)
                                 body w
      = (w', SseMappingStart
             :: SseMappingComplete (MappingResult.match_score m)
             :: (SseSection <$> events) ++ [closing],
         Returns tt)
    ∧ (mergeable (EnhanceRequest.resume body) full_output →
       ∃ report,
         closing = SseComplete (EnhanceRequest.resume body)
                     (EnhanceRequest.job_description body) (normalized m)
                     full_output
                     (merged_resume (EnhanceRequest.resume body) full_output)
                     report timings)
    ∧ (¬ mergeable (EnhanceRequest.resume body) full_output →
       closing = SseError (Some "error")
                          "object of type 'NoneType' has no len()").
Proof.
  intros Hllm Hs Hhigh.
  destruct (stream_all_sections_returns json_loads_as reconstruct
              (EnhanceRequest.resume body) (normalized m) llm (advance 0 1 [] w))
    as (w1 & events & fo & timings & Estream).
  unfold enhance_incremental_stream, gen_try, mbind, Gen_bind, yield, await.
  rewrite (mapping_node_run _ llm m w) by (done || by eexists).
  cbn [normalized MappingResult.match_score].
  rewrite decide_False by lia.
  fold (normalized m). rewrite Estream, relay_events_pass.
  cbn [default from_option id].
  match goal with |- context [format_node ?st w1] =>
    destruct (format_node_run (EnhanceRequest.resume body) fo st w1
                eq_refl eq_refl) as [Hok Hbad]
  end.
  destruct (decide (mergeable (EnhanceRequest.resume body) fo)) as [Hm|Hm].
  - destruct (Hok Hm) as (w2 & -> & _).
    match goal with |- context [report_node ?st (Some llm) w2] =>
      destruct (report_node_returns st (Some llm) w2) as (w3 & report & -> & _);
        [by eexists|]
    end.
    eexists w1, events, fo, timings, _, _. split; [done|].
    split; [reflexivity|]. split; [by eexists | done].
  - destruct (Hbad Hm) as (w2 & ->).
    eexists w1, events, fo, timings, _, _. split; [done|].
    split; [by rewrite ?app_nil_r|]. split; [done | done].
Qed.

Lemma incremental_stream_enhance_path_witness :
  ∃ w1 events full_output timings w' closing,
    stream_all_sections Sample2.parses_summary Sample2.reconstructs_same
      (EnhanceRequest.resume Sample2.request)
      (normalized (Sample.mapping 8)) (Sample2.llm_scores 8)
      (advance 0 1 [] Sample.world)
    = (w1, Returns ((YEvent <$> events)
                    ++ [YInternalResults full_output timings]))
    ∧ enhance_incremental_stream Sample2.parses_summary
        Sample2.reconstructs_same (mkSettings 7) (Some (Sample2.llm_scores 8))
        Sample2.request Sample.world
      = (w', SseMappingStart
             :: SseMappingComplete (MappingResult.match_score (Sample.mapping 8))
             :: (SseSection <$> events) ++ [closing],
         Returns tt)
    ∧ (mergeable (EnhanceRequest.resume Sample2.request) full_output →
       ∃ report,
         closing = SseComplete (EnhanceRequest.resume Sample2.request)
                     (EnhanceRequest.job_description Sample2.request)
                     (normalized (Sample.mapping 8)) full_output
                     (merged_resume (EnhanceRequest.resume Sample2.request)
                                    full_output)
                     report timings)
    ∧ (¬ mergeable (EnhanceRequest.resume Sample2.request) full_output →
       closing = SseError (Some "error")
                          "object of type 'NoneType' has no len()").
Proof.
  apply (incremental_stream_enhance_path Sample2.parses_summary
           Sample2.reconstructs_same (mkSettings 7) (Sample2.llm_scores 8)
           Sample2.request (Sample.mapping 8) Sample.world);
    [reflexivity | by vm_compute | by vm_compute].
Defined.

(** ** The workflow *)

Lemma mapping_node_inv (state : ResumeEnhancerState.t) (llm : option LLM)
    (w w' : World) (r : MappingResult.t) :
  mapping_node state llm w = (w', Returns r) →
  w' = advance 0 1 [] w ∧ 1 ≤ MappingResult.match_score r ≤ 10
  ∧ is_Some llm.
Proof.
  unfold mapping_node, normalize_state, _get_resume_and_jd.
  destruct (ResumeEnhancerState.resume state) as [resume|]; [|by py_unfold].
  destruct (ResumeEnhancerState.job_description state) as [jd|]; [|by py_unfold].
  destruct llm as [llm|]; [|by py_unfold].
  unfold invoke_structured.
  destruct (with_structured_output llm MappingResultCls 0) as [obj|e];
    [|by py_unfold].
  destruct obj as [| |m|?|?|?|?|?|?|?|?]; try (by py_unfold).
  unfold _validate_and_normalize_mapping_result, MappingResult_new.
  py_unfold. cbn -[pretty].
  case_bool_decide as Hs; cbn -[pretty]; [|discriminate].
  rewrite decide_True by done. intros [= <- <-]. cbn.
  split_and!; [done | lia | lia | by eexists].
Qed.

Lemma feedback_node_inv (settings : Settings) (state : ResumeEnhancerState.t)
    (llm : option LLM) (w w' : World) (text : string) :
  feedback_node settings state llm w = (w', Returns text) →
  w' = advance 0 1 [] w.
Proof.
  unfold feedback_node, normalize_state, _get_mapping_result, invoke_text.
  rewrite try_reraise.
  destruct (ResumeEnhancerState.mapping_result state) as [m|]; [|by py_unfold].
  destruct llm as [gateway|]; [|by py_unfold].
  py_unfold. cbn.
  destruct (ainvoke gateway 0) as [[s|parts|]|e]; cbn; try done.
  destruct (String.eqb (strip s) ""); cbn; [done|]. by intros [= <- _].
Qed.

Section GraphFacts.

Variable enhance_incremental_node :
  ResumeEnhancerState.t → option LLM → Py (FullEnhancementOutput.t * gmap string Z).

Lemma enhance_router_inv (llm : option LLM) (state state' : ResumeEnhancerState.t)
    (w w' : World) :
  enhance_router enhance_incremental_node llm state w = (w', Returns state') →
  is_Some (ResumeEnhancerState.full_enhancement_output state')
  ∧ ResumeEnhancerState.resume state' = ResumeEnhancerState.resume state
  ∧ ResumeEnhancerState.job_description state'
    = ResumeEnhancerState.job_description state
  ∧ ResumeEnhancerState.mapping_result state'
    = ResumeEnhancerState.mapping_result state
  ∧ ResumeEnhancerState.enhanced_resume state'
    = ResumeEnhancerState.enhanced_resume state
  ∧ ResumeEnhancerState.report_summary state'
    = ResumeEnhancerState.report_summary state
  ∧ ResumeEnhancerState.feedback_message state'
    = ResumeEnhancerState.feedback_message state.
Proof.
  unfold enhance_router. repeat case_decide.
  - unfold mbind, Py_bind.
    destruct (enhance_incremental_node state llm w) as [w1 [[fo t]|e]]; [|done].
    intros [= <- <-]. cbn. split_and!; (done || by eexists).
  - unfold mbind, Py_bind.
    destruct (enhance_sectional_node state llm w) as [w1 [out|e]]; [|done].
    intros [= <- <-]. cbn. split_and!; (done || by eexists).
  - unfold mbind, Py_bind.
    destruct (enhance_node state llm w) as [w1 [fo|e]]; [|done].
    intros [= <- <-]. cbn. split_and!; (done || by eexists).
Qed.

(** X22. The state invariants of the workflow.  Whenever a run of the
    graph returns, in any mode: the resume and the job description are
    the ones given, and the mapping result is set with a score between
    1 and 10.  If the score is below the threshold, only the feedback
    message has been set: the enhancement output, the enhanced resume
    and the report are as they were at entry, exactly two gateway calls
    were made and no object was touched.  Otherwise the enhancement
    output and the enhanced resume are set and the feedback message is
    as it was at entry. *)
Theorem graph_state_invariants
    (settings : Settings) (llm : option LLM)
    (initial final : ResumeEnhancerState.t) (w w' : World) :
  run_graph enhance_incremental_node settings llm initial w = (w', Returns final) →
  ResumeEnhancerState.resume final = ResumeEnhancerState.resume initial
  ∧ ResumeEnhancerState.job_description final
    = ResumeEnhancerState.job_description initial
  ∧ ∃ m,
      ResumeEnhancerState.mapping_result final = Some m
      ∧ 1 ≤ MappingResult.match_score m ≤ 10
      ∧ (MappingResult.match_score m < SCORE_THRESHOLD settings →
         is_Some (ResumeEnhancerState.feedback_message final)
         ∧ ResumeEnhancerState.full_enhancement_output final
           = ResumeEnhancerState.full_enhancement_output initial
         ∧ ResumeEnhancerState.enhanced_resume final
           = ResumeEnhancerState.enhanced_resume initial
         ∧ ResumeEnhancerState.report_summary final
           = ResumeEnhancerState.report_summary initial
         ∧ w' = advance 0 2 [] w)
      ∧ (SCORE_THRESHOLD settings ≤ MappingResult.match_score m →
         is_Some (ResumeEnhancerState.full_enhancement_output final)
         ∧ is_Some (ResumeEnhancerState.enhanced_resume final)
         ∧ ResumeEnhancerState.feedback_message final
           = ResumeEnhancerState.feedback_message initial).
Proof.
  unfold run_graph. unfold mbind at 1. unfold Py_bind at 1.
  destruct (mapping_node initial llm w) as [w1 [m|e]] eqn:Emap; [|done].
  apply mapping_node_inv in Emap as (-> & Hs & _).
  unfold route_after_mapping, normalize_state.
  cbn [with_mapping_result ResumeEnhancerState.mapping_result].
  destruct (decide (MappingResult.match_score m < SCORE_THRESHOLD settings))
    as [Hlow|Hhigh].
  - rewrite (run_bind _ _ _ (advance 0 1 [] w) "feedback") by reflexivity.
    rewrite decide_True by done.
    unfold mbind, Py_bind.
    destruct (feedback_node settings _ llm (advance 0 1 [] w))
      as [w2 [text|e]] eqn:Efb; [|done].
    apply feedback_node_inv in Efb as ->.
    intros [= <- <-]. cbn. split_and!; [done | done |].
    exists m. split_and!; [done | lia | lia | | lia].
    intros _. rewrite advance_advance. split_and!; (done || by eexists).
  - rewrite (run_bind _ _ _ (advance 0 1 [] w) "enhance") by reflexivity.
    rewrite decide_False by done.
    unfold mbind at 1. unfold Py_bind at 1.
    destruct (enhance_router enhance_incremental_node llm _ (advance 0 1 [] w))
      as [w2 [state2|e]] eqn:Eenh; [|done].
    apply enhance_router_inv in Eenh
      as (Hfo & Hr & Hj & Hmr & Her & Hrs & Hfm).
    unfold mbind, Py_bind.
    destruct (format_node state2 w2) as [w3 [enhanced|e]]; [|done].
    destruct (report_node _ llm w3) as [w4 [report|e]]; [|done].
    intros [= <- <-]. cbn. cbn in Hr, Hj, Hmr, Hfm.
    split_and!; [done | done |].
    exists m. split_and!; [done | lia | lia | lia |].
    intros _. split_and!; (done || by eexists).
Qed.

End GraphFacts.

Lemma graph_state_invariants_witness :
  ResumeEnhancerState.resume
    (with_feedback_message
       (with_mapping_result Sample.state_initial (normalized (Sample.mapping 4)))
       "Keep going.")
  = ResumeEnhancerState.resume Sample.state_initial
  ∧ ResumeEnhancerState.job_description
      (with_feedback_message
         (with_mapping_result Sample.state_initial (normalized (Sample.mapping 4)))
         "Keep going.")
    = ResumeEnhancerState.job_description Sample.state_initial
  ∧ ∃ m,
      ResumeEnhancerState.mapping_result
        (with_feedback_message
           (with_mapping_result Sample.state_initial
                                (normalized (Sample.mapping 4)))
           "Keep going.") = Some m
      ∧ 1 ≤ MappingResult.match_score m ≤ 10
      ∧ (MappingResult.match_score m < SCORE_THRESHOLD (mkSettings 7) →
         is_Some (ResumeEnhancerState.feedback_message
                    (with_feedback_message
                       (with_mapping_result Sample.state_initial
                                            (normalized (Sample.mapping 4)))
                       "Keep going."))
         ∧ ResumeEnhancerState.full_enhancement_output
             (with_feedback_message
                (with_mapping_result Sample.state_initial
                                     (normalized (Sample.mapping 4)))
                "Keep going.")
           = ResumeEnhancerState.full_enhancement_output Sample.state_initial
         ∧ ResumeEnhancerState.enhanced_resume
             (with_feedback_message
                (with_mapping_result Sample.state_initial
                                     (normalized (Sample.mapping 4)))
                "Keep going.")
           = ResumeEnhancerState.enhanced_resume Sample.state_initial
         ∧ ResumeEnhancerState.report_summary
             (with_feedback_message
                (with_mapping_result Sample.state_initial
                                     (normalized (Sample.mapping 4)))
                "Keep going.")
           = ResumeEnhancerState.report_summary Sample.state_initial
         ∧ advance 0 2 [] Sample.world = advance 0 2 [] Sample.world)
      ∧ (SCORE_THRESHOLD (mkSettings 7) ≤ MappingResult.match_score m →
         is_Some (ResumeEnhancerState.full_enhancement_output
                    (with_feedback_message
                       (with_mapping_result Sample.state_initial
                                            (normalized (Sample.mapping 4)))
                       "Keep going."))
         ∧ is_Some (ResumeEnhancerState.enhanced_resume
                      (with_feedback_message
                         (with_mapping_result Sample.state_initial
                                              (normalized (Sample.mapping 4)))
                         "Keep going."))
         ∧ ResumeEnhancerState.feedback_message
             (with_feedback_message
                (with_mapping_result Sample.state_initial
                                     (normalized (Sample.mapping 4)))
                "Keep going.")
           = ResumeEnhancerState.feedback_message Sample.state_initial).
Proof.
  apply (graph_state_invariants Sample2.no_incremental_node (mkSettings 7)
           (Some (Sample2.llm_scores 4)) Sample.state_initial _
           Sample.world (advance 0 2 [] Sample.world)).
  reflexivity.
Defined.

Lemma getattr_all_none (fo : FullEnhancementOutput.t) :
  (∀ n, n ∈ SECTION_NAMES → getattr_section fo n = None) →
  fo = FullEnhancementOutput.new.
Proof.
  intros H. destruct fo as [su ex ed sk ce la pr].
  assert (∀ n, n ∈ SECTION_NAMES →
            getattr_section (FullEnhancementOutput.mk su ex ed sk ce la pr) n
            = None) as H' by done.
  pose proof (H' "summary") as H1. pose proof (H' "experiences") as H2.
  pose proof (H' "educations") as H3. pose proof (H' "skills") as H4.
  pose proof (H' "certifications") as H5. pose proof (H' "languages") as H6.
  pose proof (H' "projects") as H7. clear H H'.
  unfold getattr_section, SECTION_NAMES in *. cbn in *.
  destruct su; [by specialize (H1 ltac:(set_solver))|].
  destruct ex; [by specialize (H2 ltac:(set_solver))|].
  destruct ed; [by specialize (H3 ltac:(set_solver))|].
  destruct sk; [by specialize (H4 ltac:(set_solver))|].
  destruct ce; [by specialize (H5 ltac:(set_solver))|].
  destruct la; [by specialize (H6 ltac:(set_solver))|].
  destruct pr; [by specialize (H7 ltac:(set_solver))|].
  done.
Qed.

Lemma merged_resume_new (resume : Resume.t) :
  merged_resume resume FullEnhancementOutput.new = resume.
Proof. by destruct resume. Qed.

Section SectionalRun.

Variable enhance_incremental_node :
  ResumeEnhancerState.t → option LLM → Py (FullEnhancementOutput.t * gmap string Z).

(** A sectional run whose mapping succeeds with a score at or above the
    threshold, on a resume whose experiences and projects are lists:
    the stages it goes through. *)
Lemma run_graph_sectional (settings : Settings) (llm : LLM)
    (initial : ResumeEnhancerState.t) (resume : Resume.t)
    (jd : JobDescription.t) (m : MappingResult.t) (w : World) :
  ResumeEnhancerState.mode initial = Some "sectional" →
  ResumeEnhancerState.resume initial = Some resume →
  ResumeEnhancerState.job_description initial = Some jd →
  with_structured_output llm MappingResultCls 0 = Returns (PyMappingResult m) →
  1 ≤ MappingResult.match_score m ≤ 10 →
  SCORE_THRESHOLD settings ≤ MappingResult.match_score m →
  is_Some (Resume.experiences resume) → is_Some (Resume.projects resume) →
  let state1 := with_mapping_result initial (normalized m) in
  let again := length (retried llm SECTIONAL_SECTIONS) in
  let w2 := advance 16 (8 + again) (replicate again 1) w in
  ∃ out w3 w4 report,
    enhance_sectional_node state1 (Some llm) (advance 0 1 [] w) = (w2, Returns out)
    ∧ format_node (merge_sectional_result state1 out) w2
      = (w3, Returns (merged_resume resume (full_enhancement_output out)))
    ∧ llm_calls w3 = llm_calls w2
    ∧ report_node (with_enhanced_resume (merge_sectional_result state1 out)
                     (merged_resume resume (full_enhancement_output out)))
                  (Some llm) w3 = (w4, Returns report)
    ∧ run_graph enhance_incremental_node settings (Some llm) initial w
      = (w4, Returns (with_report_summary
                        (with_enhanced_resume
                           (merge_sectional_result state1 out)
                           (merged_resume resume (full_enhancement_output out)))
                        report)).
Proof.
  intros Hmode Hr Hj Hllm Hs Hhigh Hex Hpr state1 again w2.
  destruct (enhance_sectional_node_trace state1 llm (advance 0 1 [] w))
    as (out & Esec & _).
  { unfold state1. cbn. rewrite Hr. by eexists. }
  { unfold state1. cbn. by eexists. }
  fold again in Esec. rewrite advance_advance in Esec.
  assert (advance (16 + 0) (7 + again + 1) (replicate again 1 ++ []) w = w2)
    as Hw2.
  { apply advance_eq; [done | lia | by rewrite app_nil_r]. }
  rewrite Hw2 in Esec.
  destruct (format_node_run resume (full_enhancement_output out)
              (merge_sectional_result state1 out) w2) as [Hok _].
  { unfold state1. cbn. by rewrite Hr. }
  { done. }
  destruct Hok as (w3 & Efmt & Hcalls).
  { destruct Hex as [ex Hex], Hpr as [pr Hpr]. split; intros ?; congruence. }
  destruct (report_node_returns
              (with_enhanced_resume (merge_sectional_result state1 out)
                 (merged_resume resume (full_enhancement_output out)))
              (Some llm) w3) as (w4 & report & Erep & _); [by eexists|].
  exists out, w3, w4, report. split_and!; [done | done | done | done |].
  unfold run_graph.
  rewrite (run_bind _ _ _ _ _ (mapping_node_run initial llm m w
             ltac:(by eexists) ltac:(by eexists) Hllm Hs)).
  fold state1.
  rewrite (run_bind _ _ _ (advance 0 1 [] w) "enhance").
  2:{ unfold route_after_mapping, normalize_state, state1. cbn.
      by rewrite decide_False by lia. }
  rewrite decide_False by done.
  rewrite (run_bind _ _ _ w2 (merge_sectional_result state1 out)).
  2:{ assert (ResumeEnhancerState.mode state1 = Some "sectional") as Hmode1
        by exact Hmode.
      unfold enhance_router.
      case_decide as H1; [by rewrite Hmode1 in H1|].
      case_decide as H2; [|by rewrite Hmode1 in H2].
      by rewrite (run_bind _ _ _ _ _ Esec). }
  rewrite (run_bind _ _ _ _ _ Efmt).
  by rewrite (run_bind _ _ _ _ _ Erep).
Qed.

End SectionalRun.

Lemma filter_all {A} (P : A → Prop) `{∀ x, Decision (P x)} (l : list A) :
  Forall P l → filter P l = l.
Proof.
  induction 1 as [|x l Hx Hl IH]; [done|].
  rewrite filter_cons, decide_True by done. by rewrite IH.
Qed.

Section SectionalRunFacts.

Variable enhance_incremental_node :
  ResumeEnhancerState.t → option LLM → Py (FullEnhancementOutput.t * gmap string Z).

(** X23. A sectional run does not fail because of the gateway once the
    mapping is done.  On a resume whose experiences and projects are
    lists, with a mapping score at or above the threshold, the run
    returns whatever the gateway does during enhancement and report:
    the enhanced resume keeps the personal information, holds the
    enhanced content for every section with a usable reply and the
    original content for every other section, and section_errors names
    exactly the sections that fell back.  At most 16 gateway calls are
    made. *)
Theorem sectional_run_survives_gateway_failures
    (settings : Settings) (llm : LLM)
    (initial : ResumeEnhancerState.t) (resume : Resume.t)
    (jd : JobDescription.t) (m : MappingResult.t) (w : World) :
  ResumeEnhancerState.mode initial = Some "sectional" →
  ResumeEnhancerState.resume initial = Some resume →
  ResumeEnhancerState.job_description initial = Some jd →
  with_structured_output llm MappingResultCls 0 = Returns (PyMappingResult m) →
  1 ≤ MappingResult.match_score m ≤ 10 →
  SCORE_THRESHOLD settings ≤ MappingResult.match_score m →
  is_Some (Resume.experiences resume) → is_Some (Resume.projects resume) →
  ∃ w' final enhanced,
    run_graph enhance_incremental_node settings (Some llm) initial w
    = (w', Returns final)
    ∧ ResumeEnhancerState.enhanced_resume final = Some enhanced
    ∧ Resume.personal_info enhanced = Resume.personal_info resume
    ∧ (∀ n c, (n, c) ∈ SECTIONAL_SECTIONS →
         match first_usable llm c sectional_budget with
         | Some obj =>
             resume_section enhanced n = enhanced_content obj
             ∧ ResumeEnhancerState.section_errors final !! n = None
         | None =>
             resume_section enhanced n = resume_section resume n
             ∧ is_Some (ResumeEnhancerState.section_errors final !! n)
         end)
    ∧ (llm_calls w' ≤ 16 + llm_calls w)%nat.
Proof.
  intros Hmode Hr Hj Hllm Hs Hhigh Hex Hpr.
  destruct (run_graph_sectional enhance_incremental_node settings llm initial
              resume jd m w Hmode Hr Hj Hllm Hs Hhigh Hex Hpr)
    as (out & w3 & w4 & report & Esec & Efmt & Hc3 & Erep & Erun).
  destruct (enhance_sectional_node_run
              (with_mapping_result initial (normalized m)) llm
              (advance 0 1 [] w)) as (w2' & out' & Esec' & _ & _ & Hin).
  { cbn. rewrite Hr. by eexists. }
  { cbn. by eexists. }
  rewrite Esec in Esec'. injection Esec' as _ <-.
  eexists w4, _, _. split; [exact Erun|].
  cbn [with_report_summary with_enhanced_resume merge_sectional_result
       ResumeEnhancerState.enhanced_resume ResumeEnhancerState.section_errors].
  split_and!; [done | by destruct resume | |].
  - intros n c Hnc. destruct (Hin n c Hnc) as [_ H].
    destruct (first_usable llm c sectional_budget) as [obj|].
    + destruct H as [Hget Herr]. split; [|done].
      by apply merged_section_present.
    + destruct H as [Hget Herr]. split; [|done].
      by apply merged_section_absent.
  - match type of Erep with report_node ?st _ _ = _ =>
      destruct (report_node_returns st (Some llm) w3)
        as (w4' & report' & Erep' & _ & Hcalls); [by eexists|]
    end.
    rewrite Erep in Erep'. injection Erep' as <- _.
    rewrite Hc3 in Hcalls. unfold advance in Hcalls. cbn [llm_calls] in Hcalls.
    pose proof (retried_length llm SECTIONAL_SECTIONS) as Hle.
    change (length SECTIONAL_SECTIONS) with 7%nat in Hle. lia.
Qed.

(** X24. A gateway that fails every enhancement call costs the
    candidate nothing but time: after a successful mapping with a score
    at or above the threshold, the sectional run makes exactly 15
    gateway calls (the mapping and two attempts for each of the seven
    sections), sleeps one second seven times, and returns the original
    resume as the enhanced resume, with all seven sections in
    section_errors, no report, and no object touched. *)
Theorem sectional_run_total_outage
    (settings : Settings) (llm : LLM)
    (initial : ResumeEnhancerState.t) (resume : Resume.t)
    (jd : JobDescription.t) (m : MappingResult.t) (w : World) :
  ResumeEnhancerState.mode initial = Some "sectional" →
  ResumeEnhancerState.resume initial = Some resume →
  ResumeEnhancerState.job_description initial = Some jd →
  with_structured_output llm MappingResultCls 0 = Returns (PyMappingResult m) →
  1 ≤ MappingResult.match_score m ≤ 10 →
  SCORE_THRESHOLD settings ≤ MappingResult.match_score m →
  is_Some (Resume.experiences resume) → is_Some (Resume.projects resume) →
  (∀ n c, (n, c) ∈ SECTIONAL_SECTIONS →
          first_usable llm c sectional_budget = None) →
  ∃ final,
    run_graph enhance_incremental_node settings (Some llm) initial w
    = (advance 16 15 (replicate 7 1) w, Returns final)
    ∧ ResumeEnhancerState.enhanced_resume final = Some resume
    ∧ ResumeEnhancerState.full_enhancement_output final
      = Some FullEnhancementOutput.new
    ∧ ResumeEnhancerState.report_summary final = None
    ∧ (∀ n, n ∈ SECTION_NAMES ↔
            is_Some (ResumeEnhancerState.section_errors final !! n)).
Proof.
  intros Hmode Hr Hj Hllm Hs Hhigh Hex Hpr Hdown.
  destruct (run_graph_sectional enhance_incremental_node settings llm initial
              resume jd m w Hmode Hr Hj Hllm Hs Hhigh Hex Hpr)
    as (out & w3 & w4 & report & Esec & Efmt & Hc3 & Erep & Erun).
  destruct (enhance_sectional_node_run
              (with_mapping_result initial (normalized m)) llm
              (advance 0 1 [] w)) as (w2' & out' & Esec' & _ & Hother & Hin).
  { cbn. rewrite Hr. by eexists. }
  { cbn. by eexists. }
  rewrite Esec in Esec'. injection Esec' as _ <-.
  assert (length (retried llm SECTIONAL_SECTIONS) = 7%nat) as Hagain.
  { unfold retried.
    assert (Forall (λ nc, usable_reply llm nc.2 0 = None) SECTIONAL_SECTIONS)
      as Hall.
    { apply Forall_forall. intros [n c] Hnc. cbn.
      specialize (Hdown n c Hnc). unfold sectional_budget in Hdown.
      cbn [seq SECTIONAL_MAX_RETRIES first_usable] in Hdown.
      by destruct (usable_reply llm c 0). }
    by rewrite (filter_all _ _ Hall). }
  rewrite Hagain in *.
  assert (full_enhancement_output out = FullEnhancementOutput.new) as Hnew.
  { apply getattr_all_none. intros n Hn. rewrite <- sectional_names in Hn.
    apply list_elem_of_fmap in Hn as ([n' c] & -> & Hnc).
    destruct (Hin n' c Hnc) as [_ H]. rewrite (Hdown n' c Hnc) in H.
    by destruct H. }
  rewrite Hnew, merged_resume_new in *.
  assert (w3 = advance 16 15 (replicate 7 1) w) as ->.
  { unfold format_node, normalize_state, _get_format_inputs in Efmt.
    rewrite try_reraise in Efmt. cbn in Efmt. rewrite Hr, Hnew in Efmt.
    rewrite (run_bind _ _ _ _ (resume, FullEnhancementOutput.new)) in Efmt
      by reflexivity.
    destruct resume. by injection Efmt as <-. }
  assert (w4 = advance 16 15 (replicate 7 1) w ∧ report = None) as [-> ->].
  { unfold report_node, normalize_state, _get_full_output in Erep.
    cbn in Erep. rewrite Hnew in Erep. cbn in Erep. by injection Erep as <- <-. }
  eexists. split; [exact Erun|].
  cbn [with_report_summary with_enhanced_resume merge_sectional_result
       ResumeEnhancerState.enhanced_resume ResumeEnhancerState.section_errors
       ResumeEnhancerState.full_enhancement_output
       ResumeEnhancerState.report_summary].
  split_and!; [done | by rewrite Hnew | done |].
  intros n. split.
  - intros Hn. rewrite <- sectional_names in Hn.
    apply list_elem_of_fmap in Hn as ([n' c] & -> & Hnc).
    destruct (Hin n' c Hnc) as [_ H]. rewrite (Hdown n' c Hnc) in H.
    by destruct H.
  - intros Hsome. destruct (decide (n ∈ SECTION_NAMES)) as [|Hn]; [done|].
    destruct (Hother n Hn) as (_ & Herr & _). rewrite Herr in Hsome.
    by destruct Hsome.
Qed.

End SectionalRunFacts.

Lemma sectional_run_total_outage_witness :
  ∃ final,
    run_graph Sample2.no_incremental_node (mkSettings 7)
      (Some (Sample2.llm_maps_then_down 8)) Sample2.state_sectional Sample.world
    = (advance 16 15 (replicate 7 1) Sample.world, Returns final)
    ∧ ResumeEnhancerState.enhanced_resume final = Some Sample.resume_plain
    ∧ ResumeEnhancerState.full_enhancement_output final
      = Some FullEnhancementOutput.new
    ∧ ResumeEnhancerState.report_summary final = None
    ∧ (∀ n, n ∈ SECTION_NAMES ↔
            is_Some (ResumeEnhancerState.section_errors final !! n)).
Proof.
  apply (sectional_run_total_outage Sample2.no_incremental_node (mkSettings 7)
           (Sample2.llm_maps_then_down 8) Sample2.state_sectional
           Sample.resume_plain Sample.job (Sample.mapping 8) Sample.world);
    try reflexivity; try (by vm_compute); try (by eexists).
  intros n c Hnc. unfold SECTIONAL_SECTIONS in Hnc.
  repeat (apply elem_of_cons in Hnc as [[= -> ->]|Hnc]; [reflexivity|]).
  by apply elem_of_nil in Hnc.
Defined.

Lemma sectional_run_survives_gateway_failures_witness :
  ∃ w' final enhanced,
    run_graph Sample2.no_incremental_node (mkSettings 7)
      (Some (Sample2.llm_maps_then_down 8)) Sample2.state_sectional Sample.world
    = (w', Returns final)
    ∧ ResumeEnhancerState.enhanced_resume final = Some enhanced
    ∧ Resume.personal_info enhanced = Resume.personal_info Sample.resume_plain
    ∧ (∀ n c, (n, c) ∈ SECTIONAL_SECTIONS →
         match first_usable (Sample2.llm_maps_then_down 8) c sectional_budget with
         | Some obj =>
             resume_section enhanced n = enhanced_content obj
             ∧ ResumeEnhancerState.section_errors final !! n = None
         | None =>
             resume_section enhanced n = resume_section Sample.resume_plain n
             ∧ is_Some (ResumeEnhancerState.section_errors final !! n)
         end)
    ∧ (llm_calls w' ≤ 16 + llm_calls Sample.world)%nat.
Proof.
  apply (sectional_run_survives_gateway_failures Sample2.no_incremental_node
           (mkSettings 7) (Sample2.llm_maps_then_down 8) Sample2.state_sectional
           Sample.resume_plain Sample.job (Sample.mapping 8) Sample.world);
    try reflexivity; try (by vm_compute); by eexists.
Defined.

Section LegacyRun.

Variable enhance_incremental_node :
  ResumeEnhancerState.t → option LLM → Py (FullEnhancementOutput.t * gmap string Z).

(** X25. The single-call (legacy) mode is all or nothing.  After a
    successful mapping with a score at or above the threshold, a
    failure of the one enhancement call ends the whole run with that
    failure, after exactly two gateway calls and with no fallback to
    the original resume; a FullEnhancementOutput that can be merged
    gives a run that returns it together with the merged resume; and
    one that cannot (a null list of the resume meeting a non-empty
    enhanced list) ends the run with the merge stage's TypeError. *)
Theorem legacy_run_all_or_nothing
    (settings : Settings) (llm : LLM)
    (initial : ResumeEnhancerState.t) (resume : Resume.t)
    (jd : JobDescription.t) (m : MappingResult.t) (w : World) :
  default "legacy" (ResumeEnhancerState.mode initial) ≠ "incremental" →
  default "legacy" (ResumeEnhancerState.mode initial) ≠ "sectional" →
  ResumeEnhancerState.resume initial = Some resume →
  ResumeEnhancerState.job_description initial = Some jd →
  with_structured_output llm MappingResultCls 0 = Returns (PyMappingResult m) →
  1 ≤ MappingResult.match_score m ≤ 10 →
  SCORE_THRESHOLD settings ≤ MappingResult.match_score m →
  (∀ e, with_structured_output llm FullEnhancementOutputCls 0 = Raises e →
     run_graph enhance_incremental_node settings (Some llm) initial w
     = (advance 0 2 [] w, Raises e))
  ∧ (∀ fo,
       with_structured_output llm FullEnhancementOutputCls 0
       = Returns (PyFullEnhancementOutput fo) →
       mergeable resume fo →
       ∃ w' final,
         run_graph enhance_incremental_node settings (Some llm) initial w
         = (w', Returns final)
         ∧ ResumeEnhancerState.full_enhancement_output final = Some fo
         ∧ ResumeEnhancerState.enhanced_resume final
           = Some (merged_resume resume fo)
         ∧ ResumeEnhancerState.section_errors final
           = ResumeEnhancerState.section_errors initial
         ∧ (llm_calls w' ≤ 3 + llm_calls w)%nat)
  ∧ (∀ fo,
       with_structured_output llm FullEnhancementOutputCls 0
       = Returns (PyFullEnhancementOutput fo) →
       ¬ mergeable resume fo →
       ∃ w',
         run_graph enhance_incremental_node settings (Some llm) initial w
         = (w', Raises (TypeError "object of type 'NoneType' has no len()"))).
Proof.
  intros Hinc Hsec Hr Hj Hllm Hs Hhigh.
  set (state1 := with_mapping_result initial (normalized m)).
  assert (run_graph enhance_incremental_node settings (Some llm) initial w
            = (state ← enhance_router enhance_incremental_node (Some llm) state1;
               enhanced_resume ← format_node state;
               report_summary ← report_node
                 (with_enhanced_resume state enhanced_resume) (Some llm);
               mret (with_report_summary
                       (with_enhanced_resume state enhanced_resume)
                       report_summary)) (advance 0 1 [] w)) as Hrun.
  { unfold run_graph.
    rewrite (run_bind _ _ _ _ _ (mapping_node_run initial llm m w
               ltac:(by eexists) ltac:(by eexists) Hllm Hs)).
    fold state1.
    rewrite (run_bind _ _ _ (advance 0 1 [] w) "enhance").
    2:{ unfold route_after_mapping, normalize_state, state1. cbn.
        by rewrite decide_False by lia. }
    by rewrite decide_False by done. }
  rewrite Hrun. clear Hrun.
  assert (enhance_router enhance_incremental_node (Some llm) state1
          = (full_output ← enhance_node state1 (Some llm);
             mret (with_full_enhancement_output state1 full_output
                     (ResumeEnhancerState.section_timings state1))))
    as ->.
  { unfold enhance_router.
    case_decide as H1; [done|]. by case_decide as H2. }
  unfold enhance_node, normalize_state, _get_enhancement_inputs.
  assert (ResumeEnhancerState.resume state1 = Some resume) as -> by exact Hr.
  assert (ResumeEnhancerState.mapping_result state1 = Some (normalized m))
    as -> by done.
  unfold invoke_structured.
  split_and!.
  - intros e He. rewrite He. py_unfold. cbn. done.
  - intros fo Hfo Hm. rewrite Hfo.
    set (state2 := with_full_enhancement_output state1 fo
                     (ResumeEnhancerState.section_timings state1)).
    destruct (format_node_run resume fo state2 (advance 0 2 [] w) Hr eq_refl)
      as [Hok _].
    destruct (Hok Hm) as (w3 & Efmt & Hc3).
    destruct (report_node_returns (with_enhanced_resume state2
                                     (merged_resume resume fo))
                                  (Some llm) w3)
      as (w4 & report & Erep & _ & Hc4); [by eexists|].
    exists w4. eexists. split_and!.
    + rewrite (run_bind _ _ _ (advance 0 2 [] w) state2).
      2:{ py_unfold. cbn. done. }
      rewrite (run_bind _ _ _ _ _ Efmt).
      by rewrite (run_bind _ _ _ _ _ Erep).
    + done.
    + done.
    + done.
    + rewrite Hc3 in Hc4. cbn in Hc4. lia.
  - intros fo Hfo Hm. rewrite Hfo.
    set (state2 := with_full_enhancement_output state1 fo
                     (ResumeEnhancerState.section_timings state1)).
    destruct (format_node_run resume fo state2 (advance 0 2 [] w) Hr eq_refl)
      as [_ Hbad].
    destruct (Hbad Hm) as (w3 & Efmt).
    exists w3.
    rewrite (run_bind _ _ _ (advance 0 2 [] w) state2).
    2:{ py_unfold. cbn. done. }
    by rewrite (run_bind_raise _ _ _ _ _ Efmt).
Qed.

End LegacyRun.

Lemma legacy_run_all_or_nothing_witness :
  (∀ e, with_structured_output (Sample2.llm_maps_then_down 8)
          FullEnhancementOutputCls 0 = Raises e →
     run_graph Sample2.no_incremental_node (mkSettings 7)
       (Some (Sample2.llm_maps_then_down 8)) Sample.state_initial Sample.world
     = (advance 0 2 [] Sample.world, Raises e))
  ∧ (∀ fo,
       with_structured_output (Sample2.llm_maps_then_down 8)
         FullEnhancementOutputCls 0 = Returns (PyFullEnhancementOutput fo) →
       mergeable Sample.resume_plain fo →
       ∃ w' final,
         run_graph Sample2.no_incremental_node (mkSettings 7)
           (Some (Sample2.llm_maps_then_down 8)) Sample.state_initial
           Sample.world = (w', Returns final)
         ∧ ResumeEnhancerState.full_enhancement_output final = Some fo
         ∧ ResumeEnhancerState.enhanced_resume final
           = Some (merged_resume Sample.resume_plain fo)
         ∧ ResumeEnhancerState.section_errors final
           = ResumeEnhancerState.section_errors Sample.state_initial
         ∧ (llm_calls w' ≤ 3 + llm_calls Sample.world)%nat)
  ∧ (∀ fo,
       with_structured_output (Sample2.llm_maps_then_down 8)
         FullEnhancementOutputCls 0 = Returns (PyFullEnhancementOutput fo) →
       ¬ mergeable Sample.resume_plain fo →
       ∃ w',
         run_graph Sample2.no_incremental_node (mkSettings 7)
           (Some (Sample2.llm_maps_then_down 8)) Sample.state_initial
           Sample.world
         = (w', Raises (TypeError "object of type 'NoneType' has no len()"))).
Proof.
  apply (legacy_run_all_or_nothing Sample2.no_incremental_node (mkSettings 7)
           (Sample2.llm_maps_then_down 8) Sample.state_initial
           Sample.resume_plain Sample.job (Sample.mapping 8) Sample.world);
    try reflexivity; by vm_compute.
Defined.

(** On that input the enhancement call times out and so does the run. *)
Example legacy_run_sample :
  run_graph Sample2.no_incremental_node (mkSettings 7)
    (Some (Sample2.llm_maps_then_down 8)) Sample.state_initial Sample.world
  = (advance 0 2 [] Sample.world, Raises (GatewayError "Request timed out.")).
Proof. reflexivity. Qed.

(** ** Normalisation for the templates *)

Lemma _split_experiences_from_run :
  ∀ (experiences professional volunteer : list loc) (w : World),
    _split_experiences_from experiences professional volunteer w
    = (w, Returns (professional ++ professional_in w experiences,
                   volunteer ++ volunteer_in w experiences)).
Proof.
  induction experiences as [|exp rest IH]; intros pro vol w.
  { cbn. by rewrite !app_nil_r. }
  cbn [_split_experiences_from]. unfold professional_in, volunteer_in.
  rewrite (run_bind _ _ w w (experience_objs w !!! exp)) by reflexivity.
  rewrite !filter_cons.
  destruct (Experience.is_volunteer (experience_objs w !!! exp)) eqn:Hv.
  - rewrite IH, decide_False, decide_True by done.
    unfold professional_in, volunteer_in. by rewrite <- app_assoc.
  - rewrite IH, decide_True, decide_False by done.
    unfold professional_in, volunteer_in. by rewrite <- app_assoc.
Qed.

Lemma professional_volunteer_perm (w : World) (experiences : list loc) :
  professional_in w experiences ++ volunteer_in w experiences ≡ₚ experiences.
Proof.
  unfold professional_in, volunteer_in.
  induction experiences as [|exp rest IH]; [done|].
  rewrite !filter_cons.
  destruct (Experience.is_volunteer (experience_objs w !!! exp)) eqn:Hv.
  - rewrite decide_False, decide_True by done.
    by rewrite <- Permutation_middle, IH.
  - rewrite decide_True, decide_False by done. cbn. by rewrite IH.
Qed.

(** X26. [_split_experiences] reads the objects and changes nothing; it
    puts every experience in exactly one of the two lists, by its
    [is_volunteer] flag, and keeps the order of the resume within each
    list: together the two lists are a rearrangement of the input. *)
Theorem split_experiences_partitions (experiences : list loc) (w : World) :
  ∃ professional volunteer,
    _split_experiences experiences w = (w, Returns (professional, volunteer))
    ∧ professional = professional_in w experiences
    ∧ volunteer = volunteer_in w experiences
    ∧ professional `sublist_of` experiences
    ∧ volunteer `sublist_of` experiences
    ∧ professional ++ volunteer ≡ₚ experiences
    ∧ (∀ l, l ∈ professional → l ∉ volunteer).
Proof.
  eexists _, _. split.
  { unfold _split_experiences. rewrite _split_experiences_from_run.
    by rewrite !app_nil_l. }
  split_and!; [done | done | apply sublist_filter | apply sublist_filter
               | apply professional_volunteer_perm |].
  intros l [H1 _]%list_elem_of_filter [H2 _]%list_elem_of_filter. congruence.
Qed.

Lemma _group_skills_from_run :
  ∀ (skills : list Skill.t) (technical soft : list string),
    _group_skills_from skills technical soft
    = SkillsGrouped.mk (technical ++ skill_names TECHNICAL skills)
                       (soft ++ skill_names SOFT skills).
Proof.
  induction skills as [|[name ty] rest IH]; intros technical soft.
  { cbn. by rewrite !app_nil_r. }
  cbn [_group_skills_from]. unfold skill_names. rewrite !filter_cons.
  destruct ty; cbn.
  - rewrite IH. unfold skill_names.
    rewrite decide_False, decide_True by done. cbn. by rewrite <- app_assoc.
  - rewrite IH. unfold skill_names.
    rewrite decide_True, decide_False by done. cbn. by rewrite <- app_assoc.
Qed.

Lemma skill_names_lengths (skills : list Skill.t) :
  (length (skill_names TECHNICAL skills) + length (skill_names SOFT skills))%nat
  = length skills.
Proof.
  unfold skill_names. rewrite !length_fmap.
  induction skills as [|[name ty] rest IH]; [done|].
  rewrite !filter_cons. destruct ty; cbn.
  - rewrite decide_False, decide_True by done. cbn. lia.
  - rewrite decide_True, decide_False by done. cbn. lia.
Qed.

(** X27. [_group_skills] drops no skill: the two enum values are the
    two strings it compares with, so every skill name lands in exactly
    one bucket, the technical names and the soft names each in the
    order of the resume, and the two buckets together hold as many
    names as there are skills. *)
Theorem group_skills_keeps_all (skills : list Skill.t) :
  _group_skills skills
  = SkillsGrouped.mk (skill_names TECHNICAL skills) (skill_names SOFT skills)
  ∧ (length (SkillsGrouped.technical (_group_skills skills))
     + length (SkillsGrouped.soft (_group_skills skills)))%nat
    = length skills
  ∧ (∀ s, s ∈ skills →
       Skill.skill_name s ∈ SkillsGrouped.technical (_group_skills skills)
       ∨ Skill.skill_name s ∈ SkillsGrouped.soft (_group_skills skills)).
Proof.
  assert (_group_skills skills
          = SkillsGrouped.mk (skill_names TECHNICAL skills)
                             (skill_names SOFT skills)) as E.
  { unfold _group_skills. by rewrite _group_skills_from_run. }
  rewrite E. cbn. split_and!; [done | apply skill_names_lengths |].
  intros s Hs. unfold skill_names.
  destruct (Skill.skill_type s) eqn:Ht; [right | left];
    apply list_elem_of_fmap; exists s; (split; [done|]);
    by apply list_elem_of_filter.
Qed.

Section NormalizationFacts.

Variable strftime_Ym : datetime → string.

Lemma _normalize_experience_list_from_run :
  ∀ (src : list loc) (items : list ExperienceItem.t) (w : World),
    _normalize_experience_list_from strftime_Ym src items w
    = (w, Returns (items ++ (experience_item strftime_Ym w <$> src))).
Proof.
  induction src as [|exp rest IH]; intros items w.
  { cbn. by rewrite app_nil_r. }
  cbn [_normalize_experience_list_from].
  rewrite (run_bind _ _ w w (experience_objs w !!! exp)) by reflexivity.
  unfold _format_period, _format_date. rewrite IH, <- app_assoc.
  rewrite fmap_cons. unfold experience_item at 2.
  by destruct (Experience.end_date (experience_objs w !!! exp)).
Qed.

Lemma educations_list_from_run :
  ∀ (educations : list loc) (items : list EducationItem.t) (w : World),
    educations_list_from strftime_Ym educations items w
    = (w, Returns (items ++ (education_item strftime_Ym w <$> educations))).
Proof.
  induction educations as [|edu rest IH]; intros items w.
  { cbn. by rewrite app_nil_r. }
  cbn [educations_list_from].
  rewrite (run_bind _ _ w w (education_objs w !!! edu)) by reflexivity.
  unfold _format_period, _format_date. rewrite IH, <- app_assoc.
  rewrite fmap_cons. unfold education_item at 2.
  by destruct (Education.end_date (education_objs w !!! edu)).
Qed.

Lemma projects_list_from_run :
  ∀ (projects : list loc) (items : list ProjectItem.t) (w : World),
    projects_list_from projects items w
    = (w, Returns (items ++ (project_item w <$> projects))).
Proof.
  induction projects as [|proj rest IH]; intros items w.
  { cbn. by rewrite app_nil_r. }
  cbn [projects_list_from].
  rewrite (run_bind _ _ w w (project_objs w !!! proj)) by reflexivity.
  by rewrite IH, <- app_assoc.
Qed.

Lemma certifications_list_from_run :
  ∀ (certifications : list Certification.t) (items : list CertificationItem.t),
    certifications_list_from strftime_Ym certifications items
    = items ++ (certification_item strftime_Ym <$> certifications).
Proof.
  induction certifications as [|cert rest IH]; intros items.
  { cbn. by rewrite app_nil_r. }
  cbn [certifications_list_from]. rewrite IH, <- app_assoc.
  rewrite fmap_cons. unfold certification_item at 2, _format_date.
  by destruct (Certification.issue_date cert).
Qed.

Lemma _normalize_languages_from_run :
  ∀ (languages : list Language.t) (out : list LanguageItem.t),
    _normalize_languages_from languages out
    = out ++ (language_item <$> languages).
Proof.
  induction languages as [|lang rest IH]; intros out.
  { cbn. by rewrite app_nil_r. }
  cbn [_normalize_languages_from]. by rewrite IH, <- app_assoc.
Qed.

(** X28. [normalize_resume_for_template] copes with every resume, null
    lists included, and loses nothing: it returns without touching any
    object; a null list gives an empty section; every education,
    project, certification and language gives one item, in the order
    of the resume; every experience gives one item, among the
    professional ones or among the volunteer ones by its flag, each
    group in the order of the resume; every skill name is in one of
    the two groups; and an entry without an end date shows
    "Present". *)
Theorem normalize_resume_loses_nothing (resume : Resume.t) (w : World) :
  ∃ normalized,
    normalize_resume_for_template strftime_Ym resume w
    = (w, Returns normalized)
    ∧ Normalized.personal_info normalized = Resume.personal_info resume
    ∧ Normalized.summary normalized = Resume.summary resume
    ∧ Normalized.educations normalized
      = education_item strftime_Ym w <$> Resume.educations resume
    ∧ Normalized.professional_experiences normalized
      = experience_item strftime_Ym w
        <$> professional_in w (default [] (Resume.experiences resume))
    ∧ Normalized.volunteer_experiences normalized
      = experience_item strftime_Ym w
        <$> volunteer_in w (default [] (Resume.experiences resume))
    ∧ Normalized.projects normalized
      = project_item w <$> default [] (Resume.projects resume)
    ∧ Normalized.certifications normalized
      = certification_item strftime_Ym
        <$> default [] (Resume.certifications resume)
    ∧ Normalized.skills_grouped normalized
      = SkillsGrouped.mk (skill_names TECHNICAL (Resume.skills resume))
                         (skill_names SOFT (Resume.skills resume))
    ∧ Normalized.languages normalized
      = language_item <$> Resume.languages resume
    ∧ (length (Normalized.professional_experiences normalized)
       + length (Normalized.volunteer_experiences normalized))%nat
      = length (default [] (Resume.experiences resume))
    ∧ (∀ l, experiences_end_open w l →
         ExperienceItem.end_date (experience_item strftime_Ym w l) = "Present").
Proof.
  unfold normalize_resume_for_template.
  rewrite (run_bind _ _ _ _ _ (educations_list_from_run _ [] w)).
  unfold _split_experiences.
  rewrite (run_bind _ _ _ _ _ (_split_experiences_from_run _ [] [] w)).
  unfold _normalize_experience_list.
  rewrite (run_bind _ _ _ _ _ (_normalize_experience_list_from_run _ [] w)).
  rewrite (run_bind _ _ _ _ _ (_normalize_experience_list_from_run _ [] w)).
  rewrite (run_bind _ _ _ _ _ (projects_list_from_run _ [] w)).
  unfold _group_skills, _normalize_languages.
  rewrite certifications_list_from_run, _group_skills_from_run,
    _normalize_languages_from_run, !app_nil_l.
  eexists. split; [reflexivity|]. cbn.
  split_and!; try done.
  - by destruct (Resume.personal_info resume).
  - rewrite !length_fmap, <- length_app.
    by rewrite professional_volunteer_perm.
  - intros l Hl. unfold experience_item. cbn. by rewrite Hl.
Qed.

End NormalizationFacts.

(** ** From validation to the exported document *)



(** ** The name of the exported file *)

Lemma lower_alnum_is_slug_char (c : ascii) :
  is_alnum (py_lower_char c) = true → slug_char (py_lower_char c) = true.
Proof.
  destruct c as [[] [] [] [] [] [] [] []]; by vm_compute.
Qed.

Lemma string_forall_append (p : ascii → bool) (a b : string) :
  string_forall p (a +:+ b) = string_forall p a && string_forall p b.
Proof.
  induction a as [|c a IH]; [done|].
  rewrite append_cons. cbn. by rewrite IH, andb_assoc.
Qed.

Lemma re_sub_slug_chars (in_run : bool) (s : string) :
  string_forall slug_char (re_sub_non_alnum in_run (py_lower s)) = true.
Proof.
  revert in_run. induction s as [|c s IH]; intros in_run; [done|].
  cbn [py_lower re_sub_non_alnum].
  destruct (is_alnum (py_lower_char c)) eqn:Hc.
  - cbn. by rewrite (lower_alnum_is_slug_char c Hc), IH.
  - destruct in_run; [apply IH|]. cbn. apply IH.
Qed.

Lemma lstrip_char_forall (p : ascii → bool) (ch : ascii) (s : string) :
  string_forall p s = true → string_forall p (lstrip_char ch s) = true.
Proof.
  induction s as [|c s IH]; [done|]. cbn.
  intros [Hc Hs]%andb_true_iff.
  destruct (Ascii.eqb c ch); [by apply IH | cbn; by rewrite Hc, Hs].
Qed.

Lemma rstrip_char_forall (p : ascii → bool) (ch : ascii) (s : string) :
  string_forall p s = true → string_forall p (rstrip_char ch s) = true.
Proof.
  induction s as [|c s IH]; [done|]. cbn.
  intros [Hc Hs]%andb_true_iff. specialize (IH Hs).
  destruct (rstrip_char ch s) as [|c' r'].
  - destruct (Ascii.eqb c ch); [done | cbn; by rewrite Hc].
  - cbn in *. by rewrite Hc, IH.
Qed.

Lemma lstrip_char_head (ch : ascii) (s : string) :
  lstrip_char ch s = ""
  ∨ ∃ c r, lstrip_char ch s = String c r ∧ c ≠ ch.
Proof.
  induction s as [|c s IH]; [by left|]. cbn.
  destruct (Ascii.eqb_spec c ch) as [->|Hne]; [done|].
  right. by exists c, s.
Qed.

Lemma rstrip_char_head (ch c : ascii) (rest : string) :
  c ≠ ch → ∃ r, rstrip_char ch (String c rest) = String c r.
Proof.
  intros Hne. cbn. destruct (rstrip_char ch rest); [|by eexists].
  destruct (Ascii.eqb_spec c ch); [done | by eexists].
Qed.

Lemma strip_char_head (ch : ascii) (s : string) :
  strip_char ch s = "" ∨ ∃ c r, strip_char ch s = String c r ∧ c ≠ ch.
Proof.
  unfold strip_char.
  destruct (lstrip_char_head ch s) as [->|(c & r & -> & Hne)]; [by left|].
  destruct (rstrip_char_head ch c r Hne) as [r' ->]. right. by exists c, r'.
Qed.

(** X30. The name given to an exported file is safe to put between
    the quotes of a Content-Disposition header, whatever the name of
    the candidate: it is a stem, a dot and the extension, where the
    stem is not empty, does not start with an underscore, and is made
    of lower-case letters, digits and underscores only (no quote, no
    line break, no slash, no dot); without a name the file is called
    resume. *)
Theorem filename_is_safe (full_name : option string) (extension : string) :
  ∃ stem,
    _build_filename_from_name full_name extension = stem +:+ "." +:+ extension
    ∧ string_forall slug_char stem = true
    ∧ (∃ c rest, stem = String c rest ∧ c ≠ "_"%char)
    ∧ (truthy full_name = false → stem = "resume").
Proof.
  unfold _build_filename_from_name.
  destruct (truthy full_name) eqn:Ht; cbn [negb].
  2:{ exists "resume". split_and!; [done | done | by eexists _, _ | done]. }
  set (slug := strip_char "_" _).
  assert (string_forall slug_char slug = true) as Hslug.
  { unfold slug, strip_char.
    apply rstrip_char_forall, lstrip_char_forall, re_sub_slug_chars. }
  destruct (strip_char_head "_" (re_sub_non_alnum false
              (py_lower (strip (default "" full_name)))))
    as [Hempty|(c & r & Hhead & Hne)]; fold slug in Hempty || fold slug in Hhead.
  - rewrite Hempty. cbn [String.eqb].
    exists "resume_resume". split_and!; [done | done | by eexists _, _ | done].
  - rewrite Hhead in *. cbn [String.eqb].
    exists (String c r +:+ "_resume"). split_and!.
    + by rewrite append_assoc.
    + by rewrite string_forall_append, Hslug.
    + rewrite append_cons. by eexists _, _.
    + done.
Qed.
